(** * Print server: a shallow embedding of the dispatcher and its formatter

    The development follows the layout of the JavaScript sources:

    - [CONFIG]     : [src/config.js]     (constants)
    - [Utils]      : [src/utils.js]      (phone and date helpers)
    - [OrderItems] : [src/orderItems.js] (item preprocessing, grouping, totals)
    - [Printer]    : [src/printer.js]    (ticket emission onto a printer surface)
    - [Server]     : [src/server.js]     (the print queue and its worker)
    - [Togo]       : the to-go total and the to-go ticket of the same files
    - [Usb], [PlatformPrinter] : the printer module of src/unnamed/part_000
                     that prints over USB on Windows

    JavaScript strings are modelled by [string], numbers that are only
    counted (quantities) by [Z], prices and totals by IEEE binary64
    [float]s, objects that are copied, overwritten or compared by identity
    through an explicit store, and asynchronous code by resumptions that
    advance from one [await] to the next.

    Part I holds the definitions, Part II the theorems. *)

From Stdlib Require Import ZArith Lia Floats String Ascii.
From stdpp Require Import base option list strings pretty gmap.

Set Warnings "-inexact-float".

Open Scope Z_scope.

(* ===================================================================== *)
(** * Part I: the model                                                   *)
(* ===================================================================== *)

(** ** JavaScript values and string primitives *)

Module Js.

(** A property value as far as the code inspects it: [typeof v === "number"]
    holds exactly for [Number]. *)
Inductive value :=
| Undefined
| Number (x : float)
| Text (s : string).

(** A plain object read by property name. *)
Abbreviation object := (gmap string value).

(** Truthiness of an optional string: absent and [""] are falsy. *)
Definition truthy (s : option string) : bool :=
  match s with
  | None => false
  | Some s => negb (s =? "")%string
  end.

(** [s.length], as an integer. *)
Definition len (s : string) : Z := Z.of_nat (String.length s).

(** Index normalisation of [String.prototype.slice]: a negative index counts
    from the end, and every index is clamped into [0, len]. *)
Definition clamp_index (n i : Z) : Z :=
  if i <? 0 then Z.max (n + i) 0 else Z.min i n.

(** [s.slice(start, end)]; [end_ = None] is the one-argument form. *)
Definition slice (s : string) (start : Z) (end_ : option Z) : string :=
  let cs := list_ascii_of_string s in
  let n := len s in
  let from := clamp_index n start in
  let to := match end_ with None => n | Some e => clamp_index n e end in
  string_of_list_ascii (take (Z.to_nat (to - from)) (drop (Z.to_nat from) cs)).

(** The character class [\d] (no unicode flag): the ASCII digits. *)
Definition is_digit (c : ascii) : bool :=
  let n := nat_of_ascii c in (48 <=? n)%nat && (n <=? 57)%nat.

(** [s.replace(/\D/g, "")]: every character that is not a digit is dropped. *)
Definition strip_non_digits (s : string) : string :=
  string_of_list_ascii (List.filter is_digit (list_ascii_of_string s)).

(** A settled promise, as an [await] observes it. The fulfilment value is
    kept only as far as the code reads it (a boolean: [isConnected],
    [orderDoc.exists]); a rejection makes the [await] throw. *)
Inductive settled :=
| Fulfilled (v : bool)
| Rejected.

End Js.

(** ** src/config.js *)

Module CONFIG.

Module TAX.
Definition PST_RATE : float := 0.06.
Definition GST_RATE : float := 0.05.
End TAX.

Module RESTAURANT.
Definition name : string := "Asian Le Restaurant".
Definition address : string := "3-1400 6th Ave E".
Definition phone : string := "306-764-7799".
End RESTAURANT.

Module KITCHEN_TYPES.
Definition A : string := "A".
Definition B : string := "B".
Definition C : string := "C".
Definition Z : string := "Z".
End KITCHEN_TYPES.

Module ORDER_TYPES.
Definition DINE_IN : string := "Dine In".
Definition TAKE_OUT : string := "Take Out".
End ORDER_TYPES.

Module OPTION_NAMES.
Definition EGG_ROLL : string := "Egg Roll".
Definition SPRING_ROLL : string := "Spring Roll".
Definition RICE : string := "Rice".
Definition NOODLES : string := "Noodles".
End OPTION_NAMES.

Definition SPECIAL_ITEM : string := "#3".

End CONFIG.

(** ** The order documents *)

(** Object identity: the address of an object in the store. *)
Abbreviation loc := nat.

(** One entry of [item.options]. [ref] is the identity of the option
    object: [opt !== mainOption] compares identities, not contents. *)
Module Opt.
Record t := mk {
  ref : loc;
  name : string;
  quantity : option Z;
  price : option float
}.
End Opt.

Module Extra.
Record t := mk { description : string; price : option float }.
End Extra.

Module Change.
Record t := mk { from : string; to : string; price : option float }.
End Change.

(** An order item. [A] is what the [options] property holds: the array's
    elements ([list Opt.t]) in the functional reading, the array's address
    in the store reading; [None] stands for a value that is no array. *)
Module Item.
Record t (A : Type) := mk {
  name : string;
  quantity : option Z;
  price : option float;
  kitchenType : option string;
  appetizer : bool;
  togo : bool;
  options : option A;
  extras : list Extra.t;
  changes : list Change.t;
  instructions : option string;
  displayName : option string
}.
Arguments mk {A}.
Arguments name {A}.
Arguments quantity {A}.
Arguments price {A}.
Arguments kitchenType {A}.
Arguments appetizer {A}.
Arguments togo {A}.
Arguments options {A}.
Arguments extras {A}.
Arguments changes {A}.
Arguments instructions {A}.
Arguments displayName {A}.

(** [processed.name = v] *)
Definition set_name {A} (v : string) (i : t A) : t A :=
  mk v (quantity i) (price i) (kitchenType i) (appetizer i) (togo i)
     (options i) (extras i) (changes i) (instructions i) (displayName i).

(** [processed.options = v] *)
Definition set_options {A B} (v : option B) (i : t A) : t B :=
  mk (name i) (quantity i) (price i) (kitchenType i) (appetizer i) (togo i)
     v (extras i) (changes i) (instructions i) (displayName i).

(** [processed.displayName = v] *)
Definition set_displayName {A} (v : string) (i : t A) : t A :=
  mk (name i) (quantity i) (price i) (kitchenType i) (appetizer i) (togo i)
     (options i) (extras i) (changes i) (instructions i) (Some v).
End Item.

(** An item with its options read out of the store. *)
Abbreviation order_item := (Item.t (list Opt.t)).

(** A timestamp as the feed delivers it: a rich object with a [toDate]
    method (the date it yields is kept as epoch milliseconds), a plain
    [{seconds, nanoseconds}] pair, or something else. *)
Inductive timestamp :=
| RichTimestamp (millis : Z)
| PlainTimestamp (seconds nanoseconds : Z)
| OtherTimestamp.

Module Order.
Record t := mk {
  id : string;
  orderType : string;
  isPreorder : bool;
  tableNumber : option string;
  name : option string;
  phoneNumber : option string;
  guests : option Z;
  staffName : option string;
  createdAt : option timestamp;
  preorderTime : option timestamp;
  readyTime : option Z;
  paid : bool;
  orderItems : option (list order_item);
  total : option float;
  taxBreakDown : option Js.object;
  taxbreakdown : option Js.object;
  printId : option string
}.

(** [order.printId = v] *)
Definition set_printId (v : string) (o : t) : t :=
  mk (id o) (orderType o) (isPreorder o) (tableNumber o) (name o)
     (phoneNumber o) (guests o) (staffName o) (createdAt o) (preorderTime o)
     (readyTime o) (paid o) (orderItems o) (total o) (taxBreakDown o)
     (taxbreakdown o) (Some v).

(** [{ ...order, taxBreakDown: v }] *)
Definition set_taxBreakDown (v : Js.object) (o : t) : t :=
  mk (id o) (orderType o) (isPreorder o) (tableNumber o) (name o)
     (phoneNumber o) (guests o) (staffName o) (createdAt o) (preorderTime o)
     (readyTime o) (paid o) (orderItems o) (total o) (Some v)
     (taxbreakdown o) (printId o).
End Order.

(** ** src/utils.js *)

Module Utils.
Import Js.

(** [formatPhone(phone)]. The argument is [None] for [null]/[undefined];
    the empty string is the only falsy string. *)
Definition formatPhone (phone : option string) : string :=
  match phone with
  | None => ""
  | Some "" => ""
  | Some p =>
      let digits := strip_non_digits p in
      if 7 <? len digits then
        slice digits 0 (Some (-7)) +:+ " " +:+ slice digits (-7) (Some (-4))
          +:+ "-" +:+ slice digits (-4) None
      else
        slice digits 0 (Some (-4)) +:+ "-" +:+ slice digits (-4) None
  end.

(** [toDateMaybe(ts)]: the date as epoch milliseconds, or [None] for [null].
    [Math.floor(nanoseconds / 1e6)] is the floor division of [Z]. *)
Definition toDateMaybe (ts : option timestamp) : option Z :=
  match ts with
  | None => None
  | Some (RichTimestamp millis) => Some millis
  | Some (PlainTimestamp seconds nanoseconds) =>
      Some (seconds * 1000 + nanoseconds / 1000000)
  | Some OtherTimestamp => None
  end.

End Utils.

(** ** src/orderItems.js *)

Module Sect.
(** One element of the array [groupItemsByKitchen] returns. *)
Record t := mk { label : string; items : list order_item }.
End Sect.

Module Totals.
(** The object literal [{ subtotal, pst, gst, grandTotal }]. *)
Record t := mk { subtotal : float; pst : float; gst : float; grandTotal : float }.

(** The same object literal read back by property name. *)
Definition to_object (r : t) : Js.object :=
  <["subtotal" := Js.Number (subtotal r)]>
    (<["pst" := Js.Number (pst r)]>
       (<["gst" := Js.Number (gst r)]>
          (<["grandTotal" := Js.Number (grandTotal r)]> ∅))).
End Totals.

Module OrderItems.
Import CONFIG.

(** [processed.quantity > 1 ? `${processed.quantity}x ${processed.name}`
    : processed.name]; an absent quantity compares false. *)
Definition displayNameOf {A} (processed : Item.t A) : string :=
  match Item.quantity processed with
  | Some q =>
      if 1 <? q then pretty q +:+ "x " +:+ Item.name processed
      else Item.name processed
  | None => Item.name processed
  end.

(** The elements of [processed.options] once it is known to be an array. *)
Definition elements {A} (processed : Item.t (list A)) : list A :=
  default [] (Item.options processed).

(** [a !== b] on option objects is [negb (same_object a b)]. *)
Definition same_object (a b : Opt.t) : bool := (Opt.ref a =? Opt.ref b)%nat.

(** The three predicates handed to [processed.options.find]. *)
Definition isMainOption (opt : Opt.t) : bool :=
  negb (Opt.name opt =? OPTION_NAMES.EGG_ROLL)%string
  && negb (Opt.name opt =? OPTION_NAMES.SPRING_ROLL)%string.

Definition isEggSpringOption (opt : Opt.t) : bool :=
  ((Opt.name opt =? OPTION_NAMES.EGG_ROLL)%string
   || (Opt.name opt =? OPTION_NAMES.SPRING_ROLL)%string)
  && match Opt.quantity opt with
     | None => true
     | Some q => (q =? 0) || (q <=? 1)
     end.

Definition isRiceNoodleOption (opt : Opt.t) : bool :=
  (Opt.name opt =? OPTION_NAMES.RICE)%string
  || (Opt.name opt =? OPTION_NAMES.NOODLES)%string.

(** The suffix each rule appends after the slash. *)
Definition mainSuffix (mainOption : Opt.t) : string := Opt.name mainOption.

Definition eggSpringSuffix (eggSpringOption : Opt.t) : string :=
  if (Opt.name eggSpringOption =? OPTION_NAMES.EGG_ROLL)%string
  then "ER" else "SP".

Definition riceNoodleSuffix (riceNoodleOption : Opt.t) : string :=
  if (Opt.name riceNoodleOption =? OPTION_NAMES.RICE)%string
  then "Rice" else "ND".

(** The block the source writes three times:
    [const found = processed.options.find(pred);
     if (found) { processed.name = `${processed.name}/${suffix}`;
                  processed.options = processed.options.filter(opt => opt !== found); }] *)
Definition consume (pred : Opt.t -> bool) (suffix : Opt.t -> string)
    (processed : order_item) : order_item :=
  match List.find pred (elements processed) with
  | Some found =>
      let processed :=
        Item.set_name (Item.name processed +:+ "/" +:+ suffix found) processed in
      Item.set_options
        (Some (List.filter (fun opt => negb (same_object opt found))
                 (elements processed)))
        processed
  | None => processed
  end.

(** [preprocessOrderItem(item)], on the item read out of the store. *)
Definition preprocessOrderItem (item : order_item) : order_item :=
  let processed := item in
  match Item.options processed with
  | None | Some [] =>
      Item.set_displayName (displayNameOf processed) processed
  | Some _ =>
      let processed :=
        if (Item.name processed =? SPECIAL_ITEM)%string
        then consume isMainOption mainSuffix processed
        else processed in
      let processed := consume isEggSpringOption eggSpringSuffix processed in
      let processed := consume isRiceNoodleOption riceNoodleSuffix processed in
      Item.set_displayName (displayNameOf processed) processed
  end.

(** [preprocessOrderItems(orderItems)]; [None] is a value that is no array. *)
Definition preprocessOrderItems (orderItems : option (list order_item)) : list order_item :=
  match orderItems with
  | None => []
  | Some orderItems => map preprocessOrderItem orderItems
  end.

(** [item.kitchenType === kitchenType] *)
Definition kitchenTypeIs (kitchenType : string) (item : order_item) : bool :=
  match Item.kitchenType item with
  | Some k => (k =? kitchenType)%string
  | None => false
  end.

Definition filterByKitchen (kitchenType : string) (item : order_item) : bool :=
  kitchenTypeIs kitchenType item
  && negb (Item.appetizer item) && negb (Item.togo item).

Definition isTogoItem (item : order_item) : bool :=
  Item.togo item && negb (Item.appetizer item).

(** [groupItemsByKitchen(items, excludeTogo = false)] *)
Definition groupItemsByKitchen (items : list order_item) (excludeTogo : bool)
    : list Sect.t :=
  let appetizers := List.filter Item.appetizer items in
  let kitchenA := List.filter (filterByKitchen KITCHEN_TYPES.A) items in
  let kitchenB := List.filter (filterByKitchen KITCHEN_TYPES.B) items in
  let kitchenZ := List.filter (filterByKitchen KITCHEN_TYPES.Z) items in
  let kitchenC := List.filter (filterByKitchen KITCHEN_TYPES.C) items in
  let sections :=
    [ Sect.mk "Appetizers" appetizers;
      Sect.mk "Kitchen A" kitchenA;
      Sect.mk "Kitchen Z" kitchenZ;
      Sect.mk "Kitchen B" kitchenB;
      Sect.mk "Kitchen C" kitchenC ] in
  let sections :=
    if negb excludeTogo then
      let togoItems := List.filter isTogoItem items in
      sections ++ [ Sect.mk "Togo Items" togoItems ]
    else sections in
  List.filter (fun section => (0 <? length (Sect.items section))%nat) sections.

(** [typeof v === "number" ? v : d] *)
Definition numberOr (v : option Js.value) (d : float) : float :=
  match v with
  | Some (Js.Number x) => x
  | _ => d
  end.

(** [getOrderTotals(order, fallbackSubtotal)]. [None] for the second
    argument is an omitted (or nullish) one, as [??] reads it. *)
Definition getOrderTotals (order : Order.t) (fallbackSubtotal : option float)
    : Totals.t :=
  let tb :=
    match Order.taxBreakDown order with
    | Some tb => Some tb
    | None => Order.taxbreakdown order
    end in
  let computed :=
    let sub := default (default 0%float (Order.total order)) fallbackSubtotal in
    let pst := (sub * TAX.PST_RATE)%float in
    let gst := (sub * TAX.GST_RATE)%float in
    Totals.mk sub pst gst (sub + pst + gst)%float in
  match tb with
  | Some tb =>
      match tb !! "grandTotal" with
      | Some (Js.Number grandTotal) =>
          let subtotal := numberOr (tb !! "total") (default 0%float fallbackSubtotal) in
          let pst := numberOr (tb !! "pst") 0%float in
          let gst := numberOr (tb !! "gst") 0%float in
          Totals.mk subtotal pst gst grandTotal
      | _ => computed
      end
  | None => computed
  end.

End OrderItems.

(** ** The store reading of [preprocessOrderItem]

    The function copies its argument ([{ ...item }]) and assigns to the copy.
    Here the objects live in a store: item objects, option objects and
    arrays of references. Allocation takes the next free address. *)

Module Store.

Inductive cell :=
| ItemObj (i : Item.t loc)
| OptObj (name : string) (quantity : option Z) (price : option float)
| Array (elems : list loc).

Abbreviation t := (list cell).

Definition alloc (c : cell) (h : t) : t * loc := (h ++ [c], length h).

Definition write (l : loc) (c : cell) (h : t) : t := <[l := c]> h.

Definition get_item (h : t) (l : loc) : option (Item.t loc) :=
  match h !! l with Some (ItemObj i) => Some i | _ => None end.

Definition get_array (h : t) (l : loc) : option (list loc) :=
  match h !! l with Some (Array elems) => Some elems | _ => None end.

(** The option object behind a reference, tagged with its identity. *)
Definition get_opt (h : t) (r : loc) : option Opt.t :=
  match h !! r with
  | Some (OptObj name quantity price) => Some (Opt.mk r name quantity price)
  | _ => None
  end.

(** [array.find(pred)] on an array of references: the first reference whose
    object satisfies [pred]. *)
Definition find_ref (h : t) (pred : Opt.t -> bool) (elems : list loc)
    : option loc :=
  List.find
    (fun r => match get_opt h r with Some o => pred o | None => false end)
    elems.

(** The item object at [l] with its options array read out; [None] when a
    reference dangles or points to the wrong kind of object. *)
Definition view (h : t) (l : loc) : option order_item :=
  i ← get_item h l;
  match Item.options i with
  | None => Some (Item.set_options None i)
  | Some a =>
      elems ← get_array h a;
      opts ← mapM (get_opt h) elems;
      Some (Item.set_options (Some opts) i)
  end.

(** The find-rename-filter block on the copy at address [p]. [filter]
    builds a new array; the assignment stores its address in the copy. *)
Definition consume (pred : Opt.t -> bool) (suffix : Opt.t -> string)
    (p : loc) (h : t) : option t :=
  processed ← get_item h p;
  a ← Item.options processed;
  elems ← get_array h a;
  match find_ref h pred elems with
  | Some r =>
      found ← get_opt h r;
      let h :=
        write p (ItemObj (Item.set_name
                            (Item.name processed +:+ "/" +:+ suffix found)
                            processed)) h in
      let '(h, a') :=
        alloc (Array (List.filter (fun r' => negb (r' =? r)%nat) elems)) h in
      processed ← get_item h p;
      Some (write p (ItemObj (Item.set_options (Some a') processed)) h)
  | None => Some h
  end.

Definition assignDisplayName (p : loc) (h : t) : option t :=
  processed ← get_item h p;
  Some (write p (ItemObj (Item.set_displayName
                            (OrderItems.displayNameOf processed) processed)) h).

(** [preprocessOrderItem(item)] with [item] the object at address [l]:
    the new store and the address of the object returned. *)
Definition preprocessOrderItem (l : loc) (h : t) : option (t * loc) :=
  item ← get_item h l;
  let '(h, p) := alloc (ItemObj item) h in
  let is_empty_or_no_array :=
    match Item.options item with
    | None => Some true
    | Some a => elems ← get_array h a; Some (bool_decide (elems = []))
    end in
  b ← is_empty_or_no_array;
  if b : bool then
    h ← assignDisplayName p h; Some (h, p)
  else
    h ← (if (Item.name item =? CONFIG.SPECIAL_ITEM)%string
         then consume OrderItems.isMainOption OrderItems.mainSuffix p h
         else Some h);
    h ← consume OrderItems.isEggSpringOption OrderItems.eggSpringSuffix p h;
    h ← consume OrderItems.isRiceNoodleOption OrderItems.riceNoodleSuffix p h;
    h ← assignDisplayName p h;
    Some (h, p).

End Store.

(** ** src/printer.js *)

(** What the formatter takes from the JavaScript runtime rather than from
    this repository. *)
Class Runtime := {
  (** [date.toLocaleString("en-CA", options)], the date in epoch
      milliseconds, the options as property/value pairs *)
  toLocaleString : Z -> list (string * string) -> string;
  (** [x.toFixed(2)] *)
  toFixed2 : float -> string;
  (** the number a string is converted to when compared with a number *)
  toNumber : string -> float;
  (** the number a counted quantity is *)
  ofInteger : Z -> float;
  (** [s.toUpperCase()] *)
  toUpperCase : string -> string
}.

Module Printer.
Import CONFIG.
Section WithRuntime.
Context {rt : Runtime}.

(** [formatDate(date, options)] of src/utils.js *)
Definition formatDate (date : option Z) (options : list (string * string)) : string :=
  match date with
  | None => ""
  | Some date => toLocaleString date options
  end.

(** The calls made on the [ThermalPrinter] object, by method name. *)
Inductive command :=
| isPrinterConnected
| alignCenter
| alignLeft
| alignRight
| setTextQuadArea
| setTextNormal
| setTextSize (w h : Z)
| bold (b : bool)
| underline (b : bool)
| println (s : string)
| newLine
| leftRight (l r : string)
| cut
| execute.

(** A command that formats or emits output: everything but the
    connectivity query. *)
Definition is_output (c : command) : bool :=
  match c with
  | isPrinterConnected => false
  | _ => true
  end.

Definition separator : string := "--------------------------------".

(** The double quote character, for the instructions line. *)
Definition dquote : string := String (ascii_of_nat 34) EmptyString.

(** [x > 0 ? `$${x.toFixed(2)}` : ""]; [undefined > 0] is false. *)
Definition dollars (x : option float) : string :=
  match x with
  | Some v => if PrimFloat.ltb 0 v then "$" +:+ toFixed2 v else ""
  | None => ""
  end.

(** [`${q}`] for an optional quantity *)
Definition quantityText (q : option Z) : string :=
  match q with
  | Some q => pretty q
  | None => "undefined"
  end.

Definition printSectionHeader (title : string) : list command :=
  [ alignCenter; setTextQuadArea; bold true;
    println ("---- " +:+ title +:+ " ----");
    alignLeft; setTextNormal; newLine ].

Definition printRestaurantHeader (order : Order.t) : list command :=
  (if Order.paid order
   then [ alignCenter; setTextSize 2 2; println "Paid"; newLine ]
   else [])
  ++ [ alignCenter; setTextQuadArea; bold true;
       println RESTAURANT.name; newLine ].

Definition printOrderTypeHeader (order : Order.t) (kitchen : string) : list command :=
  [ setTextSize 2 2; bold false ]
  ++ (if (Order.orderType order =? ORDER_TYPES.TAKE_OUT)%string
         && negb (Order.isPreorder order)
      then [ println ("*Take Out " +:+ kitchen +:+ "*"); newLine ]
      else match Order.tableNumber order with
           | Some tableNumber =>
               if Js.truthy (Some tableNumber)
               then [ println ("Table: " +:+ tableNumber) ]
               else []
           | None => []
           end).

Definition printPreorderInfo (order : Order.t) (kitchen : string) : list command :=
  if negb (Order.isPreorder order) then []
  else
    [ setTextQuadArea; println ("***Pre-Order " +:+ kitchen +:+ "***") ]
    ++ (match Utils.toDateMaybe (Order.preorderTime order) with
        | Some preorderDate =>
            [ println (formatDate (Some preorderDate)
                         [("year", "numeric"); ("month", "short"); ("day", "numeric")]);
              println (formatDate (Some preorderDate)
                         [("weekday", "short"); ("hour", "2-digit");
                          ("minute", "2-digit"); ("hour12", "true")]) ]
        | None => [ newLine; newLine ]
        end)
    ++ [ setTextNormal ].

Definition printOrderDetails (order : Order.t) : list command :=
  [ setTextNormal; alignLeft ]
  ++ (match Order.staffName order with
      | Some staffName =>
          if Js.truthy (Some staffName) then [ println ("Staff: " +:+ staffName) ] else []
      | None => []
      end)
  ++ (match Order.guests order with
      | Some guests =>
          if (Order.orderType order =? ORDER_TYPES.DINE_IN)%string && negb (guests =? 0)
          then [ println ("Guests: " +:+ pretty guests) ]
          else []
      | None => []
      end)
  ++ (match Order.createdAt order with
      | Some createdAt =>
          let orderDate := Utils.toDateMaybe (Some createdAt) in
          let timeString :=
            formatDate orderDate
              [("month", "short"); ("day", "numeric"); ("year", "numeric");
               ("hour", "2-digit"); ("minute", "2-digit"); ("hour12", "true")] in
          [ println ("Ordered At: " +:+ timeString) ]
      | None => []
      end)
  ++ (match Order.readyTime order with
      | Some readyTime =>
          if negb (Order.isPreorder order) && negb (readyTime =? 0)
             && negb (Order.orderType order =? ORDER_TYPES.DINE_IN)%string
          then [ println ("Ready in: " +:+ pretty readyTime +:+ " mins") ]
          else []
      | None => []
      end)
  ++ [ setTextQuadArea; bold false ]
  ++ (if (Order.orderType order =? ORDER_TYPES.TAKE_OUT)%string
      then
        (match Order.name order with
         | Some name =>
             if Js.truthy (Some name) then [ println ("Customer: " +:+ name) ] else []
         | None => []
         end)
        ++ (if Js.truthy (Order.phoneNumber order)
            then [ println ("Phone: " +:+ Utils.formatPhone (Order.phoneNumber order)) ]
            else [])
      else [])
  ++ [ setTextNormal; println separator ].

Definition printOption (opt : Opt.t) : list command :=
  let optName :=
    match Opt.quantity opt with
    | Some q => if 1 <? q then pretty q +:+ "x " +:+ Opt.name opt else Opt.name opt
    | None => Opt.name opt
    end in
  let optPrice :=
    match Opt.price opt with
    | Some price =>
        if PrimFloat.ltb 0 price
        then quantityText (Opt.quantity opt) +:+ "x " +:+ toFixed2 price
        else ""
    | None => ""
    end in
  [ leftRight ("   • " +:+ optName) optPrice; newLine ].

Definition printExtra (extra : Extra.t) : list command :=
  [ leftRight ("   + Add Extra: " +:+ toUpperCase (Extra.description extra))
      (dollars (Extra.price extra));
    newLine ].

Definition printChange (chg : Change.t) : list command :=
  [ leftRight ("   + Change: " +:+ toUpperCase (Change.from chg) +:+ " -->> "
               +:+ toUpperCase (Change.to chg))
      (dollars (Change.price chg));
    newLine ].

Definition printOrderItem (item : order_item) : list command :=
  let itemTotal :=
    toFixed2 (default nan (Item.price item)
              * match Item.quantity item with
                | Some q => ofInteger q
                | None => nan
                end)%float in
  [ alignLeft; bold true; setTextQuadArea;
    println (default "undefined" (Item.displayName item));
    newLine; setTextNormal; bold true ]
  ++ concat (map printOption (OrderItems.elements item))
  ++ concat (map printExtra (Item.extras item))
  ++ concat (map printChange (Item.changes item))
  ++ (match Item.instructions item with
      | Some instructions =>
          if Js.truthy (Some instructions)
          then [ println (toUpperCase
                            ("   * Note: " +:+ dquote +:+ instructions +:+ dquote)) ]
          else []
      | None => []
      end)
  ++ [ alignRight; setTextNormal; bold true;
       println (if PrimFloat.ltb 0 (toNumber itemTotal)
                then "$" +:+ itemTotal else "");
       setTextNormal ].

Definition printSection (section : Sect.t) : list command :=
  (if (Sect.label section =? "Togo Items")%string
   then printSectionHeader "TO GO"
   else if (Sect.label section =? "Appetizers")%string
        then printSectionHeader "Appetizers"
        else [])
  ++ concat (map printOrderItem (Sect.items section))
  ++ (if (Sect.label section =? "Appetizers")%string
      then [ setTextNormal; alignLeft; bold true; println separator ]
      else []).

Definition printOrderItems (groupedSections : list Sect.t) : list command :=
  concat (map printSection groupedSections).

Definition printTotals (order : Order.t) : list command :=
  let r := OrderItems.getOrderTotals order None in
  [ println separator; alignRight; bold false;
    println ("Subtotal: $" +:+ toFixed2 (Totals.subtotal r));
    println ("PST (6%): $" +:+ toFixed2 (Totals.pst r));
    println ("GST (5%): $" +:+ toFixed2 (Totals.gst r));
    println "----------------------------";
    setTextQuadArea;
    println ("TOTAL: $" +:+ toFixed2 (Totals.grandTotal r));
    setTextNormal; newLine ].

Definition printFooter (order : Order.t) (kitchen : string) : list command :=
  [ alignCenter; underline true;
    println "Thank you! Please come again!";
    println RESTAURANT.address;
    println RESTAURANT.phone;
    underline false; newLine;
    setTextSize 2 2; bold false ]
  ++ (if (Order.orderType order =? ORDER_TYPES.TAKE_OUT)%string
      then
        let label := if Order.isPreorder order then "Pre-Order" else "Take Out" in
        [ println ("*" +:+ label +:+ " " +:+ kitchen +:+ "*") ]
      else if Js.truthy (Order.tableNumber order)
           then [ println ("Table: " +:+ default "" (Order.tableNumber order)) ]
           else [])
  ++ [ newLine ].

(** What the printer answers: the promise of [isPrinterConnected()] and
    the promise of [execute()]. *)
Record surface := {
  connected : Js.settled;
  executed : Js.settled
}.

(** How [printOrder] ends: it returns, or it throws (and rethrows from its
    [catch]) either its own [new Error("Printer not connected")] or whatever
    the surface rejected with. *)
Inductive completion :=
| Returned
| ThrewNotConnected
| ThrewSurfaceError.

(** [printOrder(order, kitchen)]: the calls made on a fresh printer, in
    order, and how the function ends. *)
Definition printOrder (env : surface) (order : Order.t) (kitchen : string)
    : list command * completion :=
  match connected env with
  | Js.Rejected => ([ isPrinterConnected ], ThrewSurfaceError)
  | Js.Fulfilled false => ([ isPrinterConnected ], ThrewNotConnected)
  | Js.Fulfilled true =>
      let processedItems := OrderItems.preprocessOrderItems (Order.orderItems order) in
      let groupedSections := OrderItems.groupItemsByKitchen processedItems false in
      let calls :=
        [ isPrinterConnected ]
        ++ printRestaurantHeader order
        ++ printOrderTypeHeader order kitchen
        ++ printPreorderInfo order kitchen
        ++ printOrderDetails order
        ++ printOrderItems groupedSections
        ++ printTotals order
        ++ printFooter order kitchen
        ++ [ cut; execute ] in
      match executed env with
      | Js.Fulfilled _ => (calls, Returned)
      | Js.Rejected => (calls, ThrewSurfaceError)
      end
  end.

End WithRuntime.
End Printer.

(** ** src/server.js *)

Module Server.
Import CONFIG.

(** The asynchronous calls [processQueue] awaits. *)
Inductive call :=
| PrintOrder (order : Order.t) (kitchen : string)
    (** [printOrder(order, kitchen)] *)
| DocGet (collectionName id : string)
    (** [db.collection(collectionName).doc(id).get()] *)
| DocUpdatePrinted (collectionName id : string)
    (** [orderRef.update({ printed: true })] *)
| QueueDelete (printId : string)
    (** [db.collection("printQueue").doc(printId).delete()] *).

(** The lines written to the console, by the place that writes them. *)
Inductive log :=
| PrintingOrder (id : string)
| PrintCompleted (id : string)
| MarkedPrinted (id : string)
| OrderNotFound (id collectionName : string)
| UpdateError (id : string)
| PrintFailed (id : string)
| RemovedFromQueue (id : string) (printSucceeded : bool)
| DeleteError.

(** The lines the snapshot listener writes to the console. *)
Inductive notice :=
| NoUnprintedOrders
| NewOrderDetected (label : string).

(** The body of [processQueue] after the job is taken: console lines, awaited
    calls with what follows each outcome, and the arrival at the last two
    statements ([isPrinting = false; processQueue()]) with the value of
    [printSucceeded]. *)
Inductive proc :=
| Log (m : log) (k : proc)
| Await (c : call) (k : Js.settled -> proc)
| Finish (printSucceeded : bool).

(** The [finally] block, up to its last two statements. *)
Definition finallyBlock (order : Order.t) (printSucceeded : bool) : proc :=
  match Order.printId order with
  | Some printId =>
      if Js.truthy (Some printId) then
        Await (QueueDelete printId) (fun r =>
          match r with
          | Js.Fulfilled _ =>
              Log (RemovedFromQueue (Order.id order) printSucceeded)
                (Finish printSucceeded)
          | Js.Rejected => Log DeleteError (Finish printSucceeded)
          end)
      else Finish printSucceeded
  | None => Finish printSucceeded
  end.

(** The inner [try]/[catch] that marks the order as printed; [k] is what
    follows it. *)
Definition markPrinted (order : Order.t) (k : proc) : proc :=
  let collectionName :=
    if (Order.orderType order =? ORDER_TYPES.DINE_IN)%string
    then "dineInOrders" else "takeOutOrders" in
  Await (DocGet collectionName (Order.id order)) (fun orderDoc =>
    match orderDoc with
    | Js.Fulfilled true =>
        Await (DocUpdatePrinted collectionName (Order.id order)) (fun r =>
          match r with
          | Js.Fulfilled _ => Log (MarkedPrinted (Order.id order)) k
          | Js.Rejected => Log (UpdateError (Order.id order)) k
          end)
    | Js.Fulfilled false =>
        Log (OrderNotFound (Order.id order) collectionName) k
    | Js.Rejected => Log (UpdateError (Order.id order)) k
    end).

(** [for (const kitchen of kitchens) { await printOrder(order, kitchen); }]
    inside the outer [try]: [k] follows the loop, [handler] is the outer
    [catch]. *)
Fixpoint printEach (order : Order.t) (kitchens : list string)
    (k handler : proc) : proc :=
  match kitchens with
  | [] => k
  | kitchen :: kitchens =>
      Await (PrintOrder order kitchen) (fun r =>
        match r with
        | Js.Fulfilled _ => printEach order kitchens k handler
        | Js.Rejected => handler
        end)
  end.

(** The outer [try]/[catch]/[finally] for one job. *)
Definition processOrder (order : Order.t) : proc :=
  let afterPrint :=
    Log (PrintCompleted (Order.id order))
      (markPrinted order (finallyBlock order true)) in
  let handler :=
    Log (PrintFailed (Order.id order)) (finallyBlock order false) in
  Log (PrintingOrder (Order.id order))
    (if (Order.orderType order =? ORDER_TYPES.TAKE_OUT)%string then
       let kitchens := [ KITCHEN_TYPES.B; KITCHEN_TYPES.A ] in
       printEach order kitchens afterPrint handler
     else
       Await (PrintOrder order "") (fun r =>
         match r with
         | Js.Fulfilled _ => afterPrint
         | Js.Rejected => handler
         end)).

(** What [await printOrder(order, kitchen)] observes of the way
    [printOrder] ends. *)
Definition awaitPrint (c : Printer.completion) : Js.settled :=
  match c with
  | Printer.Returned => Js.Fulfilled true
  | Printer.ThrewNotConnected | Printer.ThrewSurfaceError => Js.Rejected
  end.

(** What an observer sees, in order: console lines of the listener and of
    the worker, calls issued, awaits resumed, and the two assignments to
    [isPrinting] (with the job taken and, at the end, the value of
    [printSucceeded]). *)
Inductive event :=
| Noticed (m : notice)
| Logged (m : log)
| Called (c : call)
| Settled (c : call) (r : Js.settled)
| Shifted (order : Order.t)
| Released (order : Order.t) (printSucceeded : bool).

(** A suspended activation of [processQueue]: its job, the call it awaits
    and what it does with the outcome. *)
Record frame := {
  job : Order.t;
  awaited : call;
  resume : Js.settled -> proc
}.

(** The module state ([printQueue], [isPrinting]), the suspended
    activations and the events so far. *)
Record state := {
  printQueue : list Order.t;
  isPrinting : bool;
  pending : list frame;
  trace : list event
}.

Definition init : state :=
  {| printQueue := []; isPrinting := false; pending := []; trace := [] |}.

Definition emit (e : event) (st : state) : state :=
  {| printQueue := printQueue st; isPrinting := isPrinting st;
     pending := pending st; trace := trace st ++ [e] |}.

Definition suspend (f : frame) (st : state) : state :=
  {| printQueue := printQueue st; isPrinting := isPrinting st;
     pending := pending st ++ [f]; trace := trace st |}.

Definition drop_frame (i : nat) (st : state) : state :=
  {| printQueue := printQueue st; isPrinting := isPrinting st;
     pending := delete i (pending st); trace := trace st |}.

(** [printQueue.push(order)] *)
Definition push (order : Order.t) (st : state) : state :=
  {| printQueue := printQueue st ++ [order]; isPrinting := isPrinting st;
     pending := pending st; trace := trace st |}.

(** [isPrinting = true; const order = printQueue.shift();] with the queue
    known to be [order :: rest] *)
Definition shift (order : Order.t) (rest : list Order.t) (st : state) : state :=
  {| printQueue := rest; isPrinting := true;
     pending := pending st; trace := trace st ++ [Shifted order] |}.

(** [isPrinting = false] at the end of the [finally] block *)
Definition release (order : Order.t) (printSucceeded : bool) (st : state) : state :=
  {| printQueue := printQueue st; isPrinting := false;
     pending := pending st;
     trace := trace st ++ [Released order printSucceeded] |}.

(** Run an activation until it suspends at an [await] ([None]) or arrives
    at its last two statements ([Some printSucceeded]). *)
Fixpoint advance (order : Order.t) (p : proc) (st : state)
    : state * option bool :=
  match p with
  | Log m k => advance order k (emit (Logged m) st)
  | Await c k =>
      (suspend {| job := order; awaited := c; resume := k |}
         (emit (Called c) st), None)
  | Finish printSucceeded => (st, Some printSucceeded)
  end.

(** [processQueue()] past its guard, with [queue] the contents of
    [printQueue]. An activation that arrives at its end without suspending
    releases the flag and calls [processQueue()] again, on the rest. *)
Fixpoint drain (queue : list Order.t) (st : state) : state :=
  match queue with
  | [] => st
  | order :: rest =>
      match advance order (processOrder order) (shift order rest st) with
      | (st, None) => st
      | (st, Some printSucceeded) =>
          drain rest (release order printSucceeded st)
      end
  end.

(** [processQueue()] *)
Definition processQueue (st : state) : state :=
  if isPrinting st || bool_decide (printQueue st = []) then st
  else drain (printQueue st) st.

(** The promise awaited by the [i]-th suspended activation settles with
    [r]: the activation runs on to its next [await] or to its end, where it
    releases the flag and calls [processQueue()]. *)
Definition settle (i : nat) (r : Js.settled) (st : state) : state :=
  match pending st !! i with
  | None => st
  | Some f =>
      let st := emit (Settled (awaited f) r) (drop_frame i st) in
      match advance (job f) (resume f r) st with
      | (st, None) => st
      | (st, Some printSucceeded) =>
          processQueue (release (job f) printSucceeded st)
      end
  end.

(** One element of [snapshot.docChanges()]: the document's id and data. *)
Record docChange := { docId : string; docData : Order.t }.

(** The job the handler builds from a change:
    [order = change.doc.data(); order.printId = change.doc.id]. *)
Definition jobOf (change : docChange) : Order.t :=
  Order.set_printId (docId change) (docData change).

(** The body of the [forEach] callback; its guard [if (order)] holds for
    every object. *)
Definition onChange (st : state) (change : docChange) : state :=
  let order := jobOf change in
  let label :=
    if Js.truthy (Some (Order.id order)) then Order.id order
    else default "" (Order.printId order) in
  processQueue (push order (emit (Noticed (NewOrderDetected label)) st)).

(** The snapshot callback; [empty] is [snapshot.empty]. *)
Definition onSnapshot (empty : bool) (changes : list docChange) (st : state)
    : state :=
  if empty then emit (Noticed NoUnprintedOrders) st
  else fold_left onChange changes st.

(** What the event loop delivers: a snapshot from the feed, or the
    settlement of the promise a suspended activation awaits. *)
Inductive input :=
| Snapshot (empty : bool) (changes : list docChange)
| Settle (i : nat) (r : Js.settled).

Definition step (st : state) (inp : input) : state :=
  match inp with
  | Snapshot empty changes => onSnapshot empty changes st
  | Settle i r => settle i r st
  end.

Definition run (inputs : list input) (st : state) : state :=
  fold_left step inputs st.

(** The jobs the handler pushed, in the order of the pushes. *)
Definition enqueued (inputs : list input) : list Order.t :=
  concat (map (fun inp =>
                 match inp with
                 | Snapshot false changes => map jobOf changes
                 | _ => []
                 end) inputs).

(** *** Reading a trace *)

(** The events of the worker: everything but the listener's console lines. *)
Definition of_worker (e : event) : bool :=
  match e with
  | Noticed _ => false
  | _ => true
  end.

Definition worker (es : list event) : list event := List.filter of_worker es.

(** The events of a resumption when the promises it awaits settle with
    [answers], in that order, and the value of [printSucceeded] if the
    answers suffice to reach the end. *)
Fixpoint perform (p : proc) (answers : list Js.settled)
    : list event * option bool :=
  match p with
  | Log m k =>
      let '(es, out) := perform k answers in (Logged m :: es, out)
  | Await c k =>
      match answers with
      | [] => ([ Called c ], None)
      | r :: answers =>
          let '(es, out) := perform (k r) answers in
          (Called c :: Settled c r :: es, out)
      end
  | Finish printSucceeded => ([], Some printSucceeded)
  end.

(** The events of one processing attempt of [order]: from taking the job
    to, if the answers suffice, releasing the flag. *)
Definition attempt (order : Order.t) (answers : list Js.settled) : list event :=
  let '(es, out) := perform (processOrder order) answers in
  Shifted order :: es
  ++ match out with
     | Some printSucceeded => [ Released order printSucceeded ]
     | None => []
     end.

(** The outcome of an attempt, once it is over. *)
Definition outcome (order : Order.t) (answers : list Js.settled) : option bool :=
  snd (perform (processOrder order) answers).

(** The events of a sequence of attempts, one after the other. *)
Definition attempts (jobs : list (Order.t * list Js.settled)) : list event :=
  concat (map (fun j => attempt (fst j) (snd j)) jobs).

(** The number of awaits a resumption can still go through. *)
Fixpoint awaits (p : proc) : nat :=
  match p with
  | Log _ k => awaits k
  | Await _ k =>
      S (Nat.max (awaits (k (Js.Fulfilled true)))
           (Nat.max (awaits (k (Js.Fulfilled false))) (awaits (k Js.Rejected))))
  | Finish _ => 0
  end.

(** A bound on the settlements it takes to drain the queue: the awaits
    left to the suspended activation, and five for every job waiting. *)
Definition potential (st : state) : nat :=
  match pending st with
  | [ f ] => awaits (Await (awaited f) (resume f))
  | _ => 0
  end + 5 * length (printQueue st).

(** The destination tags of the [printOrder] calls in a trace. *)
Definition printedKitchens (es : list event) : list string :=
  omap (fun e => match e with
                 | Called (PrintOrder _ kitchen) => Some kitchen
                 | _ => None
                 end) es.

(** The destination tags of the [printOrder] calls that were rejected. *)
Definition printFailures (es : list event) : list string :=
  omap (fun e => match e with
                 | Settled (PrintOrder _ kitchen) Js.Rejected => Some kitchen
                 | _ => None
                 end) es.

(** The records looked up ([get]) and the records updated, as pairs of
    collection and id, and how those calls settled. *)
Definition lookups (es : list event) : list (string * string) :=
  omap (fun e => match e with
                 | Called (DocGet c i) => Some (c, i)
                 | _ => None
                 end) es.

Definition updates (es : list event) : list (string * string) :=
  omap (fun e => match e with
                 | Called (DocUpdatePrinted c i) => Some (c, i)
                 | _ => None
                 end) es.

Definition lookupResults (es : list event) : list Js.settled :=
  omap (fun e => match e with
                 | Settled (DocGet _ _) r => Some r
                 | _ => None
                 end) es.

Definition updateResults (es : list event) : list Js.settled :=
  omap (fun e => match e with
                 | Settled (DocUpdatePrinted _ _) r => Some r
                 | _ => None
                 end) es.

(** The worker's console lines. *)
Definition logs (es : list event) : list log :=
  omap (fun e => match e with Logged m => Some m | _ => None end) es.

(** The queue entries whose deletion is called for in a trace. *)
Definition deletions (es : list event) : list string :=
  omap (fun e => match e with
                 | Called (QueueDelete printId) => Some printId
                 | _ => None
                 end) es.

(** The collection that holds the order's source-of-truth record. *)
Definition collectionOf (order : Order.t) : string :=
  if (Order.orderType order =? "Dine In")%string
  then "dineInOrders" else "takeOutOrders".

(** The jobs taken and the jobs finished, in order. *)
Definition shifted (es : list event) : list Order.t :=
  omap (fun e => match e with Shifted o => Some o | _ => None end) es.

Definition released (es : list event) : list (Order.t * bool) :=
  omap (fun e => match e with Released o b => Some (o, b) | _ => None end) es.

(** No two attempts overlap: the flag is taken and released in strict
    alternation, each release by the job that took the flag last. *)
Fixpoint alternates (current : option Order.t) (es : list event) : Prop :=
  match es with
  | [] => True
  | Shifted o :: es => current = None /\ alternates (Some o) es
  | Released o _ :: es => current = Some o /\ alternates None es
  | _ :: es => alternates current es
  end.

End Server.

(** ** Vocabulary of the statements *)

Module Grouping.
Import OrderItems.

(** The labels [groupItemsByKitchen] can return, in its order. *)
Definition sectionLabels : list string :=
  [ "Appetizers"; "Kitchen A"; "Kitchen Z"; "Kitchen B"; "Kitchen C"; "Togo Items" ].

(** The six sections before the empty ones are dropped. *)
Definition candidates (items : list order_item) : list Sect.t :=
  [ Sect.mk "Appetizers" (List.filter Item.appetizer items);
    Sect.mk "Kitchen A" (List.filter (filterByKitchen CONFIG.KITCHEN_TYPES.A) items);
    Sect.mk "Kitchen Z" (List.filter (filterByKitchen CONFIG.KITCHEN_TYPES.Z) items);
    Sect.mk "Kitchen B" (List.filter (filterByKitchen CONFIG.KITCHEN_TYPES.B) items);
    Sect.mk "Kitchen C" (List.filter (filterByKitchen CONFIG.KITCHEN_TYPES.C) items);
    Sect.mk "Togo Items" (List.filter isTogoItem items) ].

Definition nonEmpty (section : Sect.t) : bool :=
  (0 <? length (Sect.items section))%nat.

(** An item that is flagged appetizer, flagged togo, or sent to one of the
    four kitchens: an item some section accepts. *)
Definition routed (item : order_item) : bool :=
  Item.appetizer item || Item.togo item
  || existsb (fun k => kitchenTypeIs k item) [ "A"; "Z"; "B"; "C" ].

(** The one section an item can land in. *)
Definition destination (item : order_item) : option string :=
  if Item.appetizer item then Some "Appetizers"
  else if Item.togo item then Some "Togo Items"
  else if kitchenTypeIs "A" item then Some "Kitchen A"
  else if kitchenTypeIs "Z" item then Some "Kitchen Z"
  else if kitchenTypeIs "B" item then Some "Kitchen B"
  else if kitchenTypeIs "C" item then Some "Kitchen C"
  else None.

End Grouping.

Module Framing.
Import Store.

(** Every object but the one at [p] is where and what it was. *)
Definition frame (p : loc) (h h' : Store.t) : Prop :=
  (length h <= length h')%nat
  /\ forall k : nat, k <> p -> (k < length h)%nat -> h' !! k = h !! k.

(** [p] holds neither an option object nor an array: it holds an item, or
    nothing yet. *)
Definition no_data (h : Store.t) (p : loc) : Prop :=
  get_opt h p = None /\ get_array h p = None.

End Framing.

Module QueueInv.
Import Server.

(** What holds between the jobs pushed so far ([enq]) and a state the
    queue can reach: the worker's events are the attempts on the jobs
    [done] followed by the attempt on the job [cur] in progress, if any;
    the jobs pushed are those, in that order, followed by the queue; and
    the flag is held exactly while an attempt is in progress, by the one
    suspended activation. *)
Definition consistent (enq : list Order.t) (st : state)
    (done : list (Order.t * list Js.settled))
    (cur : option (Order.t * list Js.settled)) : Prop :=
  worker (trace st)
  = attempts done
    ++ match cur with Some j => attempt (fst j) (snd j) | None => [] end
  /\ Forall (fun j => is_Some (outcome (fst j) (snd j))) done
  /\ enq = map fst done
           ++ match cur with Some j => [ fst j ] | None => [] end
           ++ printQueue st
  /\ match cur with
     | None => isPrinting st = false /\ pending st = [] /\ printQueue st = []
     | Some j =>
         isPrinting st = true
         /\ outcome (fst j) (snd j) = None
         /\ exists c k,
              pending st = [ {| job := fst j; awaited := c; resume := k |} ]
              /\ (awaits (Await c k) <= 5)%nat
              /\ forall r more,
                   perform (processOrder (fst j)) (snd j ++ r :: more)
                   = (fst (perform (processOrder (fst j)) (snd j))
                      ++ Settled c r :: fst (perform (k r) more),
                      snd (perform (k r) more))
     end.

End QueueInv.

(** ** Sample data *)

Module Sample.

(** A plain item (no appetizer, not to go) with the given kitchen type. *)
Definition plainItem (kitchenType : option string) : order_item :=
  Item.mk "Pop" (Some 1) (Some 2%float) kitchenType false false None [] [] None None.

(** An item that carries no kitchen type. *)
Definition strayItem : order_item := plainItem None.

Definition spring (kitchenType : string) (togo : bool) : order_item :=
  Item.mk "Spring Rolls" (Some 2) (Some 5%float) (Some kitchenType) false togo
    None [] [] None None.

Definition eggRoll : Opt.t := Opt.mk 2%nat "Egg Roll" None None.
Definition friedRice : Opt.t := Opt.mk 3%nat "Fried Rice" None None.

Definition number3 : order_item :=
  Item.mk "#3" (Some 1) (Some 12%float) (Some "A") false false
    (Some [ eggRoll; friedRice ]) [] [] None None.

(** An order with nothing but an id, a type and, possibly, a queue id. *)
Definition order (id orderType : string) (printId : option string) : Order.t :=
  Order.mk id orderType false None None None None None None None None false
    None None None None printId.

(** A dine-in order with a subtotal of 10 and no tax breakdown. *)
Definition tenDollars : Order.t :=
  Order.mk "o1" "Dine In" false None None None None None None None None false
    None (Some 10%float) None None None.

(** A runtime that renders nothing, for running the printer model. *)
Definition silent : Runtime :=
  {| toLocaleString := fun _ _ => "";
     toFixed2 := fun _ => "";
     toNumber := fun _ => 0%float;
     ofInteger := fun _ => 0%float;
     toUpperCase := fun s => s |}.

(** A store holding [number3]: the item object at address 0, its options
    array at 1, the two option objects at 2 and 3. *)
Definition store : Store.t :=
  [ Store.ItemObj (Item.set_options (Some 1%nat) number3);
    Store.Array [ 2%nat; 3%nat ];
    Store.OptObj "Egg Roll" None None;
    Store.OptObj "Fried Rice" None None ].

(** A dine-in job and a take-out job as the listener delivers them. *)
Definition dineInChange : Server.docChange :=
  {| Server.docId := "q1"; Server.docData := order "o1" "Dine In" None |}.

Definition takeOutChange : Server.docChange :=
  {| Server.docId := "q2"; Server.docData := order "o2" "Take Out" None |}.

End Sample.


(** ** Proof automation *)

Module Tactics.

(** Case analysis on the flags and the kitchen type of an item. *)
Ltac case_kitchen item :=
  unfold OrderItems.filterByKitchen, OrderItems.isTogoItem, Grouping.routed,
    OrderItems.kitchenTypeIs;
  destruct (Item.appetizer item), (Item.togo item),
    (Item.kitchenType item) as [k|]; simpl;
  try (destruct (String.eqb_spec k "A") as [->|];
       [| destruct (String.eqb_spec k "Z") as [->|];
          [| destruct (String.eqb_spec k "B") as [->|];
             [| destruct (String.eqb_spec k "C") as [->|] ] ] ]);
  simpl.

(** Case analysis on the next answer, as long as one is asked for. *)
Ltac next_answer :=
  match goal with
  | |- context [match ?a with nil => _ | cons _ _ => _ end] =>
      is_var a; destruct a as [|[[]|] a]
  end.

(** Every way an attempt on [order] can go: the order type, the queue id,
    and the answers one by one. *)
Ltac by_cases order :=
  unfold Server.attempt, Server.outcome, Server.processOrder,
    Server.markPrinted, Server.finallyBlock, Js.truthy;
  destruct (Order.orderType order =? CONFIG.ORDER_TYPES.TAKE_OUT)%string eqn:ETakeOut;
  destruct (Order.printId order) as [printId|] eqn:EprintId;
  try destruct (negb (printId =? "")%string) eqn:Etruthy;
  simpl; repeat (next_answer; simpl).

End Tactics.


(** ** To-go items: the rest of src/orderItems.js and src/printer.js *)

Module Togo.
Import CONFIG Printer.
Section WithRuntime.
Context {rt : Runtime}.

(** A number that is falsy: [0], [-0] or [NaN]. *)
Definition falsy (x : float) : bool :=
  PrimFloat.eqb x 0 || negb (PrimFloat.eqb x x).

(** [price || 0] *)
Definition priceOrZero (price : option float) : float :=
  match price with
  | Some x => if falsy x then 0%float else x
  | None => 0%float
  end.

(** [item.quantity || 1] *)
Definition quantityOrOne (quantity : option Z) : float :=
  match quantity with
  | Some q => if q =? 0 then 1%float else ofInteger q
  | None => 1%float
  end.

(** [getTogoItems(items)] of the single-file server (src/unnamed/part_000) *)
Definition getTogoItems (items : list order_item) : list order_item :=
  List.filter (fun item => Item.togo item && negb (Item.appetizer item)) items.

(** [prices.reduce((t, x) => t + (x.price || 0), 0)] *)
Definition sumPrices {A} (price : A -> option float) (xs : list A) : float :=
  fold_left (fun total x => (total + priceOrZero (price x))%float) xs 0%float.

(** The callback of the outer [reduce] in [calculateTogoTotal], without
    the running total: the value of [itemTotal] at its end. Each [+=] is
    guarded by [length > 0]. *)
Definition itemTotal (item : order_item) : float :=
  let itemTotal :=
    (priceOrZero (Item.price item) * quantityOrOne (Item.quantity item))%float in
  let itemTotal :=
    match Item.options item with
    | Some ((_ :: _) as options) => (itemTotal + sumPrices Opt.price options)%float
    | _ => itemTotal
    end in
  let itemTotal :=
    match Item.extras item with
    | (_ :: _) as extras => (itemTotal + sumPrices Extra.price extras)%float
    | [] => itemTotal
    end in
  let itemTotal :=
    match Item.changes item with
    | (_ :: _) as changes => (itemTotal + sumPrices Change.price changes)%float
    | [] => itemTotal
    end in
  itemTotal.

(** [calculateTogoTotal(togoItems)]; [None] is a value that is no array. *)
Definition calculateTogoTotal (togoItems : option (list order_item)) : float :=
  match togoItems with
  | None | Some [] => 0%float
  | Some togoItems =>
      fold_left (fun total item => (total + itemTotal item)%float) togoItems 0%float
  end.

(** [printTogoTicket(printer, order, togoItems)]: the calls made on the
    printer. It neither cuts nor executes. *)
Definition printTogoTicket (order : Order.t) (togoItems : list order_item)
    : list command :=
  [ alignCenter; setTextQuadArea; bold true; println RESTAURANT.name; newLine ]
  ++ (match Order.tableNumber order with
      | Some tableNumber =>
          if Js.truthy (Some tableNumber)
          then [ setTextSize 2 2; bold false;
                 println ("TO GO: " +:+ tableNumber); newLine ]
          else []
      | None => []
      end)
  ++ [ setTextNormal; println separator; alignLeft ]
  ++ concat (map printOrderItem togoItems)
  ++ [ println separator; alignRight ]
  ++ (let togoSubtotal := calculateTogoTotal (Some togoItems) in
      let r := OrderItems.getOrderTotals order (Some togoSubtotal) in
      [ bold false;
        println ("Subtotal: $" +:+ toFixed2 (Totals.subtotal r));
        println ("PST (6%): $" +:+ toFixed2 (Totals.pst r));
        println ("GST (5%): $" +:+ toFixed2 (Totals.gst r));
        println "----------------------------";
        setTextQuadArea;
        println ("TOTAL: $" +:+ toFixed2 (Totals.grandTotal r));
        setTextNormal; newLine; newLine ]).

End WithRuntime.
End Togo.

(** ** The USB printer lookup of src/unnamed/part_000 (the printer module
    that prints over USB on Windows) *)

Module Usb.

(** The properties [detectUSBPrinter] reads off a device that
    [findPrinter] lists; [None] is a property that is absent. Ids are
    numbers. *)
Module Device.
Record t := mk {
  deviceDescriptor_idVendor : option Z;
  idVendor : option Z;
  vendorId : option Z;
  vid : option Z;
  deviceDescriptor_idProduct : option Z;
  idProduct : option Z;
  productId : option Z;
  pid : option Z
}.
End Device.

(** The object literal [{ vid, pid }] the function returns. *)
Module Ids.
Record t := mk { vid : Z; pid : Z }.
End Ids.

Definition FALLBACK_VID : Z := 0x0483.
Definition FALLBACK_PID : Z := 0x5743.

(** What the call [escpos.USB.findPrinter()] does: it throws, it returns a
    falsy value, or it returns an array of devices. *)
Inductive findPrinter :=
| Throws
| ReturnsNothing
| Returns (printers : list Device.t).

(** [a || b] on optional numbers: [a] when it is truthy, else [b]. *)
Definition or_else (a b : option Z) : option Z :=
  match a with
  | Some x => if x =? 0 then b else a
  | None => b
  end.

(** The callback handed to [printers.map]: the ids of a device when both
    are truthy, else [null] ([None]). *)
Definition printerInfoOf (printer : Device.t) : option Ids.t :=
  let vid :=
    or_else (Device.deviceDescriptor_idVendor printer)
      (or_else (Device.idVendor printer)
         (or_else (Device.vendorId printer) (Device.vid printer))) in
  let pid :=
    or_else (Device.deviceDescriptor_idProduct printer)
      (or_else (Device.idProduct printer)
         (or_else (Device.productId printer) (Device.pid printer))) in
  match vid, pid with
  | Some vid, Some pid =>
      if negb (vid =? 0) && negb (pid =? 0) then Some (Ids.mk vid pid) else None
  | _, _ => None
  end.

(** [detectUSBPrinter()], as a function of the platform and of what
    [findPrinter] does: the ids returned, or [None] when it throws (off
    Windows). The console lines are left out. *)
Definition detectUSBPrinter (IS_WINDOWS : bool) (found : findPrinter)
    : option Ids.t :=
  if negb IS_WINDOWS then None
  else
    let fallback := Ids.mk FALLBACK_VID FALLBACK_PID in
    match found with
    | Throws | ReturnsNothing | Returns [] => Some fallback
    | Returns printers =>
        let printerInfo := omap printerInfoOf printers in
        match printerInfo with
        | [] => Some fallback
        | selected :: _ => Some selected
        end
    end.

End Usb.

(** ** The printer module of src/unnamed/part_000 that prints over USB on
    Windows and through the device file elsewhere *)

Module PlatformPrinter.
Import CONFIG Printer.
Section WithRuntime.
Context {rt : Runtime}.

(** The section printers that differ from those of src/printer.js; the
    others ([printSectionHeader], [printRestaurantHeader], [printTotals],
    [printFooter], and the lines for extras and changes) are the same. *)

Definition printOrderTypeHeader (order : Order.t) (kitchen : string) : list command :=
  [ setTextSize 2 2; bold false ]
  ++ (if (Order.orderType order =? ORDER_TYPES.TAKE_OUT)%string
         && negb (Order.isPreorder order)
      then [ println ("*Take Out " +:+ kitchen +:+ "*"); newLine ]
      else match Order.tableNumber order with
           | Some tableNumber =>
               if Js.truthy (Some tableNumber)
               then [ println ("Table: " +:+ tableNumber); newLine ]
               else []
           | None => []
           end).

Definition printPreorderInfo (order : Order.t) (kitchen : string) : list command :=
  if negb (Order.isPreorder order) then []
  else
    [ setTextQuadArea; println ("***Pre-Order " +:+ kitchen +:+ "***") ]
    ++ (match Utils.toDateMaybe (Order.preorderTime order) with
        | Some preorderDate =>
            [ println (formatDate (Some preorderDate)
                         [("year", "numeric"); ("month", "short"); ("day", "numeric")]);
              println (formatDate (Some preorderDate)
                         [("weekday", "short"); ("hour", "2-digit");
                          ("minute", "2-digit"); ("hour12", "true")]);
              newLine ]
        | None => [ newLine; newLine ]
        end)
    ++ [ setTextNormal ].

Definition printOrderDetails (order : Order.t) : list command :=
  [ setTextNormal; alignLeft ]
  ++ (match Order.staffName order with
      | Some staffName =>
          if Js.truthy (Some staffName) then [ println ("Staff: " +:+ staffName) ] else []
      | None => []
      end)
  ++ (match Order.guests order with
      | Some guests =>
          if (Order.orderType order =? ORDER_TYPES.DINE_IN)%string && negb (guests =? 0)
          then [ println ("Guests: " +:+ pretty guests) ]
          else []
      | None => []
      end)
  ++ (match Order.createdAt order with
      | Some createdAt =>
          let orderDate := Utils.toDateMaybe (Some createdAt) in
          let timeString :=
            formatDate orderDate
              [("month", "short"); ("day", "numeric"); ("year", "numeric");
               ("hour", "2-digit"); ("minute", "2-digit"); ("hour12", "true")] in
          [ println ("Ordered At: " +:+ timeString) ]
      | None => []
      end)
  ++ (match Order.readyTime order with
      | Some readyTime =>
          if negb (Order.isPreorder order) && negb (readyTime =? 0)
             && negb (Order.orderType order =? ORDER_TYPES.DINE_IN)%string
          then [ println ("Ready in: " +:+ pretty readyTime +:+ " mins") ]
          else []
      | None => []
      end)
  ++ [ setTextQuadArea; bold false ]
  ++ (if (Order.orderType order =? ORDER_TYPES.TAKE_OUT)%string
      then
        (match Order.name order with
         | Some name =>
             if Js.truthy (Some name)
             then [ println ("Name: " +:+ toUpperCase name) ] else []
         | None => []
         end)
        ++ (if Js.truthy (Order.phoneNumber order)
            then [ println ("Phone #: " +:+ Utils.formatPhone (Order.phoneNumber order)) ]
            else [])
      else [])
  ++ [ setTextNormal; println separator ].

Definition printOption (opt : Opt.t) : list command :=
  let optName :=
    match Opt.quantity opt with
    | Some q => if 1 <? q then pretty q +:+ "x " +:+ Opt.name opt else Opt.name opt
    | None => Opt.name opt
    end in
  let optPrice :=
    match Opt.price opt with
    | Some price =>
        if PrimFloat.ltb 0 price
        then quantityText (Opt.quantity opt) +:+ "x " +:+ toFixed2 price
        else ""
    | None => ""
    end in
  [ leftRight ("   • " +:+ optName) optPrice ].

Definition printOrderItem (item : order_item) : list command :=
  let itemTotal :=
    toFixed2 (default nan (Item.price item)
              * match Item.quantity item with
                | Some q => ofInteger q
                | None => nan
                end)%float in
  [ alignLeft; bold true; setTextQuadArea;
    println (default "undefined" (Item.displayName item));
    setTextNormal; bold true ]
  ++ concat (map printOption (OrderItems.elements item))
  ++ concat (map printExtra (Item.extras item))
  ++ concat (map printChange (Item.changes item))
  ++ (match Item.instructions item with
      | Some instructions =>
          if Js.truthy (Some instructions)
          then [ println (toUpperCase
                            ("   * Note: " +:+ dquote +:+ instructions +:+ dquote)) ]
          else []
      | None => []
      end)
  ++ [ alignRight; setTextNormal; bold true;
       println (if PrimFloat.ltb 0 (toNumber itemTotal)
                then "$" +:+ itemTotal else "");
       setTextNormal ].

Definition printSection (section : Sect.t) : list command :=
  (if (Sect.label section =? "Togo Items")%string
   then printSectionHeader "TO GO"
   else if (Sect.label section =? "Appetizers")%string
        then printSectionHeader "Appetizers"
        else [])
  ++ concat (map printOrderItem (Sect.items section))
  ++ (if (Sect.label section =? "Appetizers")%string
      then [ setTextNormal; alignLeft; bold true; println separator ]
      else []).

Definition printOrderItems (groupedSections : list Sect.t) : list command :=
  concat (map printSection groupedSections).

(** The calls [printOrder] and its two transports make: methods of the
    [ThermalPrinter], among them [getBuffer], and the constructor and
    methods of the [escpos.USB] device. *)
Inductive call :=
| onPrinter (c : command)
| getBuffer
| newUSB (vid pid : Z)
| usbOpen
| usbWrite
| usbClose.

(** The call that releases the USB device. *)
Definition is_usbClose (c : call) : bool :=
  match c with
  | usbClose => true
  | _ => false
  end.

(** The platform and what the printer and the USB device answer: the
    promises of [isPrinterConnected()], [execute()] and [getBuffer()], what
    [findPrinter] does, whether the [escpos.USB] constructor returns, and
    whether the callbacks of [open] and [write] are called without an
    error. *)
Record environment := {
  IS_WINDOWS : bool;
  probe : Js.settled;
  flush : Js.settled;
  buffer : Js.settled;
  found : Usb.findPrinter;
  constructs : bool;
  opens : bool;
  writes : bool
}.

(** [printViaUSB(printer)]: the calls made and whether the promise is
    fulfilled. A throw in the promise executor rejects the promise. *)
Definition printViaUSB (env : environment) : list call * bool :=
  match buffer env with
  | Js.Rejected => ([ getBuffer ], false)
  | Js.Fulfilled _ =>
      match Usb.detectUSBPrinter (IS_WINDOWS env) (found env) with
      | None => ([ getBuffer ], false)
      | Some ids =>
          let VID := Usb.Ids.vid ids in
          let PID := Usb.Ids.pid ids in
          if negb (constructs env) then ([ getBuffer; newUSB VID PID ], false)
          else if negb (opens env)
               then ([ getBuffer; newUSB VID PID; usbOpen ], false)
               else if negb (writes env)
                    then ([ getBuffer; newUSB VID PID; usbOpen; usbWrite; usbClose ],
                          false)
                    else ([ getBuffer; newUSB VID PID; usbOpen; usbWrite; usbClose ],
                          true)
      end
  end.

(** [printViaDirectInterface(printer)] *)
Definition printViaDirectInterface (env : environment) : list call * bool :=
  match probe env with
  | Js.Rejected | Js.Fulfilled false => ([ onPrinter isPrinterConnected ], false)
  | Js.Fulfilled true =>
      match flush env with
      | Js.Fulfilled _ =>
          ([ onPrinter isPrinterConnected; onPrinter execute ], true)
      | Js.Rejected =>
          ([ onPrinter isPrinterConnected; onPrinter execute ], false)
      end
  end.

(** [printOrder(order, kitchen)]: the calls made, in order, and whether
    the function returns (it throws otherwise). *)
Definition printOrder (env : environment) (order : Order.t) (kitchen : string)
    : list call * bool :=
  let processedItems := OrderItems.preprocessOrderItems (Order.orderItems order) in
  let groupedSections := OrderItems.groupItemsByKitchen processedItems false in
  let formatted :=
    printRestaurantHeader order
    ++ printOrderTypeHeader order kitchen
    ++ printPreorderInfo order kitchen
    ++ printOrderDetails order
    ++ printOrderItems groupedSections
    ++ printTotals order
    ++ printFooter order kitchen
    ++ [ cut ] in
  let '(calls, returned) :=
    if IS_WINDOWS env then printViaUSB env else printViaDirectInterface env in
  (map onPrinter formatted ++ calls, returned).

End WithRuntime.
End PlatformPrinter.

(** ** More vocabulary *)

Module Tickets.
Import Printer.

(** A command that formats the ticket: neither the connectivity query nor
    the cut nor the execute. *)
Definition is_formatting (c : command) : bool :=
  match c with
  | isPrinterConnected | cut | execute => false
  | _ => true
  end.

(** The order with other items. *)
Definition withItems (orderItems : option (list order_item)) (o : Order.t)
    : Order.t :=
  Order.mk (Order.id o) (Order.orderType o) (Order.isPreorder o)
    (Order.tableNumber o) (Order.name o) (Order.phoneNumber o) (Order.guests o)
    (Order.staffName o) (Order.createdAt o) (Order.preorderTime o)
    (Order.readyTime o) (Order.paid o) orderItems (Order.total o)
    (Order.taxBreakDown o) (Order.taxbreakdown o) (Order.printId o).

(** What the worker deletes for a job: its queue id when it is truthy. *)
Definition queueEntry (order : Order.t) : option string :=
  if Js.truthy (Order.printId order) then Order.printId order else None.

(** The destination tags [processQueue] prints a job for, in its order:
    [[B, A]] for a take-out order, the empty tag for any other. *)
Definition kitchensOf (order : Order.t) : list string :=
  if (Order.orderType order =? CONFIG.ORDER_TYPES.TAKE_OUT)%string
  then [ CONFIG.KITCHEN_TYPES.B; CONFIG.KITCHEN_TYPES.A ]
  else [ "" ].

(** The [printOrder] calls in a trace, each with the job it was made for. *)
Definition printCalls (es : list Server.event) : list (Order.t * string) :=
  omap (fun e => match e with
                 | Server.Called (Server.PrintOrder order kitchen) =>
                     Some (order, kitchen)
                 | _ => None
                 end) es.

(** The range of JavaScript dates, in seconds either side of the epoch:
    a date is valid up to 8.64e15 milliseconds from it. *)
Definition MAX_DATE_SECONDS : Z := 8640000000000.

End Tickets.

Module SampleMore.
(** A machine that is not Windows and whose printer is not connected. *)
Definition offline : PlatformPrinter.environment :=
  {| PlatformPrinter.IS_WINDOWS := false;
     PlatformPrinter.probe := Js.Fulfilled false;
     PlatformPrinter.flush := Js.Rejected;
     PlatformPrinter.buffer := Js.Rejected;
     PlatformPrinter.found := Usb.Throws;
     PlatformPrinter.constructs := false;
     PlatformPrinter.opens := false;
     PlatformPrinter.writes := false |}.

(** A Windows machine on which no USB printer is listed and the device
    with the fallback ids opens and takes the data. *)
Definition windows : PlatformPrinter.environment :=
  {| PlatformPrinter.IS_WINDOWS := true;
     PlatformPrinter.probe := Js.Rejected;
     PlatformPrinter.flush := Js.Rejected;
     PlatformPrinter.buffer := Js.Fulfilled true;
     PlatformPrinter.found := Usb.Returns [];
     PlatformPrinter.constructs := true;
     PlatformPrinter.opens := true;
     PlatformPrinter.writes := true |}.
End SampleMore.
(* ===================================================================== *)
(** * Part II: theorems                                                   *)
(* ===================================================================== *)

(** ** Strings and [formatPhone] *)

Section StringFacts.

Lemma length_list_ascii (s : string) :
  length (list_ascii_of_string s) = String.length s.
Proof. induction s as [|c s IH]; simpl; [reflexivity | now rewrite IH]. Qed.

Lemma length_of_list_ascii (l : list ascii) :
  String.length (string_of_list_ascii l) = length l.
Proof. induction l as [|c l IH]; simpl; [reflexivity | now rewrite IH]. Qed.

Lemma of_list_ascii_app (l1 l2 : list ascii) :
  string_of_list_ascii (l1 ++ l2)
  = string_of_list_ascii l1 +:+ string_of_list_ascii l2.
Proof. induction l1 as [|c l1 IH]; simpl; [reflexivity | now rewrite IH]. Qed.

(** A slice with a negative start and a non-positive distance from the end,
    on a string long enough for both, as a take of a drop. *)
Lemma slice_from_end (s : string) (a b : nat) :
  (0 < a)%nat -> (b <= a <= String.length s)%nat ->
  Js.slice s (- Z.of_nat a)
    (if (b =? 0)%nat then None else Some (- Z.of_nat b))
  = string_of_list_ascii
      (take (a - b) (drop (String.length s - a) (list_ascii_of_string s))).
Proof.
  intros H0 H. unfold Js.slice, Js.clamp_index, Js.len.
  assert (Hfrom : Z.to_nat
            (if - Z.of_nat a <? 0
             then Z.max (Z.of_nat (String.length s) + - Z.of_nat a) 0
             else Z.min (- Z.of_nat a) (Z.of_nat (String.length s)))
          = (String.length s - a)%nat).
  { destruct (Z.ltb_spec (- Z.of_nat a) 0); lia. }
  f_equal. rewrite Hfrom. f_equal.
  destruct (Nat.eqb_spec b 0) as [->|Hb].
  - destruct (Z.ltb_spec (- Z.of_nat a) 0); lia.
  - destruct (Z.ltb_spec (- Z.of_nat b) 0); destruct (Z.ltb_spec (- Z.of_nat a) 0); lia.
Qed.

(** A slice from the start up to a negative end. *)
Lemma slice_prefix (s : string) (a : nat) :
  (0 < a <= String.length s)%nat ->
  Js.slice s 0 (Some (- Z.of_nat a))
  = string_of_list_ascii (take (String.length s - a) (list_ascii_of_string s)).
Proof.
  intros H. unfold Js.slice, Js.clamp_index, Js.len.
  change (0 <? 0) with false. cbv iota.
  destruct (Z.ltb_spec (- Z.of_nat a) 0); [|lia].
  rewrite Z.min_l by lia. simpl (Z.to_nat 0). rewrite drop_0.
  f_equal. f_equal. lia.
Qed.

(** With fewer characters than asked for, the slices clamp: the prefix is
    empty and the suffix is the whole string. *)
Lemma slice_short (s : string) (a : nat) :
  (0 < a)%nat -> (String.length s <= a)%nat ->
  Js.slice s 0 (Some (- Z.of_nat a)) = ""
  /\ Js.slice s (- Z.of_nat a) None = s.
Proof.
  intros H0 H. unfold Js.slice, Js.clamp_index, Js.len.
  change (0 <? 0) with false. cbv iota.
  destruct (Z.ltb_spec (- Z.of_nat a) 0); [|lia].
  split.
  - replace (Z.to_nat _) with 0%nat by lia. reflexivity.
  - replace (Z.to_nat (Z.max _ 0)) with 0%nat by lia. rewrite drop_0.
    rewrite take_ge by (rewrite length_list_ascii; lia).
    apply string_of_list_ascii_of_string.
Qed.

End StringFacts.

Section FormatPhone.

(** What [replace(/\D/g, "")] leaves: the digits of the input, in order. *)
Lemma strip_non_digits_chars (s : string) :
  list_ascii_of_string (Js.strip_non_digits s)
  = List.filter Js.is_digit (list_ascii_of_string s).
Proof. unfold Js.strip_non_digits. apply list_ascii_of_string_of_list_ascii. Qed.

(** The character class of [strip_non_digits]: the ten digits. *)
Lemma is_digit_spec (c : ascii) :
  Js.is_digit c = true <-> In c (list_ascii_of_string "0123456789").
Proof.
  destruct c as [[] [] [] [] [] [] [] []]; vm_compute;
    (split;
     [ first [ discriminate
             | intros _; repeat first [ left; reflexivity | right ] ]
     | first [ reflexivity
             | intros H; repeat (destruct H as [H|H]; [discriminate H|]);
               destruct H ] ]).
Qed.

(** C10. [formatPhone] is a total function. For [null] and for the empty
    string it returns the empty string. Otherwise it strips every
    non-digit: the digits it works with are the characters of the input
    that are among 0 to 9, all of them and in their order. With more than
    seven digits left it returns the leading digits, a space, the next
    three digits, a hyphen and the last four digits; with seven or fewer
    it returns the digits with a hyphen before the last four (before all
    of them when there are fewer than four). *)
Theorem formatPhone_spec (phone : option string) :
  match phone with
  | None | Some "" => Utils.formatPhone phone = ""
  | Some p =>
      let digits := Js.strip_non_digits p in
      list_ascii_of_string digits
      = List.filter Js.is_digit (list_ascii_of_string p)
      /\ (forall c, Js.is_digit c = true
                    <-> In c (list_ascii_of_string "0123456789"))
      /\ if 7 <? Js.len digits then
        exists area mid last4 : string,
          digits = area +:+ mid +:+ last4
          /\ Js.len mid = 3 /\ Js.len last4 = 4
          /\ Utils.formatPhone phone = area +:+ " " +:+ mid +:+ "-" +:+ last4
      else
        exists front last4 : string,
          digits = front +:+ last4
          /\ Js.len last4 = Z.min 4 (Js.len digits)
          /\ Utils.formatPhone phone = front +:+ "-" +:+ last4
  end.
Proof.
  destruct phone as [[|c p]|]; [reflexivity| |reflexivity].
  cbv zeta.
  split; [apply strip_non_digits_chars|]. split; [apply is_digit_spec|].
  unfold Utils.formatPhone.
  set (digits := Js.strip_non_digits (String c p)).
  set (cs := list_ascii_of_string digits).
  assert (Hd : digits = string_of_list_ascii cs)
    by (symmetry; apply string_of_list_ascii_of_string).
  assert (Hn : String.length digits = length cs)
    by (symmetry; apply length_list_ascii).
  unfold Js.len. destruct (Z.ltb_spec 7 (Z.of_nat (String.length digits))) as [Hlt|Hle].
  - exists (Js.slice digits 0 (Some (-7))), (Js.slice digits (-7) (Some (-4))),
      (Js.slice digits (-4) None).
    change (Js.slice digits 0 (Some (-7)))
      with (Js.slice digits 0 (Some (- Z.of_nat 7))).
    change (Js.slice digits (-7) (Some (-4)))
      with (Js.slice digits (- Z.of_nat 7)
              (if (4 =? 0)%nat then None else Some (- Z.of_nat 4))).
    change (Js.slice digits (-4) None)
      with (Js.slice digits (- Z.of_nat 4)
              (if (0 =? 0)%nat then None else Some (- Z.of_nat 0))).
    rewrite (slice_prefix digits 7) by lia.
    rewrite (slice_from_end digits 7 4) by lia.
    rewrite (slice_from_end digits 4 0) by lia.
    fold cs. rewrite !length_of_list_ascii, <- !of_list_ascii_app.
    rewrite !length_take, !length_drop, Hn.
    repeat split; try lia.
    rewrite Hd at 1. f_equal.
    rewrite <- (take_drop (length cs - 7) cs) at 1. f_equal.
    rewrite <- (take_drop 3 (drop (length cs - 7) cs)) at 1. f_equal.
    rewrite drop_drop. rewrite take_ge by (rewrite length_drop; lia).
    f_equal. lia.
  - exists (Js.slice digits 0 (Some (-4))), (Js.slice digits (-4) None).
    destruct (Nat.le_gt_cases (String.length digits) 4) as [Hs|Hs].
    + destruct (slice_short digits 4 ltac:(lia) Hs) as [E1 E2].
      change (- Z.of_nat 4) with (-4) in E1, E2. rewrite E1, E2.
      repeat split; lia.
    + change (Js.slice digits 0 (Some (-4)))
        with (Js.slice digits 0 (Some (- Z.of_nat 4))).
      change (Js.slice digits (-4) None)
        with (Js.slice digits (- Z.of_nat 4)
                (if (0 =? 0)%nat then None else Some (- Z.of_nat 0))).
      rewrite (slice_prefix digits 4) by lia.
      rewrite (slice_from_end digits 4 0) by lia.
      fold cs. rewrite !length_of_list_ascii, <- !of_list_ascii_app.
      rewrite !length_take, !length_drop, Hn.
      repeat split; try lia.
      rewrite Hd at 1. f_equal.
      rewrite (take_ge (drop _ _)) by (rewrite length_drop; lia).
      symmetry. apply take_drop.
Qed.

(** The phone number of the end-to-end scenario. *)
Example formatPhone_ten_digits :
  Utils.formatPhone (Some "3067647799") = "306 764-7799"
  /\ Utils.formatPhone (Some "(306) 764-7799") = "306 764-7799"
  /\ Utils.formatPhone (Some "764 7799") = "764-7799"
  /\ Utils.formatPhone (Some "12") = "-12"
  /\ Utils.formatPhone (Some "n/a") = "-".
Proof. repeat split; reflexivity. Qed.

End FormatPhone.

(** ** [preprocessOrderItem] on the special item *)

Section Preprocess.
Import OrderItems.

Lemma eqb_ne (a b : string) : a <> b -> (a =? b)%string = false.
Proof. apply String.eqb_neq. Qed.

(** Without options the name is kept and only the display name is set. *)
Lemma preprocessOrderItem_no_options (item : order_item) :
  Item.options item = None \/ Item.options item = Some [] ->
  preprocessOrderItem item = Item.set_displayName (displayNameOf item) item.
Proof. intros [H|H]; unfold preprocessOrderItem; rewrite H; reflexivity. Qed.

(** C6. An item named "#3" whose options are an egg roll (no quantity)
    followed by one other option that is neither the egg-roll nor the
    spring-roll label (such as "Fried Rice") comes out with the name
    "#3/<that option>/ER" and no option left: the special-item rule takes
    the other option, and the egg-roll rule, scanning what is left, takes
    the egg roll. *)
Theorem special_item_main_then_egg_roll
    (item : order_item) (eggRoll mainOption : Opt.t) :
  Item.name item = "#3" ->
  Item.options item = Some [eggRoll; mainOption] ->
  Opt.name eggRoll = "Egg Roll" ->
  Opt.quantity eggRoll = None ->
  Opt.ref eggRoll <> Opt.ref mainOption ->
  Opt.name mainOption <> "Egg Roll" ->
  Opt.name mainOption <> "Spring Roll" ->
  let processed := preprocessOrderItem item in
  Item.name processed = "#3/" +:+ Opt.name mainOption +:+ "/ER"
  /\ Item.options processed = Some [].
Proof.
  intros Hname Hopts Hegg Hq Href H1 H2.
  destruct item as [name q price kt app togo opts extras changes instr dn].
  destruct eggRoll as [r1 n1 q1 p1], mainOption as [r2 n2 q2 p2].
  simpl in *. subst.
  assert (Hr12 : (r1 =? r2)%nat = false) by (apply Nat.eqb_neq; exact Href).
  assert (Hr22 : (r2 =? r2)%nat = true) by (apply Nat.eqb_refl).
  assert (Hr11 : (r1 =? r1)%nat = true) by (apply Nat.eqb_refl).
  unfold preprocessOrderItem, consume, elements, isMainOption,
    isEggSpringOption, isRiceNoodleOption, same_object, mainSuffix,
    eggSpringSuffix; simpl.
  cbv [CONFIG.OPTION_NAMES.EGG_ROLL CONFIG.OPTION_NAMES.SPRING_ROLL
       CONFIG.OPTION_NAMES.RICE CONFIG.OPTION_NAMES.NOODLES].
  rewrite (eqb_ne _ _ H1), (eqb_ne _ _ H2); simpl.
  rewrite Hr12, Hr22; simpl. rewrite Hr11; simpl.
  split; reflexivity.
Qed.

Lemma special_item_main_then_egg_roll_witness :
  let processed := preprocessOrderItem Sample.number3 in
  Item.name processed = "#3/Fried Rice/ER"
  /\ Item.options processed = Some [].
Proof.
  apply (special_item_main_then_egg_roll
           Sample.number3 Sample.eggRoll Sample.friedRice);
    first [ reflexivity | discriminate ].
Defined.

(** The same item, evaluated: the display name follows the new name. *)
Example number3_processed :
  preprocessOrderItem Sample.number3
  = Item.set_displayName "#3/Fried Rice/ER"
      (Item.set_options (Some []) (Item.set_name "#3/Fried Rice/ER" Sample.number3)).
Proof. reflexivity. Qed.

End Preprocess.

(** ** [groupItemsByKitchen] *)

Section GroupItems.
Import OrderItems Grouping Tactics.

Lemma group_as_candidates (items : list order_item) :
  groupItemsByKitchen items false = List.filter nonEmpty (candidates items).
Proof. reflexivity. Qed.

Lemma concat_drop_empty (sections : list Sect.t) :
  concat (map Sect.items (List.filter nonEmpty sections))
  = concat (map Sect.items sections).
Proof.
  induction sections as [|s ss IH]; [reflexivity|].
  simpl. unfold nonEmpty at 1. destruct (Sect.items s) eqn:E; simpl.
  - exact IH.
  - rewrite E, IH. reflexivity.
Qed.

(** The six candidate sections hold the routed items, each once. *)
Lemma candidates_cover (items : list order_item) :
  concat (map Sect.items (candidates items)) ≡ₚ List.filter routed items.
Proof.
  unfold candidates. simpl. rewrite app_nil_r.
  induction items as [|item items IH]; [reflexivity|].
  cbn [List.filter].
  cbv [CONFIG.KITCHEN_TYPES.A CONFIG.KITCHEN_TYPES.B CONFIG.KITCHEN_TYPES.C
       CONFIG.KITCHEN_TYPES.Z] in *.
  case_kitchen item;
    rewrite <- ?Permutation_middle; rewrite ?IH; reflexivity.
Qed.

(** Whatever section holds an item, it is the item's destination. *)
Lemma candidate_destination (items : list order_item) (s : Sect.t) (x : order_item) :
  In s (candidates items) -> In x (Sect.items s) ->
  destination x = Some (Sect.label s).
Proof.
  unfold candidates. simpl.
  cbv [CONFIG.KITCHEN_TYPES.A CONFIG.KITCHEN_TYPES.B CONFIG.KITCHEN_TYPES.C
       CONFIG.KITCHEN_TYPES.Z].
  intros Hs Hx.
  repeat (destruct Hs as [<-|Hs]); try contradiction;
    simpl in Hx; apply filter_In in Hx; destruct Hx as [_ Hx];
    revert Hx; unfold destination; case_kitchen x; congruence.
Qed.

Lemma map_filter_sublist {A B} (f : A -> B) (p : A -> bool) (l : list A) :
  sublist (map f (List.filter p l)) (map f l).
Proof.
  induction l as [|a l IH]; simpl; [constructor|].
  destruct (p a); simpl; by constructor.
Qed.

Lemma labels_sublist (items : list order_item) (excludeTogo : bool) :
  sublist (map Sect.label (groupItemsByKitchen items excludeTogo)) sectionLabels.
Proof.
  unfold groupItemsByKitchen. cbv zeta.
  etransitivity; [apply map_filter_sublist|].
  destruct excludeTogo; simpl; unfold sectionLabels.
  - repeat apply sublist_skip. apply sublist_cons. constructor.
  - reflexivity.
Qed.

Lemma sections_non_empty (items : list order_item) (excludeTogo : bool) :
  Forall (fun s => Sect.items s <> []) (groupItemsByKitchen items excludeTogo).
Proof.
  unfold groupItemsByKitchen. cbv zeta.
  apply Forall_forall. intros s Hs. apply list_elem_of_In, filter_In in Hs.
  destruct Hs as [_ Hs]. destruct (Sect.items s); [discriminate Hs | discriminate].
Qed.

Lemma sectionLabels_NoDup : NoDup sectionLabels.
Proof.
  unfold sectionLabels.
  repeat (apply NoDup_cons; split;
          [rewrite ?elem_of_cons, elem_of_nil; intuition discriminate|]).
  apply NoDup_nil_2.
Qed.

Lemma sections_exclusive (items : list order_item)
    (i j : nat) (s1 s2 : Sect.t) (x : order_item) :
  groupItemsByKitchen items false !! i = Some s1 ->
  groupItemsByKitchen items false !! j = Some s2 ->
  In x (Sect.items s1) -> In x (Sect.items s2) -> i = j.
Proof.
  intros H1 H2 Hx1 Hx2.
  assert (Hin : forall k s, groupItemsByKitchen items false !! k = Some s ->
                            In s (candidates items)).
  { intros k s Hk. rewrite group_as_candidates in Hk.
    apply list_elem_of_lookup_2, list_elem_of_In, filter_In in Hk. tauto. }
  pose proof (candidate_destination _ _ _ (Hin _ _ H1) Hx1) as D1.
  pose proof (candidate_destination _ _ _ (Hin _ _ H2) Hx2) as D2.
  assert (Hl : Sect.label s1 = Sect.label s2) by congruence.
  assert (ND : NoDup (map Sect.label (groupItemsByKitchen items false))).
  { eapply sublist_NoDup; [apply sectionLabels_NoDup | apply labels_sublist]. }
  eapply NoDup_lookup; [exact ND | |].
  - rewrite list_lookup_fmap, H1. reflexivity.
  - rewrite list_lookup_fmap, H2. simpl. by rewrite Hl.
Qed.

(** A normalized item carries one of the four kitchen types, so some
    section accepts it, whatever its flags. *)
Lemma normalized_routed (item : order_item) (kitchenType : string) :
  Item.kitchenType item = Some kitchenType ->
  In kitchenType [ "A"; "B"; "C"; "Z" ] ->
  routed item = true.
Proof.
  intros Hk Hin. unfold routed, kitchenTypeIs. rewrite Hk. cbn [existsb].
  destruct Hin as [<-|[<-|[<-|[<-|[]]]]]; cbn;
    by rewrite ?orb_true_r.
Qed.

(** C5. For every list of normalized items (items that carry one of the
    kitchen types A, Z, B, C; more generally, items each of which is
    flagged appetizer, flagged togo or carries one of these kitchen
    types), with togo items not excluded, the sections returned hold
    exactly the items given (each once), no item is in two sections, the
    labels come in the order Appetizers, Kitchen A, Kitchen Z, Kitchen B,
    Kitchen C, Togo Items, and no section is empty. *)
Theorem groupItemsByKitchen_partitions (items : list order_item) :
  Forall (fun item => routed item = true) items ->
  let sections := groupItemsByKitchen items false in
  concat (map Sect.items sections) ≡ₚ items
  /\ (forall i j s1 s2 x,
        sections !! i = Some s1 -> sections !! j = Some s2 ->
        In x (Sect.items s1) -> In x (Sect.items s2) -> i = j)
  /\ sublist (map Sect.label sections) sectionLabels
  /\ Forall (fun s => Sect.items s <> []) sections.
Proof.
  intros Hr sections. subst sections. repeat split.
  - rewrite group_as_candidates, concat_drop_empty, candidates_cover.
    clear -Hr. induction Hr as [|x l Hx _ IH]; [reflexivity|].
    simpl. rewrite Hx, IH. reflexivity.
  - intros i j s1 s2 x. apply sections_exclusive.
  - apply labels_sublist.
  - apply sections_non_empty.
Qed.

Lemma groupItemsByKitchen_partitions_witness :
  let items := [ Sample.spring "B" false; Sample.spring "A" true;
                 Sample.spring "A" false ] in
  let sections := groupItemsByKitchen items false in
  map Sect.label sections = [ "Kitchen A"; "Kitchen B"; "Togo Items" ]
  /\ concat (map Sect.items sections) ≡ₚ items.
Proof.
  split; [reflexivity|].
  apply (groupItemsByKitchen_partitions
           [ Sample.spring "B" false; Sample.spring "A" true;
             Sample.spring "A" false ]).
  repeat constructor.
Defined.

(** Outside the normalized items: an item that is neither appetizer nor
    togo and that carries no kitchen type (or one that is not among the
    four) lands in no section. *)
Lemma groupItemsByKitchen_drops_unrouted :
  groupItemsByKitchen [ Sample.strayItem ] false = []
  /\ ~ concat (map Sect.items (groupItemsByKitchen [ Sample.strayItem ] false))
       ≡ₚ [ Sample.strayItem ].
Proof.
  split; [reflexivity|].
  intros H. apply Permutation_length in H. discriminate H.
Qed.

Example groupItemsByKitchen_unknown_kitchen :
  groupItemsByKitchen [ Sample.plainItem (Some "D") ] false = [].
Proof. reflexivity. Qed.

(** With [excludeTogo] the togo items are left out as well. *)
Example groupItemsByKitchen_excludeTogo :
  groupItemsByKitchen [ Sample.spring "A" true ] true = [].
Proof. reflexivity. Qed.

End GroupItems.

(** ** [getOrderTotals] *)

Section OrderTotals.
Import OrderItems.

Lemma to_object_lookup (r : Totals.t) :
  Totals.to_object r !! "subtotal" = Some (Js.Number (Totals.subtotal r))
  /\ Totals.to_object r !! "pst" = Some (Js.Number (Totals.pst r))
  /\ Totals.to_object r !! "gst" = Some (Js.Number (Totals.gst r))
  /\ Totals.to_object r !! "grandTotal" = Some (Js.Number (Totals.grandTotal r))
  /\ Totals.to_object r !! "total" = None.
Proof. unfold Totals.to_object. repeat split; by simplify_map_eq. Qed.

(** How [getOrderTotals] reads a breakdown whose grand total is a number. *)
Lemma getOrderTotals_trusts (order : Order.t) (tb : Js.object)
    (fallbackSubtotal : option float) (g : float) :
  tb !! "grandTotal" = Some (Js.Number g) ->
  getOrderTotals (Order.set_taxBreakDown tb order) fallbackSubtotal
  = Totals.mk (numberOr (tb !! "total") (default 0%float fallbackSubtotal))
      (numberOr (tb !! "pst") 0%float) (numberOr (tb !! "gst") 0%float) g.
Proof. intros H. unfold getOrderTotals. simpl. rewrite H. reflexivity. Qed.

(** C7, as the code has it. When the record [getOrderTotals] returned is
    set as the order's [taxBreakDown], a second call reproduces its [pst],
    [gst] and [grandTotal] exactly; the subtotal is read from the property
    [total], which the record does not have, so it falls back to the
    second call's [fallbackSubtotal] (or 0). Once the returned subtotal is
    supplied under [total], the second call returns the same record. *)
Theorem getOrderTotals_round_trip (order : Order.t) (fb fb' : option float) :
  let r := getOrderTotals order fb in
  let r' := getOrderTotals (Order.set_taxBreakDown (Totals.to_object r) order) fb' in
  Totals.pst r' = Totals.pst r
  /\ Totals.gst r' = Totals.gst r
  /\ Totals.grandTotal r' = Totals.grandTotal r
  /\ Totals.subtotal r' = default 0%float fb'
  /\ getOrderTotals
       (Order.set_taxBreakDown
          (<["total" := Js.Number (Totals.subtotal r)]> (Totals.to_object r)) order)
       fb'
     = r.
Proof.
  intros r r'. subst r'. generalize r. clear r. intros r.
  destruct (to_object_lookup r) as (Hs & Hp & Hg & Hgt & Ht).
  rewrite (getOrderTotals_trusts _ _ _ _ Hgt).
  rewrite Hp, Hg, Ht. simpl. repeat split.
  rewrite (getOrderTotals_trusts _ _ _ (Totals.grandTotal r)) by by simplify_map_eq.
  rewrite lookup_insert_eq, !lookup_insert_ne, Hp, Hg by done.
  destruct r; reflexivity.
Qed.

(** C7 as stated fails: for an order with a subtotal of 10 and no
    breakdown, the first call returns the subtotal 10, and the second call,
    given that record as the breakdown, returns the subtotal 0. *)
Lemma getOrderTotals_round_trip_loses_subtotal :
  let r := getOrderTotals Sample.tenDollars None in
  let r' :=
    getOrderTotals
      (Order.set_taxBreakDown (Totals.to_object r) Sample.tenDollars) None in
  Totals.subtotal r = 10%float
  /\ Totals.subtotal r' = 0%float
  /\ Totals.grandTotal r' = Totals.grandTotal r
  /\ r' <> r.
Proof.
  repeat split.
  intros H.
  apply (f_equal (fun t => PrimFloat.eqb (Totals.subtotal t) 10)) in H.
  vm_compute in H. discriminate H.
Qed.

End OrderTotals.

(** ** [printOrder] and the connectivity check *)

Section PrintOrder.
Import Printer.
Context {rt : Runtime}.

(** The connectivity query is the first call, whatever happens next. *)
Lemma printOrder_asks_first (env : surface) (order : Order.t) (kitchen : string) :
  exists rest, fst (printOrder env order kitchen) = isPrinterConnected :: rest.
Proof.
  unfold printOrder.
  destruct (connected env) as [[]|]; [destruct (executed env)| |];
    eexists; reflexivity.
Qed.

(** Any formatting, cut or execute call means the printer answered that it
    is connected. *)
Lemma printOrder_output_after_check (env : surface) (order : Order.t)
    (kitchen : string) :
  List.filter is_output (fst (printOrder env order kitchen)) <> [] ->
  connected env = Js.Fulfilled true.
Proof.
  unfold printOrder.
  destruct (connected env) as [[]|]; simpl; [reflexivity | congruence | congruence].
Qed.

(** A connected printer that accepts the job is driven from the header to
    the cut and the execute. *)
Lemma printOrder_connected (env : surface) (order : Order.t) (kitchen : string) :
  connected env = Js.Fulfilled true ->
  exists body,
    fst (printOrder env order kitchen)
    = isPrinterConnected :: body ++ [ cut; execute ]
    /\ snd (printOrder env order kitchen)
       = match executed env with
         | Js.Fulfilled _ => Returned
         | Js.Rejected => ThrewSurfaceError
         end.
Proof.
  intros H. unfold printOrder. rewrite H.
  set (groupedSections := OrderItems.groupItemsByKitchen _ _).
  exists (printRestaurantHeader order ++ printOrderTypeHeader order kitchen
          ++ printPreorderInfo order kitchen ++ printOrderDetails order
          ++ printOrderItems groupedSections ++ printTotals order
          ++ printFooter order kitchen).
  destruct (executed env); cbn [fst snd]; rewrite <- ?app_assoc; split; reflexivity.
Qed.

(** C8. When the printer reports that it is not connected, [printOrder]
    fails with its connection error and nothing is sent: the connectivity
    query is the only call made on the printer, so no formatting command,
    no cut and no execute is issued. *)
Theorem printOrder_not_connected (env : surface) (order : Order.t)
    (kitchen : string) :
  connected env = Js.Fulfilled false ->
  printOrder env order kitchen = ([ isPrinterConnected ], ThrewNotConnected)
  /\ List.filter is_output (fst (printOrder env order kitchen)) = [].
Proof.
  intros H. unfold printOrder. rewrite H. split; reflexivity.
Qed.

End PrintOrder.

Lemma printOrder_not_connected_witness :
  @Printer.printOrder Sample.silent
    {| Printer.connected := Js.Fulfilled false; Printer.executed := Js.Rejected |}
    (Sample.order "o1" "Take Out" (Some "q1")) "B"
  = ([ Printer.isPrinterConnected ], Printer.ThrewNotConnected).
Proof.
  apply (@printOrder_not_connected Sample.silent
           {| Printer.connected := Js.Fulfilled false;
              Printer.executed := Js.Rejected |}
           (Sample.order "o1" "Take Out" (Some "q1")) "B").
  reflexivity.
Defined.

(** A connected printer, for comparison: the ticket of an order without
    items ends with the cut and the execute. *)
Example printOrder_connected_sample :
  let '(calls, how) :=
    @Printer.printOrder Sample.silent
      {| Printer.connected := Js.Fulfilled true;
         Printer.executed := Js.Fulfilled true |}
      (Sample.order "o1" "Dine In" None) "" in
  how = Printer.Returned
  /\ head calls = Some Printer.isPrinterConnected
  /\ drop (length calls - 2) calls = [ Printer.cut; Printer.execute ].
Proof. vm_compute. repeat split. Qed.

(** ** [preprocessOrderItem] in the store *)

Section StoreFacts.
Import Store Framing.

Lemma frame_refl p h : frame p h h.
Proof. split; [lia | reflexivity]. Qed.

Lemma frame_trans p h1 h2 h3 : frame p h1 h2 -> frame p h2 h3 -> frame p h1 h3.
Proof.
  intros [L1 F1] [L2 F2]. split; [lia|].
  intros k Hk Hlt. rewrite F2, F1 by lia. reflexivity.
Qed.

Lemma frame_write p c h : frame p h (write p c h).
Proof.
  unfold write. split; [by rewrite length_insert|].
  intros k Hk _. by apply list_lookup_insert_ne.
Qed.

Lemma frame_alloc p c h : frame p h (fst (alloc c h)).
Proof.
  unfold alloc. simpl. split; [rewrite length_app; lia|].
  intros k _ Hlt. by apply lookup_app_l.
Qed.

Lemma get_item_lt h p it : get_item h p = Some it -> (p < length h)%nat.
Proof.
  unfold get_item. destruct (h !! p) eqn:E; [|discriminate].
  intros _. by eapply lookup_lt_Some.
Qed.

Lemma get_item_write p it h :
  (p < length h)%nat -> get_item (write p (ItemObj it) h) p = Some it.
Proof.
  intros H. unfold get_item, write. by rewrite list_lookup_insert_eq.
Qed.

Lemma no_data_item h p it : get_item h p = Some it -> no_data h p.
Proof.
  unfold get_item, no_data, get_opt, get_array.
  destruct (h !! p) as [[]|]; by try discriminate.
Qed.

Lemma no_data_fresh (h : Store.t) : no_data h (length h).
Proof.
  unfold no_data, get_opt, get_array.
  by rewrite (lookup_ge_None_2 h (length h)) by lia.
Qed.

Lemma get_opt_frame p h h' r o :
  frame p h h' -> no_data h p ->
  get_opt h r = Some o -> get_opt h' r = Some o.
Proof.
  intros [_ F] [Hp _] Hr.
  assert (r <> p) by (intros ->; congruence).
  unfold get_opt in *.
  destruct (h !! r) as [c|] eqn:E; [|discriminate].
  rewrite F by (done || by eapply lookup_lt_Some). by rewrite E.
Qed.

Lemma get_array_frame p h h' a elems :
  frame p h h' -> no_data h p ->
  get_array h a = Some elems -> get_array h' a = Some elems.
Proof.
  intros [_ F] [_ Hp] Ha.
  assert (a <> p) by (intros ->; congruence).
  unfold get_array in *.
  destruct (h !! a) as [c|] eqn:E; [|discriminate].
  rewrite F by (done || by eapply lookup_lt_Some). by rewrite E.
Qed.

Lemma get_opt_ref h r o : get_opt h r = Some o -> Opt.ref o = r.
Proof.
  unfold get_opt. destruct (h !! r) as [[]|]; try discriminate.
  by intros [= <-].
Qed.

(** Reading the copy back, spelled out. *)
Lemma view_Some h p w :
  view h p = Some w ->
  exists it,
    get_item h p = Some it
    /\ match Item.options it with
       | None => w = Item.set_options None it
       | Some a =>
           exists elems opts,
             get_array h a = Some elems
             /\ mapM (get_opt h) elems = Some opts
             /\ w = Item.set_options (Some opts) it
       end.
Proof.
  unfold view. destruct (get_item h p) as [it|]; [|discriminate]. simpl.
  intros H. exists it. split; [reflexivity|].
  destruct (Item.options it) as [a|]; [|by injection H as <-].
  destruct (get_array h a) as [elems|]; simpl in H; [|discriminate].
  destruct (mapM (get_opt h) elems) as [opts|] eqn:Hopts; simpl in H; [|discriminate].
  injection H as <-. by exists elems, opts.
Qed.

Lemma mapM_get_opt_frame p h h' elems opts :
  frame p h h' -> no_data h p ->
  mapM (get_opt h) elems = Some opts -> mapM (get_opt h') elems = Some opts.
Proof.
  intros F Hp. rewrite !mapM_Some. intros H.
  induction H; constructor; eauto using get_opt_frame.
Qed.

(** Reading any other item is not affected. *)
Lemma view_frame p h h' l w :
  frame p h h' -> no_data h p -> l <> p ->
  view h l = Some w -> view h' l = Some w.
Proof.
  intros F Hp Hl Hv. destruct (view_Some _ _ _ Hv) as (it & Hit & Hw).
  assert (Hit' : get_item h' l = Some it).
  { unfold get_item. destruct F as [_ F].
    rewrite F by (done || by eapply get_item_lt). exact Hit. }
  unfold view. rewrite Hit'. simpl.
  destruct (Item.options it) as [a|]; [|by subst].
  destruct Hw as (elems & opts & Harr & Hopts & ->).
  rewrite (get_array_frame p h h' a elems F Hp Harr). simpl.
  by rewrite (mapM_get_opt_frame p h h' _ _ F Hp Hopts).
Qed.

(** [find] on the references agrees with [find] on the objects. *)
Lemma find_ref_spec h pred elems opts :
  mapM (get_opt h) elems = Some opts ->
  match List.find pred opts with
  | Some found =>
      find_ref h pred elems = Some (Opt.ref found)
      /\ get_opt h (Opt.ref found) = Some found
  | None => find_ref h pred elems = None
  end.
Proof.
  rewrite mapM_Some. unfold find_ref. intros H.
  induction H as [|r o elems opts Hr _ IH]; simpl; [reflexivity|].
  rewrite Hr. destruct (pred o).
  - rewrite (get_opt_ref _ _ _ Hr). by split.
  - exact IH.
Qed.

(** Filtering the references by identity agrees with filtering the
    objects by identity. *)
Lemma filter_ref_spec h elems opts found :
  mapM (get_opt h) elems = Some opts ->
  mapM (get_opt h)
    (List.filter (fun r' => negb (r' =? Opt.ref found)%nat) elems)
  = Some (List.filter (fun opt => negb (OrderItems.same_object opt found)) opts).
Proof.
  rewrite !mapM_Some. intros H.
  induction H as [|r o elems opts Hr _ IH]; simpl; [constructor|].
  unfold OrderItems.same_object at 1. rewrite (get_opt_ref _ _ _ Hr).
  destruct (r =? Opt.ref found)%nat; simpl; [exact IH | by constructor].
Qed.

Lemma consume_spec pred suffix p h w :
  view h p = Some w -> is_Some (Item.options w) ->
  exists h',
    Store.consume pred suffix p h = Some h'
    /\ view h' p = Some (OrderItems.consume pred suffix w)
    /\ is_Some (Item.options (OrderItems.consume pred suffix w))
    /\ frame p h h'.
Proof.
  intros Hv Hopt. destruct (view_Some _ _ _ Hv) as (it & Hit & Hw).
  destruct (Item.options it) as [a|] eqn:Ea;
    [|subst w; destruct Hopt as [? Hopt]; discriminate Hopt].
  destruct Hw as (elems & opts & Harr & Hopts & ->).
  pose proof (get_item_lt _ _ _ Hit) as Hlt.
  unfold Store.consume, OrderItems.consume, OrderItems.elements.
  rewrite Hit. simpl. rewrite Ea. simpl. rewrite Harr. simpl.
  pose proof (find_ref_spec h pred _ _ Hopts) as Hfind.
  destruct (List.find pred opts) as [found|].
  - destruct Hfind as [-> Hfound]. rewrite Hfound. simpl.
    set (it1 := Item.set_name _ it).
    set (h1 := write p (ItemObj it1) h).
    set (filtered := List.filter _ elems).
    assert (Hl1 : length h1 = length h) by (unfold h1, write; by rewrite length_insert).
    assert (Hit1 : get_item (h1 ++ [Array filtered]) p = Some it1).
    { unfold get_item. rewrite lookup_app_l by lia.
      unfold h1, write. by rewrite list_lookup_insert_eq. }
    rewrite Hit1. simpl.
    set (h' := write p _ (h1 ++ [Array filtered])).
    assert (F : frame p h h').
    { eapply frame_trans; [apply (frame_write p (ItemObj it1))|].
      eapply frame_trans; [apply (frame_alloc p (Array filtered))|].
      apply frame_write. }
    exists h'. split; [reflexivity|]. split; [|split; [by eexists | exact F]].
    unfold view.
    assert (Hp' : get_item h' p = Some (Item.set_options (Some (length h1)) it1)).
    { apply get_item_write. rewrite length_app. lia. }
    rewrite Hp'. simpl.
    assert (Ha' : get_array h' (length h1) = Some filtered).
    { unfold get_array, h', write. rewrite list_lookup_insert_ne by lia.
      rewrite lookup_app_r by lia. by rewrite Nat.sub_diag. }
    rewrite Ha'. simpl. unfold filtered.
    rewrite (mapM_get_opt_frame p h h' _ _ F (no_data_item _ _ _ Hit)
               (filter_ref_spec h elems opts found Hopts)).
    reflexivity.
  - rewrite Hfind. exists h. split; [reflexivity|].
    split; [exact Hv|]. split; [by eexists | apply frame_refl].
Qed.

Lemma displayNameOf_set_options {A B} (v : option B) (it : Item.t A) :
  OrderItems.displayNameOf (Item.set_options v it) = OrderItems.displayNameOf it.
Proof. reflexivity. Qed.

Lemma assignDisplayName_spec p h w :
  view h p = Some w ->
  exists h',
    assignDisplayName p h = Some h'
    /\ view h' p = Some (Item.set_displayName (OrderItems.displayNameOf w) w)
    /\ frame p h h'.
Proof.
  intros Hv. destruct (view_Some _ _ _ Hv) as (it & Hit & Hw).
  pose proof (get_item_lt _ _ _ Hit) as Hlt.
  unfold assignDisplayName. rewrite Hit. simpl.
  set (h' := write p _ h).
  assert (F : frame p h h') by apply frame_write.
  exists h'. split; [reflexivity|]. split; [|exact F].
  assert (Hp' : get_item h' p
                = Some (Item.set_displayName (OrderItems.displayNameOf it) it))
    by (by apply get_item_write).
  unfold view. rewrite Hp'. simpl.
  destruct (Item.options it) as [a|] eqn:Ea.
  - destruct Hw as (elems & opts & Harr & Hopts & ->).
    rewrite (get_array_frame p h _ a elems F (no_data_item _ _ _ Hit) Harr). simpl.
    rewrite (mapM_get_opt_frame p h _ _ _ F (no_data_item _ _ _ Hit) Hopts). reflexivity.
  - subst w. reflexivity.
Qed.


(** C9. [preprocessOrderItem] never mutates its input. Called on the item
    object at address [l] of any store in which that object and its
    options read back as [item], it returns a fresh object (at an address
    the store did not have), every object the store held before the call
    is unchanged, in particular the argument, its name and its options
    array, so the argument still reads back as [item], and the object
    returned reads back as the preprocessed item. *)
Theorem preprocessOrderItem_preserves_input (h : Store.t) (l : loc) (item : order_item) :
  view h l = Some item ->
  exists h' p,
    Store.preprocessOrderItem l h = Some (h', p)
    /\ p = length h
    /\ (forall k : nat, (k < length h)%nat -> h' !! k = h !! k)
    /\ view h' l = Some item
    /\ view h' p = Some (OrderItems.preprocessOrderItem item).
Proof.
  intros Hv. destruct (view_Some _ _ _ Hv) as (it & Hit & Hw).
  pose proof (get_item_lt _ _ _ Hit) as Hlt.
  unfold Store.preprocessOrderItem. rewrite Hit. simpl.
  set (p := length h). set (h1 := h ++ [ItemObj it]).
  assert (F1 : frame p h h1) by apply (frame_alloc p (ItemObj it) h).
  assert (N : no_data h p) by apply no_data_fresh.
  assert (Hp1 : get_item h1 p = Some it).
  { unfold get_item, h1, p. rewrite lookup_app_r by lia.
    by rewrite Nat.sub_diag. }
  (* the copy reads as the argument does *)
  assert (Hv1 : view h1 p = Some item).
  { unfold view. rewrite Hp1. simpl.
    destruct (Item.options it) as [a|] eqn:Ea; [|by subst].
    destruct Hw as (elems & opts & Harr & Hopts & ->).
    rewrite (get_array_frame p h h1 a elems F1 N Harr). simpl.
    by rewrite (mapM_get_opt_frame p h h1 _ _ F1 N Hopts). }
  (* what remains is to follow the copy; the frame gives the rest *)
  assert (Finish : forall h' w,
            frame p h1 h' -> view h' p = Some w ->
            exists h'' p',
              Some (h', p) = Some (h'', p')
              /\ p' = length h
              /\ (forall k : nat, (k < length h)%nat -> h'' !! k = h !! k)
              /\ view h'' l = Some item
              /\ view h'' p' = Some w).
  { intros h' w F Hw'. exists h', p. split; [reflexivity|]. split; [reflexivity|].
    pose proof (frame_trans _ _ _ _ F1 F) as [L F'].
    split; [intros k Hk; apply F'; unfold p; lia|].
    split; [|exact Hw'].
    apply (view_frame p h h'); [by split | exact N | unfold p; lia | exact Hv]. }
  destruct (Item.options it) as [a|] eqn:Ea.
  - destruct Hw as (elems & opts & Harr & Hopts & ->).
    rewrite (get_array_frame p h h1 a elems F1 N Harr). simpl.
    assert (Hlen : length elems = length opts) by (by eapply length_mapM).
    unfold OrderItems.preprocessOrderItem. simpl.
    case_bool_decide as Hempty.
    + subst elems. destruct opts; [|discriminate Hlen].
      destruct (assignDisplayName_spec p h1 _ Hv1) as (h2 & -> & Hv2 & F2).
      simpl. by apply Finish.
    + destruct opts as [|o opts]; [by destruct elems|].
      set (w0 := Item.set_options (Some (o :: opts)) it) in *.
      assert (O0 : is_Some (Item.options w0)) by (by eexists).
      change (Item.name w0) with (Item.name it).
      assert (Step1 : exists h2 w1,
                (if (Item.name it =? CONFIG.SPECIAL_ITEM)%string
                 then Store.consume OrderItems.isMainOption OrderItems.mainSuffix p h1
                 else Some h1) = Some h2
                /\ w1 = (if (Item.name it =? CONFIG.SPECIAL_ITEM)%string
                         then OrderItems.consume OrderItems.isMainOption
                                OrderItems.mainSuffix w0
                         else w0)
                /\ view h2 p = Some w1 /\ is_Some (Item.options w1)
                /\ frame p h1 h2).
      { destruct (Item.name it =? CONFIG.SPECIAL_ITEM)%string.
        - destruct (consume_spec OrderItems.isMainOption OrderItems.mainSuffix
                      p h1 w0 Hv1 O0) as (h2 & E & V & O & F).
          by exists h2, (OrderItems.consume OrderItems.isMainOption
                           OrderItems.mainSuffix w0).
        - exists h1, w0. split; [reflexivity|]. split; [reflexivity|].
          split; [exact Hv1|]. split; [exact O0 | apply frame_refl]. }
      destruct Step1 as (h2 & w1 & -> & Ew1 & V1 & O1 & F2). rewrite <- Ew1.
      simpl.
      destruct (consume_spec OrderItems.isEggSpringOption OrderItems.eggSpringSuffix
                  p h2 w1 V1 O1) as (h3 & -> & V2 & O2 & F3).
      simpl.
      destruct (consume_spec OrderItems.isRiceNoodleOption OrderItems.riceNoodleSuffix
                  p h3 _ V2 O2) as (h4 & -> & V3 & O3 & F4).
      simpl.
      destruct (assignDisplayName_spec p h4 _ V3) as (h5 & -> & V4 & F5).
      simpl. apply Finish; [|exact V4].
      eauto using frame_trans.
  - subst item. simpl.
    destruct (assignDisplayName_spec p h1 _ Hv1) as (h2 & -> & Hv2 & F2).
    simpl. by apply Finish.
Qed.

End StoreFacts.

Lemma preprocessOrderItem_preserves_input_witness :
  Store.view Sample.store 0%nat = Some Sample.number3
  /\ exists h' p,
       Store.preprocessOrderItem 0%nat Sample.store = Some (h', p)
       /\ p = 4%nat
       /\ (forall k : nat, (k < 4)%nat -> h' !! k = Sample.store !! k)
       /\ Store.view h' 0%nat = Some Sample.number3
       /\ Store.view h' p = Some (OrderItems.preprocessOrderItem Sample.number3).
Proof.
  split; [reflexivity|].
  apply (preprocessOrderItem_preserves_input Sample.store 0%nat Sample.number3).
  reflexivity.
Defined.

(** The store after the call on the sample: the four objects as they were,
    the copy at address 4 with its new name, and the two arrays that
    [filter] built (the second one, empty, is the copy's options). *)
Example preprocessOrderItem_sample_store :
  Store.preprocessOrderItem 0%nat Sample.store
  = Some (Sample.store
          ++ [ Store.ItemObj
                 (Item.set_displayName "#3/Fried Rice/ER"
                    (Item.set_options (Some 6%nat)
                       (Item.set_name "#3/Fried Rice/ER" Sample.number3)));
               Store.Array [ 2%nat ];
               Store.Array [] ],
          4%nat).
Proof. reflexivity. Qed.

(** ** The print queue *)

Section QueueFacts.
Import Server QueueInv.

(** *** One activation, from one await to the next *)

(** [advance] emits what [perform] lists before the first answer is needed
    and either arrives at the end, whatever the answers, or suspends on a
    call from where [perform] goes on once that call settles. *)
Lemma advance_spec (o : Order.t) (p : proc) (st : state) :
  let st' := fst (advance o p st) in
  printQueue st' = printQueue st
  /\ isPrinting st' = isPrinting st
  /\ trace st' = trace st ++ fst (perform p [])
  /\ snd (advance o p st) = snd (perform p [])
  /\ match snd (perform p []) with
     | Some b =>
         pending st' = pending st
         /\ forall answers, perform p answers = (fst (perform p []), Some b)
     | None =>
         exists c k,
           pending st' = pending st ++ [ {| job := o; awaited := c; resume := k |} ]
           /\ (awaits (Await c k) <= awaits p)%nat
           /\ forall r more,
                perform p (r :: more)
                = (fst (perform p []) ++ Settled c r :: fst (perform (k r) more),
                   snd (perform (k r) more))
     end.
Proof.
  revert st. induction p as [m k IH|c k _|b]; intros st; simpl.
  - specialize (IH (emit (Logged m) st)). simpl in IH.
    destruct IH as (Q & P & T & S & R).
    destruct (perform k []) as [es out] eqn:E. simpl in *.
    rewrite Q, P, T, S, <- app_assoc. repeat split; try reflexivity.
    destruct out as [b|].
    + destruct R as [R1 R2]. split; [exact R1|].
      intros answers. rewrite (R2 answers). reflexivity.
    + destruct R as (c & k' & R1 & R2 & R3). exists c, k'.
      split; [exact R1|]. split; [exact R2|].
      intros r more. rewrite (R3 r more). reflexivity.
  - repeat split; try reflexivity. exists c, k.
    split; [reflexivity|]. split; [lia|].
    intros r more. destruct (perform (k r) more). reflexivity.
  - rewrite app_nil_r. repeat split; reflexivity.
Qed.


Lemma worker_app (es1 es2 : list event) :
  worker (es1 ++ es2) = worker es1 ++ worker es2.
Proof. apply List.filter_app. Qed.

Lemma worker_perform (p : proc) (answers : list Js.settled) :
  worker (fst (perform p answers)) = fst (perform p answers).
Proof.
  revert answers. induction p as [m k IH|c k IH|b]; intros answers; simpl.
  - specialize (IH answers). destruct (perform k answers). simpl in *.
    by rewrite IH.
  - destruct answers as [|r answers]; [reflexivity|].
    specialize (IH r answers). destruct (perform (k r) answers). simpl in *.
    by rewrite IH.
  - reflexivity.
Qed.

Lemma attempt_eq (o : Order.t) (answers : list Js.settled) :
  attempt o answers
  = Shifted o :: fst (perform (processOrder o) answers)
    ++ match outcome o answers with
       | Some b => [ Released o b ]
       | None => []
       end.
Proof.
  unfold attempt, outcome. by destruct (perform (processOrder o) answers).
Qed.

Lemma attempts_snoc jobs o answers :
  attempts (jobs ++ [ (o, answers) ]) = attempts jobs ++ attempt o answers.
Proof.
  unfold attempts. rewrite map_app, concat_app. simpl. by rewrite app_nil_r.
Qed.

Lemma awaits_processOrder (o : Order.t) : (awaits (processOrder o) <= 5)%nat.
Proof.
  unfold processOrder, markPrinted, finallyBlock.
  destruct (Order.orderType o =? CONFIG.ORDER_TYPES.TAKE_OUT)%string;
    destruct (Order.printId o) as [pid|]; simpl;
    try destruct (negb (pid =? "")%string); simpl; lia.
Qed.

(** *** [processQueue] with the flag free *)

Lemma drain_consistent (queue : list Order.t) :
  forall (st : state) (enq : list Order.t) done,
    printQueue st = queue -> isPrinting st = false -> pending st = [] ->
    worker (trace st) = attempts done ->
    Forall (fun j => is_Some (outcome (fst j) (snd j))) done ->
    enq = map fst done ++ queue ->
    (exists done' cur', consistent enq (drain queue st) done' cur')
    /\ (potential (drain queue st) <= 5 * length queue)%nat.
Proof.
  induction queue as [|o rest IH]; intros st enq done HQ HP HF HT HD HE.
  - simpl. split; [|unfold potential; rewrite HF, HQ; simpl; lia].
    exists done, None. unfold consistent. rewrite HQ, !app_nil_r.
    rewrite app_nil_r in HE. repeat split; (assumption || reflexivity).
  - cbn [drain].
    pose proof (advance_spec o (processOrder o) (shift o rest st)) as A.
    destruct (advance o (processOrder o) (shift o rest st)) as [st1 out] eqn:E.
    cbn [fst snd] in A. destruct A as (Q & P & T & S & R). subst out.
    cbn [printQueue isPrinting trace pending shift] in Q, P, T, R.
    destruct (snd (perform (processOrder o) [])) as [b|] eqn:Eo; cbv beta iota.
    + destruct R as [R1 R2].
      enough (I : (exists done' cur',
                      consistent enq (drain rest (release o b st1)) done' cur')
                   /\ (potential (drain rest (release o b st1))
                       <= 5 * length rest)%nat)
        by (destruct I as [I1 I2]; split; [exact I1 | simpl length; lia]).
      apply (IH (release o b st1) enq (done ++ [ (o, []) ])).
      * exact Q.
      * reflexivity.
      * exact (eq_trans R1 HF).
      * cbn [trace release].
        rewrite T, !worker_app, HT, worker_perform, attempts_snoc, attempt_eq.
        unfold outcome. rewrite Eo.
        cbn [worker List.filter of_worker]. by rewrite <- !app_assoc.
      * apply Forall_app. split; [exact HD|].
        constructor; [|constructor]. unfold outcome. cbn [fst snd].
        rewrite Eo. by eexists.
      * rewrite HE, map_app. cbn [map fst]. by rewrite <- app_assoc.
    + destruct R as (c & k & R1 & R2 & R3). split.
      * exists done, (Some (o, [])). unfold consistent. cbn [fst snd].
        rewrite T, !worker_app, HT, worker_perform, attempt_eq.
        unfold outcome. rewrite Eo.
        cbn [worker List.filter of_worker]. rewrite app_nil_r, <- app_assoc.
        split; [reflexivity|]. split; [exact HD|].
        split; [by rewrite HE, Q|]. split; [exact P|]. split; [reflexivity|].
        exists c, k. rewrite R1, HF. split; [reflexivity|].
        split; [pose proof (awaits_processOrder o); lia | exact R3].
      * unfold potential. rewrite R1, HF, Q. cbn [app].
        pose proof (awaits_processOrder o). cbn [awaited resume length]. lia.
Qed.

Lemma processQueue_consistent (st : state) (enq : list Order.t) done :
  isPrinting st = false -> pending st = [] ->
  worker (trace st) = attempts done ->
  Forall (fun j => is_Some (outcome (fst j) (snd j))) done ->
  enq = map fst done ++ printQueue st ->
  (exists done' cur', consistent enq (processQueue st) done' cur')
  /\ (potential (processQueue st) <= 5 * length (printQueue st))%nat.
Proof.
  intros HP HF HT HD HE. unfold processQueue. rewrite HP. simpl.
  case_bool_decide as HQ.
  - pose proof (drain_consistent [] st enq done HQ HP HF HT HD) as D.
    cbn [drain length] in D. rewrite HQ. apply D. by rewrite HE, HQ.
  - by apply (drain_consistent (printQueue st) st enq done).
Qed.


(** *** The listener *)

Lemma onChange_consistent (st : state) (change : docChange) enq done cur :
  consistent enq st done cur ->
  exists done' cur',
    consistent (enq ++ [ jobOf change ]) (onChange st change) done' cur'.
Proof.
  intros (HT & HD & HE & HC). unfold onChange.
  set (note := Noticed _).
  set (st2 := push (jobOf change) (emit note st)).
  assert (T2 : worker (trace st2) = worker (trace st)).
  { subst st2 note. cbn [trace push emit]. rewrite worker_app.
    cbn [worker List.filter of_worker]. by rewrite app_nil_r. }
  destruct cur as [j|].
  - destruct HC as (HP & HO & c & k & HF & HA & HK).
    assert (E : processQueue st2 = st2).
    { unfold processQueue. subst st2. cbn [isPrinting push emit].
      by rewrite HP. }
    rewrite E. exists done, (Some j). unfold consistent.
    rewrite T2. split; [exact HT|]. split; [exact HD|].
    split; [subst st2; cbn [printQueue push emit]; by rewrite HE, <- !app_assoc|].
    split; [exact HP|]. split; [exact HO|]. by exists c, k.
  - destruct HC as (HP & HF & HQ).
    apply (processQueue_consistent st2 _ done).
    + exact HP.
    + exact HF.
    + by rewrite T2, HT, app_nil_r.
    + exact HD.
    + subst st2. cbn [printQueue push emit]. rewrite HE, HQ.
      by rewrite !app_nil_r.
Qed.

Lemma onSnapshot_consistent (empty : bool) (changes : list docChange)
    (st : state) enq done cur :
  consistent enq st done cur ->
  exists done' cur',
    consistent (enq ++ enqueued [ Snapshot empty changes ])
      (onSnapshot empty changes st) done' cur'.
Proof.
  unfold onSnapshot, enqueued. cbn [map concat]. rewrite app_nil_r.
  destruct empty.
  - intros (HT & HD & HE & HC). exists done, cur. rewrite app_nil_r.
    unfold consistent. cbn [trace emit printQueue isPrinting pending].
    rewrite worker_app. cbn [worker List.filter of_worker].
    by rewrite app_nil_r.
  - revert st enq done cur.
    induction changes as [|change changes IH]; intros st enq done cur H.
    + exists done, cur. by rewrite app_nil_r.
    + cbn [fold_left map].
      destruct (onChange_consistent st change enq done cur H) as (d1 & c1 & H1).
      destruct (IH _ _ _ _ H1) as (d2 & c2 & H2).
      exists d2, c2. by rewrite <- app_assoc in H2.
Qed.

(** *** A settlement *)

Lemma awaits_resume (c : call) (k : Js.settled -> proc) (r : Js.settled) :
  (awaits (k r) < awaits (Await c k))%nat.
Proof. destruct r as [[]|]; simpl; lia. Qed.

Lemma settle_consistent (i : nat) (r : Js.settled) (st : state) enq done cur :
  consistent enq st done cur ->
  (exists done' cur', consistent enq (settle i r st) done' cur')
  /\ (potential (settle i r st) <= potential st)%nat
  /\ (i = 0%nat -> (0 < potential st)%nat ->
      (potential (settle i r st) < potential st)%nat).
Proof.
  intros H. pose proof H as (HT & HD & HE & HC).
  unfold settle. destruct cur as [[o ans]|]; cbn [fst snd] in *.
  2:{ destruct HC as (HP & HF & HQ). rewrite HF, lookup_nil.
      split; [by exists done, None|]. split; [lia|].
      unfold potential. rewrite HF, HQ. cbn. lia. }
  destruct HC as (HP & HO & c & k & HF & HA & HK).
  rewrite HF. destruct i as [|i].
  2:{ rewrite (lookup_ge_None_2 _ (S i)) by (cbn; lia).
      split; [by exists done, (Some (o, ans))|]. split; [lia|]. intros; lia. }
  cbn [lookup list_lookup].
  cbn [job awaited resume].
  set (st0 := emit (Settled c r) (drop_frame 0 st)).
  pose proof (advance_spec o (k r) st0) as A.
  destruct (advance o (k r) st0) as [st1 out] eqn:E.
  cbn [fst snd] in A. destruct A as (Q & P & T & S & R). subst out.
  subst st0. cbn [printQueue isPrinting trace pending emit drop_frame] in Q, P, T, R.
  rewrite HF in R. cbn [delete list_delete] in R.
  assert (Pot : potential st = (awaits (Await c k) + 5 * length (printQueue st))%nat).
  { unfold potential. by rewrite HF. }
  pose proof (awaits_resume c k r) as Hlt.
  pose proof (HK r []) as HK0.
  destruct (snd (perform (k r) [])) as [b|] eqn:Eo; cbv beta iota.
  - destruct R as [R1 R2].
    assert (PQ : (exists done' cur',
                    consistent enq (processQueue (release o b st1)) done' cur')
                 /\ (potential (processQueue (release o b st1))
                     <= 5 * length (printQueue (release o b st1)))%nat).
    { apply (processQueue_consistent _ _ (done ++ [ (o, ans ++ [ r ]) ])).
      - reflexivity.
      - exact R1.
      - cbn [trace release].
        rewrite T, !worker_app, HT, worker_perform, attempts_snoc.
        rewrite !attempt_eq. unfold outcome in *. rewrite HO, HK0.
        cbn [fst snd worker List.filter of_worker].
        rewrite app_nil_r. by rewrite <- !app_assoc.
      - apply Forall_app. split; [exact HD|].
        constructor; [|constructor]. unfold outcome. cbn [fst snd].
        rewrite HK0. by eexists.
      - cbn [printQueue release]. rewrite HE, Q, map_app. cbn [map fst].
        by rewrite <- !app_assoc. }
    destruct PQ as [PQ1 PQ2]. cbn [printQueue release] in PQ2. rewrite Q in PQ2.
    split; [exact PQ1|]. split; [lia|]. intros _ _. lia.
  - destruct R as (c' & k' & R1 & R2 & R3).
    assert (Pot1 : potential st1
                   = (awaits (Await c' k') + 5 * length (printQueue st))%nat).
    { unfold potential. by rewrite R1, Q. }
    split; [|split; [lia | intros _ _; lia]].
    exists done, (Some (o, ans ++ [ r ])). unfold consistent. cbn [fst snd].
    rewrite T, !worker_app, HT, worker_perform.
    rewrite !attempt_eq. unfold outcome in *. rewrite HO, HK0.
    cbn [fst snd worker List.filter of_worker].
    rewrite !app_nil_r.
    split; [by rewrite <- !app_assoc|]. split; [exact HD|].
    split; [by rewrite HE, Q|]. split; [by rewrite P|]. split; [reflexivity|].
    exists c', k'. split; [exact R1|]. split; [lia|].
    intros r' more. rewrite <- app_assoc. cbn [app].
    rewrite (HK r (r' :: more)), (R3 r' more). cbn [fst snd].
    by rewrite <- !app_assoc.
Qed.

(** *** Runs *)

Lemma enqueued_app (inputs1 inputs2 : list input) :
  enqueued (inputs1 ++ inputs2) = enqueued inputs1 ++ enqueued inputs2.
Proof. unfold enqueued. by rewrite map_app, concat_app. Qed.

Lemma step_consistent (inp : input) (st : state) enq done cur :
  consistent enq st done cur ->
  exists done' cur', consistent (enq ++ enqueued [ inp ]) (step st inp) done' cur'.
Proof.
  intros H. destruct inp as [empty changes|i r]; cbn [step].
  - by apply (onSnapshot_consistent empty changes st enq done cur).
  - unfold enqueued. cbn [map concat]. rewrite !app_nil_r.
    by apply (settle_consistent i r st enq done cur).
Qed.

Lemma run_consistent (inputs : list input) (st : state) enq done cur :
  consistent enq st done cur ->
  exists done' cur', consistent (enq ++ enqueued inputs) (run inputs st) done' cur'.
Proof.
  revert st enq done cur.
  induction inputs as [|inp inputs IH]; intros st enq done cur H.
  - exists done, cur. unfold enqueued. cbn. by rewrite app_nil_r.
  - cbn [run fold_left].
    destruct (step_consistent inp st enq done cur H) as (d1 & c1 & H1).
    destruct (IH _ _ _ _ H1) as (d2 & c2 & H2).
    exists d2, c2.
    change (inp :: inputs) with ([ inp ] ++ inputs).
    by rewrite enqueued_app, app_assoc.
Qed.

Lemma init_consistent : consistent [] init [] None.
Proof. unfold consistent. cbn. repeat split; constructor. Qed.

(** Every reachable state is consistent with the jobs pushed. *)
Lemma reachable_consistent (inputs : list input) :
  exists done cur, consistent (enqueued inputs) (run inputs init) done cur.
Proof. apply (run_consistent inputs init [] [] None init_consistent). Qed.


(** *** Reading the trace of a run *)

Lemma shifted_worker (es : list event) : shifted (worker es) = shifted es.
Proof.
  induction es as [|[] es IH]; [reflexivity|..]; unfold shifted in *; simpl;
    first [ exact IH | f_equal; exact IH ].
Qed.

Lemma released_worker (es : list event) : released (worker es) = released es.
Proof.
  induction es as [|[] es IH]; [reflexivity|..]; unfold released in *; simpl;
    first [ exact IH | f_equal; exact IH ].
Qed.

Lemma alternates_worker (s : option Order.t) (es : list event) :
  alternates s (worker es) <-> alternates s es.
Proof.
  revert s.
  induction es as [|[] es IH]; intros s;
    cbn [worker List.filter of_worker alternates] in *; rewrite ?IH; tauto.
Qed.

Lemma perform_quiet (p : proc) (answers : list Js.settled) :
  shifted (fst (perform p answers)) = []
  /\ released (fst (perform p answers)) = []
  /\ forall s rest,
       alternates s (fst (perform p answers) ++ rest) <-> alternates s rest.
Proof.
  revert answers. induction p as [m k IH|c k IH|b]; intros answers; cbn [perform].
  - specialize (IH answers). destruct (perform k answers). cbn [fst] in *.
    exact IH.
  - destruct answers as [|r answers]; [by cbn|].
    specialize (IH r answers). destruct (perform (k r) answers). cbn [fst] in *.
    exact IH.
  - by cbn.
Qed.

Lemma shifted_app (es1 es2 : list event) :
  shifted (es1 ++ es2) = shifted es1 ++ shifted es2.
Proof. apply omap_app. Qed.

Lemma released_app (es1 es2 : list event) :
  released (es1 ++ es2) = released es1 ++ released es2.
Proof. apply omap_app. Qed.

Lemma shifted_attempt o answers : shifted (attempt o answers) = [ o ].
Proof.
  rewrite attempt_eq.
  change (shifted (Shifted o :: ?l)) with (o :: shifted l).
  rewrite shifted_app.
  destruct (perform_quiet (processOrder o) answers) as (-> & _ & _).
  by destruct (outcome o answers).
Qed.

Lemma released_attempt o answers :
  released (attempt o answers)
  = match outcome o answers with Some b => [ (o, b) ] | None => [] end.
Proof.
  rewrite attempt_eq.
  change (released (Shifted o :: ?l)) with (released l).
  rewrite released_app.
  destruct (perform_quiet (processOrder o) answers) as (_ & -> & _).
  by destruct (outcome o answers).
Qed.

Lemma attempts_cons j jobs :
  attempts (j :: jobs) = attempt (fst j) (snd j) ++ attempts jobs.
Proof. reflexivity. Qed.

Lemma shifted_attempts jobs : shifted (attempts jobs) = map fst jobs.
Proof.
  induction jobs as [|[o a] jobs IH]; [reflexivity|].
  rewrite attempts_cons, shifted_app, IH, shifted_attempt. reflexivity.
Qed.

Lemma released_attempts jobs :
  Forall (fun j => is_Some (outcome (fst j) (snd j))) jobs ->
  map fst (released (attempts jobs)) = map fst jobs.
Proof.
  induction 1 as [|[o a] jobs [b Hb] _ IH]; [reflexivity|].
  rewrite attempts_cons, released_app, map_app, IH, released_attempt.
  cbn [fst snd] in *. by rewrite Hb.
Qed.

Lemma alternates_attempt o answers rest :
  alternates (match outcome o answers with Some _ => None | None => Some o end) rest ->
  alternates None (attempt o answers ++ rest).
Proof.
  rewrite attempt_eq. cbn [app alternates]. intros H. split; [reflexivity|].
  rewrite <- app_assoc.
  destruct (perform_quiet (processOrder o) answers) as (_ & _ & A).
  apply A. destruct (outcome o answers); cbn [app alternates]; by try split.
Qed.

Lemma alternates_attempts jobs rest :
  Forall (fun j => is_Some (outcome (fst j) (snd j))) jobs ->
  alternates None rest -> alternates None (attempts jobs ++ rest).
Proof.
  induction 1 as [|[o a] jobs [b Hb] _ IH]; intros Hr; [exact Hr|].
  rewrite attempts_cons, <- app_assoc. cbn [fst snd] in *.
  apply alternates_attempt. rewrite Hb. by apply IH.
Qed.

(** Enough settlements bring a consistent state to rest. *)
Lemma settle_until_idle (answers : list Js.settled) :
  forall (st : state) enq done cur,
    consistent enq st done cur ->
    (potential st <= length answers)%nat ->
    exists done',
      consistent enq (run (map (Settle 0) answers) st) done' None.
Proof.
  induction answers as [|r answers IH]; intros st enq done cur H Hp.
  - cbn. destruct cur as [j|]; [|by exists done].
    destruct H as (_ & _ & _ & _ & _ & c & k & HF & _).
    unfold potential in Hp. rewrite HF in Hp. cbn in Hp. lia.
  - cbn [map run fold_left step].
    destruct (settle_consistent 0 r st enq done cur H) as ((d1 & c1 & H1) & P1 & P2).
    apply (IH _ enq d1 c1 H1). cbn [length] in Hp.
    destruct (Nat.eq_dec (potential st) 0%nat) as [E|E]; [lia|].
    specialize (P2 eq_refl ltac:(lia)). lia.
Qed.

Lemma potential_bound (st : state) enq done cur :
  consistent enq st done cur ->
  (potential st <= 5 * (1 + length (printQueue st)))%nat.
Proof.
  intros (_ & _ & _ & HC). unfold potential. destruct cur as [j|].
  - destruct HC as (_ & _ & c & k & -> & HA & _). cbn [awaited resume]. lia.
  - destruct HC as (_ & -> & _). lia.
Qed.

(** C2. Whatever the feed and the awaited promises deliver, in whatever
    order: at most one activation of [processQueue] is suspended; the flag
    is taken and released in strict alternation, so no two attempts
    overlap; the jobs taken so far followed by the jobs still queued are
    the jobs pushed, in the order of the pushes, so every job is taken
    once and in FIFO order; the jobs taken are the jobs finished, followed
    by the one in progress; and once the promises awaited keep settling
    (five per job are enough), the queue comes to rest with every pushed
    job finished, in the order of the pushes. While the flag is free no
    activation is suspended and no job waits. *)
Theorem queue_processes_each_job_once_in_order (inputs : list input) :
  let st := run inputs init in
  (length (pending st) <= 1)%nat
  /\ (isPrinting st = false -> pending st = [] /\ printQueue st = [])
  /\ alternates None (trace st)
  /\ enqueued inputs = shifted (trace st) ++ printQueue st
  /\ shifted (trace st) = map fst (released (trace st)) ++ map job (pending st)
  /\ forall answers,
       (5 * (1 + length (printQueue st)) <= length answers)%nat ->
       let st' := run (map (Settle 0) answers) st in
       isPrinting st' = false /\ pending st' = [] /\ printQueue st' = []
       /\ map fst (released (trace st')) = enqueued inputs.
Proof.
  intros st. destruct (reachable_consistent inputs) as (done & cur & H).
  fold st in H. pose proof H as (HT & HD & HE & HC).
  assert (HS : shifted (trace st)
               = map fst done ++ match cur with Some j => [ fst j ] | None => [] end).
  { rewrite <- shifted_worker, HT, shifted_app, shifted_attempts. f_equal.
    destruct cur as [[o a]|]; [apply shifted_attempt | reflexivity]. }
  assert (HR : map fst (released (trace st)) = map fst done).
  { rewrite <- released_worker, HT, released_app, map_app.
    rewrite (released_attempts _ HD).
    destruct cur as [[o a]|]; [|by rewrite app_nil_r].
    cbn [fst snd] in *. rewrite released_attempt.
    destruct HC as (_ & -> & _). by rewrite app_nil_r. }
  split; [|split; [|split; [|split; [|split]]]].
  - destruct cur as [j|].
    + destruct HC as (_ & _ & c & k & -> & _). cbn. lia.
    + destruct HC as (_ & -> & _). cbn. lia.
  - intros Hidle. destruct cur as [j|].
    + destruct HC as (HP & _). congruence.
    + tauto.
  - apply alternates_worker. rewrite HT. apply (alternates_attempts _ _ HD).
    destruct cur as [[o a]|]; [|exact I]. cbn [fst snd].
    rewrite <- (app_nil_r (attempt o a)). apply alternates_attempt.
    by destruct (outcome o a).
  - by rewrite HS, HE, <- app_assoc.
  - rewrite HS, HR. f_equal. destruct cur as [j|].
    + by destruct HC as (_ & _ & c & k & -> & _).
    + by destruct HC as (_ & -> & _).
  - intros answers Hlen st'.
    pose proof (potential_bound _ _ _ _ H) as PB.
    destruct (settle_until_idle answers st _ done cur H ltac:(lia)) as (done' & H').
    fold st' in H'. destruct H' as (HT' & HD' & HE' & HP' & HF' & HQ').
    split; [exact HP'|]. split; [exact HF'|]. split; [exact HQ'|].
    rewrite <- released_worker, HT', app_nil_r, (released_attempts _ HD').
    by rewrite HE', HQ', !app_nil_r.
Qed.

(** X17. The worker's events in any run are attempts, one after the
    other, on the jobs pushed, in the order of the pushes: what holds of
    every attempt holds of every job of every run. *)
Lemma runs_are_attempts (inputs : list input) :
  exists jobs,
    worker (trace (run inputs init)) = attempts jobs
    /\ enqueued inputs = map fst jobs ++ printQueue (run inputs init).
Proof.
  destruct (reachable_consistent inputs) as (done & cur & HT & _ & HE & _).
  destruct cur as [[o a]|].
  - exists (done ++ [ (o, a) ]). rewrite attempts_snoc, map_app.
    split; [exact HT|]. by rewrite HE, <- app_assoc.
  - exists done. by rewrite app_nil_r in HT.
Qed.

End QueueFacts.


(** ** One attempt *)

Section Attempts.
Import Server Tactics.

(** C3, as the code has it. A take-out job makes its first emission call
    with the destination tag "B" and, once that call has succeeded, a
    second one with the tag "A"; when the first call fails (or has not
    settled yet) it is the only one. A job of any other order type makes
    exactly one emission call, with the empty tag. *)
Theorem emission_calls (order : Order.t) (answers : list Js.settled) :
  printedKitchens (attempt order answers)
  = if (Order.orderType order =? "Take Out")%string then
      match answers with
      | Js.Fulfilled _ :: _ => [ "B"; "A" ]
      | _ => [ "B" ]
      end
    else [ "" ].
Proof.
  change "Take Out" with CONFIG.ORDER_TYPES.TAKE_OUT.
  by_cases order; reflexivity.
Qed.

(** An attempt is over after five settlements at the latest. *)
Lemma attempt_completes (order : Order.t) (answers : list Js.settled) :
  (5 <= length answers)%nat -> is_Some (outcome order answers).
Proof.
  by_cases order; intros H; try (by eexists); cbn [length] in H; lia.
Qed.

(** X20. A printer that is not connected fails the job: the first
    emission is rejected, and the attempt ends with [printSucceeded] false
    as soon as the deletion of the queue entry, if there is one, has
    settled. *)
Lemma disconnected_printer_fails_job {rt : Runtime} (env : Printer.surface)
    (order : Order.t) (kitchen : string) (r : Js.settled)
    (more : list Js.settled) :
  Printer.connected env = Js.Fulfilled false ->
  outcome order
    (awaitPrint (snd (Printer.printOrder env order kitchen)) :: r :: more)
  = Some false.
Proof.
  intros H. unfold Printer.printOrder. rewrite H. cbn [snd awaitPrint].
  unfold outcome, processOrder, finallyBlock, Js.truthy.
  destruct (Order.orderType order =? CONFIG.ORDER_TYPES.TAKE_OUT)%string;
    destruct (Order.printId order) as [printId|];
    try destruct (negb (printId =? "")%string);
    destruct r; reflexivity.
Qed.

(** C1, as the code has it. In a finished attempt, [printSucceeded] is
    true exactly when no emission was rejected, whatever the lookup, the
    update and the deletion did. The order's record is looked up, in the
    collection its type selects, exactly when every emission succeeded,
    and never after a failed one; the printed flag is updated exactly when
    that lookup found the record; a record that is missing is logged, and
    so is a lookup or an update that fails. *)
Theorem printed_flag_update (order : Order.t) (answers : list Js.settled)
    (printSucceeded : bool) :
  outcome order answers = Some printSucceeded ->
  let es := attempt order answers in
  let record := (collectionOf order, Order.id order) in
  (printSucceeded = true <-> printFailures es = [])
  /\ lookups es = (if printSucceeded then [ record ] else [])
  /\ updates es
     = (match lookupResults es with
        | [ Js.Fulfilled true ] => [ record ]
        | _ => []
        end)
  /\ (lookupResults es = [ Js.Fulfilled false ] ->
      In (OrderNotFound (Order.id order) (collectionOf order)) (logs es))
  /\ (lookupResults es = [ Js.Rejected ] \/ updateResults es = [ Js.Rejected ] ->
      In (UpdateError (Order.id order)) (logs es)).
Proof.
  unfold collectionOf. change "Dine In" with CONFIG.ORDER_TYPES.DINE_IN.
  destruct (Order.orderType order =? CONFIG.ORDER_TYPES.DINE_IN)%string eqn:EDineIn;
    by_cases order; try rewrite EDineIn; simpl;
    intros [= <-]; (split; [split; [reflexivity || discriminate | reflexivity || discriminate]|]);
    (split; [reflexivity|]); (split; [reflexivity|]);
    (split; [intros; first [discriminate | simpl; tauto]|]);
    intros [|]; first [discriminate | simpl; tauto].
Qed.

Lemma printed_flag_update_witness :
  let order := Sample.order "o1" "Dine In" (Some "q1") in
  let answers := [ Js.Fulfilled true; Js.Fulfilled false; Js.Fulfilled true ] in
  outcome order answers = Some true
  /\ lookups (attempt order answers) = [ ("dineInOrders", "o1") ]
  /\ updates (attempt order answers) = [].
Proof.
  split; [reflexivity|].
  pose proof (printed_flag_update (Sample.order "o1" "Dine In" (Some "q1"))
                [ Js.Fulfilled true; Js.Fulfilled false; Js.Fulfilled true ]
                true eq_refl) as (_ & L & U & _).
  split; [exact L | exact U].
Defined.

(** C4. An attempt is over after five settlements at the latest, whatever
    they are. When the job carries a (non-empty) [printId], the finished
    attempt ends with the deletion of that queue entry, called once and
    after every other call, with a console line that depends on how the
    deletion settled, and with the release of the flag in either case;
    when the job carries none, no deletion is called for and the attempt
    ends with the release of the flag all the same. *)
Theorem queue_entry_deletion (order : Order.t) (answers : list Js.settled) :
  ((5 <= length answers)%nat -> is_Some (outcome order answers))
  /\ forall printSucceeded,
       outcome order answers = Some printSucceeded ->
       if Js.truthy (Order.printId order) then
         let entry := QueueDelete (default "" (Order.printId order)) in
         exists before r,
           attempt order answers
           = before
             ++ [ Called entry; Settled entry r;
                  Logged (match r with
                          | Js.Fulfilled _ =>
                              RemovedFromQueue (Order.id order) printSucceeded
                          | Js.Rejected => DeleteError
                          end);
                  Released order printSucceeded ]
           /\ deletions before = []
       else
         deletions (attempt order answers) = []
         /\ exists before,
              attempt order answers = before ++ [ Released order printSucceeded ].
Proof.
  split; [apply attempt_completes|].
  intros printSucceeded.
  by_cases order; intros [= <-];
    match goal with
    | |- exists before r, ?l = _ /\ _ =>
        let pre := eval cbv [take length Nat.sub] in (take (length l - 4)%nat l) in
        exists pre;
        match l with
        | context [Settled (QueueDelete _) ?r0] => exists r0
        end; split; reflexivity
    | |- _ /\ exists before, ?l = _ =>
        split; [reflexivity|];
        let pre := eval cbv [take length Nat.sub] in (take (length l - 1)%nat l) in
        exists pre; reflexivity
    end.
Qed.

End Attempts.

(** ** Sample runs *)

Section SampleRuns.
Import Server.

(** The first end-to-end scenario: a take-out job is printed for B, then
    for A, its record is marked, and only then is its queue entry
    deleted. *)
Example takeOut_run :
  let job := jobOf Sample.takeOutChange in
  trace (run [ Snapshot false [ Sample.takeOutChange ];
               Settle 0 (Js.Fulfilled true); Settle 0 (Js.Fulfilled true);
               Settle 0 (Js.Fulfilled true); Settle 0 (Js.Fulfilled true);
               Settle 0 (Js.Fulfilled true) ] init)
  = [ Noticed (NewOrderDetected "o2");
      Shifted job;
      Logged (PrintingOrder "o2");
      Called (PrintOrder job "B"); Settled (PrintOrder job "B") (Js.Fulfilled true);
      Called (PrintOrder job "A"); Settled (PrintOrder job "A") (Js.Fulfilled true);
      Logged (PrintCompleted "o2");
      Called (DocGet "takeOutOrders" "o2");
      Settled (DocGet "takeOutOrders" "o2") (Js.Fulfilled true);
      Called (DocUpdatePrinted "takeOutOrders" "o2");
      Settled (DocUpdatePrinted "takeOutOrders" "o2") (Js.Fulfilled true);
      Logged (MarkedPrinted "o2");
      Called (QueueDelete "q2"); Settled (QueueDelete "q2") (Js.Fulfilled true);
      Logged (RemovedFromQueue "o2" true);
      Released job true ].
Proof. reflexivity. Qed.

(** The second scenario: the record of a dine-in order is gone by the time
    it is looked up; the job still succeeds and its queue entry is
    deleted. *)
Example missing_record_run :
  let job := jobOf Sample.dineInChange in
  trace (run [ Snapshot false [ Sample.dineInChange ];
               Settle 0 (Js.Fulfilled true); Settle 0 (Js.Fulfilled false);
               Settle 0 (Js.Fulfilled true) ] init)
  = [ Noticed (NewOrderDetected "o1");
      Shifted job;
      Logged (PrintingOrder "o1");
      Called (PrintOrder job ""); Settled (PrintOrder job "") (Js.Fulfilled true);
      Logged (PrintCompleted "o1");
      Called (DocGet "dineInOrders" "o1");
      Settled (DocGet "dineInOrders" "o1") (Js.Fulfilled false);
      Logged (OrderNotFound "o1" "dineInOrders");
      Called (QueueDelete "q1"); Settled (QueueDelete "q1") (Js.Fulfilled true);
      Logged (RemovedFromQueue "o1" true);
      Released job true ].
Proof. reflexivity. Qed.

(** Two jobs arrive in one snapshot: the second waits in the queue until
    the first is released. *)
Example two_jobs_run :
  let st := run [ Snapshot false [ Sample.dineInChange; Sample.takeOutChange ];
                  Settle 0 Js.Rejected ] init in
  shifted (trace st) = [ jobOf Sample.dineInChange ]
  /\ printQueue st = [ jobOf Sample.takeOutChange ]
  /\ isPrinting st = true.
Proof. repeat split; reflexivity. Qed.

Lemma queue_processes_each_job_once_in_order_witness :
  let inputs := [ Snapshot false [ Sample.dineInChange; Sample.takeOutChange ] ] in
  let answers := replicate 10 (Js.Fulfilled true) in
  let st' := run (map (Settle 0) answers) (run inputs init) in
  isPrinting st' = false /\ pending st' = [] /\ printQueue st' = []
  /\ map fst (released (trace st'))
     = [ jobOf Sample.dineInChange; jobOf Sample.takeOutChange ].
Proof.
  apply (proj2 (proj2 (proj2 (proj2 (proj2
           (queue_processes_each_job_once_in_order
              [ Snapshot false [ Sample.dineInChange; Sample.takeOutChange ] ])))))
           (replicate 10 (Js.Fulfilled true))).
  simpl. lia.
Defined.

Lemma queue_entry_deletion_witness :
  is_Some (outcome (jobOf Sample.takeOutChange)
             [ Js.Fulfilled true; Js.Rejected; Js.Rejected; Js.Rejected;
               Js.Rejected ]).
Proof.
  apply (proj1 (queue_entry_deletion (jobOf Sample.takeOutChange)
                  [ Js.Fulfilled true; Js.Rejected; Js.Rejected; Js.Rejected;
                    Js.Rejected ])).
  simpl. lia.
Defined.

(** C1 as stated fails: after a failed emission the record is neither
    looked up nor updated; the job ends (as failed) with the deletion of
    its queue entry. *)
Lemma failed_print_skips_update :
  let job := jobOf Sample.dineInChange in
  let st := run [ Snapshot false [ Sample.dineInChange ];
                  Settle 0 Js.Rejected; Settle 0 (Js.Fulfilled true) ] init in
  released (trace st) = [ (job, false) ]
  /\ printFailures (trace st) = [ "" ]
  /\ lookups (trace st) = []
  /\ updates (trace st) = []
  /\ deletions (trace st) = [ "q1" ].
Proof. repeat split; reflexivity. Qed.

(** C3 as stated fails: when the emission for B fails, a take-out job makes
    no emission call for A. *)
Lemma failed_first_print_skips_second :
  let job := jobOf Sample.takeOutChange in
  let st := run [ Snapshot false [ Sample.takeOutChange ];
                  Settle 0 Js.Rejected; Settle 0 (Js.Fulfilled true) ] init in
  Order.orderType job = "Take Out"
  /\ released (trace st) = [ (job, false) ]
  /\ printedKitchens (trace st) = [ "B" ].
Proof. repeat split; reflexivity. Qed.

End SampleRuns.

(* ===================================================================== *)
(** * Part II, continued: what else the code guarantees                    *)
(* ===================================================================== *)

(** ** More on [formatPhone] and [toDateMaybe] *)

Section UtilsMore.

Lemma list_ascii_app (a b : string) :
  list_ascii_of_string (a +:+ b) = list_ascii_of_string a ++ list_ascii_of_string b.
Proof. induction a as [|c a IH]; simpl; [reflexivity | now rewrite IH]. Qed.

Lemma list_ascii_inj (a b : string) :
  list_ascii_of_string a = list_ascii_of_string b -> a = b.
Proof.
  intros H. rewrite <- (string_of_list_ascii_of_string a),
    <- (string_of_list_ascii_of_string b). now rewrite H.
Qed.

Lemma filter_all {A} (p : A -> bool) (l : list A) :
  Forall (fun x => p x = true) l -> List.filter p l = l.
Proof.
  induction 1 as [|x l Hx _ IH]; simpl; [reflexivity|]. now rewrite Hx, IH.
Qed.

Lemma filter_digits (s : string) :
  Forall (fun c => Js.is_digit c = true)
    (List.filter Js.is_digit (list_ascii_of_string s)).
Proof. apply Forall_forall. intros c Hc. apply list_elem_of_In, filter_In in Hc. tauto. Qed.

(** The characters of a formatted phone number, in terms of the digits of
    the input. *)
Lemma formatPhone_chars (p : string) :
  p <> "" ->
  let cs := List.filter Js.is_digit (list_ascii_of_string p) in
  let n := length cs in
  list_ascii_of_string (Utils.formatPhone (Some p))
  = if (7 <? n)%nat
    then take (n - 7) cs ++ " "%char :: take 3 (drop (n - 7) cs)
           ++ "-"%char :: drop (n - 4) cs
    else take (n - 4) cs ++ "-"%char :: drop (n - 4) cs.
Proof.
  intros Hp cs n. destruct p as [|c p]; [congruence|].
  unfold Utils.formatPhone.
  set (digits := Js.strip_non_digits (String c p)).
  assert (Hcs : list_ascii_of_string digits = cs) by apply strip_non_digits_chars.
  assert (Hn : String.length digits = n)
    by (rewrite <- length_list_ascii, Hcs; reflexivity).
  unfold Js.len. rewrite Hn.
  destruct (Z.ltb_spec 7 (Z.of_nat n)) as [Hlt|Hle].
  - destruct (Nat.ltb_spec 7 n) as [_|]; [|lia].
    change (Js.slice digits 0 (Some (-7)))
      with (Js.slice digits 0 (Some (- Z.of_nat 7))).
    change (Js.slice digits (-7) (Some (-4)))
      with (Js.slice digits (- Z.of_nat 7)
              (if (4 =? 0)%nat then None else Some (- Z.of_nat 4))).
    change (Js.slice digits (-4) None)
      with (Js.slice digits (- Z.of_nat 4)
              (if (0 =? 0)%nat then None else Some (- Z.of_nat 0))).
    rewrite (slice_prefix digits 7) by lia.
    rewrite (slice_from_end digits 7 4) by lia.
    rewrite (slice_from_end digits 4 0) by lia.
    rewrite Hcs, Hn, !list_ascii_app, !list_ascii_of_string_of_list_ascii.
    simpl. repeat f_equal.
    rewrite take_ge by (rewrite length_drop; fold n; lia). reflexivity.
  - destruct (Nat.ltb_spec 7 n) as [|_]; [lia|].
    destruct (Nat.le_gt_cases n 4) as [Hs|Hs].
    + destruct (slice_short digits 4 ltac:(lia) ltac:(lia)) as [E1 E2].
      change (- Z.of_nat 4) with (-4) in E1, E2. rewrite E1, E2.
      replace (n - 4)%nat with 0%nat by lia. rewrite take_0, drop_0.
      rewrite !list_ascii_app, Hcs. reflexivity.
    + change (Js.slice digits 0 (Some (-4)))
        with (Js.slice digits 0 (Some (- Z.of_nat 4))).
      change (Js.slice digits (-4) None)
        with (Js.slice digits (- Z.of_nat 4)
                (if (0 =? 0)%nat then None else Some (- Z.of_nat 0))).
      rewrite (slice_prefix digits 4) by lia.
      rewrite (slice_from_end digits 4 0) by lia.
      rewrite Hcs, Hn, !list_ascii_app, !list_ascii_of_string_of_list_ascii.
      simpl. repeat f_equal.
      rewrite take_ge by (rewrite length_drop; fold n; lia). reflexivity.
Qed.

Lemma formatPhone_chars_digits (p : string) :
  p <> "" ->
  List.filter Js.is_digit (list_ascii_of_string (Utils.formatPhone (Some p)))
  = List.filter Js.is_digit (list_ascii_of_string p).
Proof.
  intros Hp. rewrite (formatPhone_chars p Hp). cbv zeta.
  set (cs := List.filter Js.is_digit (list_ascii_of_string p)).
  assert (Hd : Forall (fun c => Js.is_digit c = true) cs) by apply filter_digits.
  set (n := length cs).
  destruct (7 <? n)%nat eqn:E.
  - rewrite List.filter_app. cbn [List.filter].
    change (Js.is_digit " ") with false. cbv iota.
    rewrite List.filter_app. cbn [List.filter].
    change (Js.is_digit "-") with false. cbv iota.
    rewrite !filter_all by auto using Forall_take, Forall_drop.
    apply Nat.ltb_lt in E.
    rewrite <- (take_drop (n - 7) cs) at 4. f_equal.
    rewrite <- (take_drop 3 (drop (n - 7) cs)) at 2. f_equal.
    rewrite drop_drop. f_equal. lia.
  - rewrite List.filter_app. cbn [List.filter].
    change (Js.is_digit "-") with false. cbv iota.
    rewrite !filter_all by auto using Forall_take, Forall_drop.
    apply take_drop.
Qed.

Lemma formatPhone_non_empty (p : string) :
  p <> "" -> Utils.formatPhone (Some p) <> "".
Proof.
  intros Hp H. apply (f_equal list_ascii_of_string) in H.
  rewrite (formatPhone_chars p Hp) in H. cbv zeta in H.
  apply (f_equal (@length ascii)) in H. revert H.
  destruct (_ <? _)%nat; intros H; rewrite ?length_app in H; simpl in H;
    rewrite ?length_app in H; simpl in H; lia.
Qed.

(** X1. Formatting keeps the digits: stripping the non-digits from
    the formatted number gives the digits of the input, all of them and in
    the same order. Only a space and a hyphen are added. *)
Theorem formatPhone_keeps_digits (phone : option string) :
  Js.strip_non_digits (Utils.formatPhone phone)
  = Js.strip_non_digits (default "" phone).
Proof.
  destruct phone as [p|]; [|reflexivity].
  destruct (decide (p = "")) as [->|Hp]; [reflexivity|].
  unfold Js.strip_non_digits. f_equal. now apply formatPhone_chars_digits.
Qed.

(** X2. Formatting a formatted number changes nothing. *)
Theorem formatPhone_idempotent (phone : option string) :
  Utils.formatPhone (Some (Utils.formatPhone phone)) = Utils.formatPhone phone.
Proof.
  destruct phone as [p|]; [|reflexivity].
  destruct (decide (p = "")) as [->|Hp]; [reflexivity|].
  pose proof (formatPhone_non_empty p Hp) as Hq.
  apply list_ascii_inj.
  rewrite (formatPhone_chars _ Hq). cbv zeta.
  rewrite (formatPhone_chars_digits p Hp).
  now rewrite (formatPhone_chars p Hp).
Qed.

(** X3. A plain [{seconds, nanoseconds}] timestamp within the range
    of JavaScript dates, with its nanoseconds below one second, becomes the
    date of its whole milliseconds: the nanoseconds below a millisecond are
    cut off, never rounded up. Within this range every number involved is
    an integer below 2^53, so the arithmetic of the code is exact. *)
Theorem toDateMaybe_truncates (seconds nanoseconds : Z) :
  - Tickets.MAX_DATE_SECONDS < seconds < Tickets.MAX_DATE_SECONDS ->
  0 <= nanoseconds < 1000000000 ->
  exists millis,
    Utils.toDateMaybe (Some (PlainTimestamp seconds nanoseconds)) = Some millis
    /\ millis * 1000000 <= seconds * 1000000000 + nanoseconds
       < (millis + 1) * 1000000
    /\ Z.abs millis < Tickets.MAX_DATE_SECONDS * 1000.
Proof.
  unfold Tickets.MAX_DATE_SECONDS. intros Hs Hn.
  eexists. split; [reflexivity|].
  pose proof (Z.div_mod nanoseconds 1000000 ltac:(lia)) as E.
  pose proof (Z.mod_pos_bound nanoseconds 1000000 ltac:(lia)) as B.
  assert (0 <= nanoseconds / 1000000 < 1000) by lia.
  lia.
Qed.

Lemma toDateMaybe_truncates_witness :
  exists millis,
    Utils.toDateMaybe (Some (PlainTimestamp 1700000000 123999999)) = Some millis
    /\ millis * 1000000 <= 1700000000 * 1000000000 + 123999999
       < (millis + 1) * 1000000
    /\ Z.abs millis < Tickets.MAX_DATE_SECONDS * 1000.
Proof.
  apply (toDateMaybe_truncates 1700000000 123999999);
    unfold Tickets.MAX_DATE_SECONDS; lia.
Defined.

End UtilsMore.

(** ** More on [preprocessOrderItem] *)

Section PreprocessMore.
Import OrderItems.

Lemma append_assoc (a b c : string) : (a +:+ b) +:+ c = a +:+ b +:+ c.
Proof.
  induction a as [|x a IH]; [reflexivity|].
  change (String x ((a +:+ b) +:+ c) = String x (a +:+ b +:+ c)). by f_equal.
Qed.

Lemma append_empty_r (a : string) : a +:+ "" = a.
Proof.
  induction a as [|x a IH]; [reflexivity|].
  change (String x (a +:+ "") = String x a). by f_equal.
Qed.

Lemma List_filter_sublist {A} (p : A -> bool) (l : list A) : sublist (List.filter p l) l.
Proof.
  induction l as [|a l IH]; simpl; [constructor|].
  destruct (p a); by constructor.
Qed.

Lemma sublist_map {A B} (f : A -> B) (l1 l2 : list A) :
  sublist l1 l2 -> sublist (map f l1) (map f l2).
Proof. induction 1; simpl; by constructor. Qed.

Lemma NoDup_map_inj {A B} (f : A -> B) (l : list A) (a b : A) :
  NoDup (map f l) -> In a l -> In b l -> f a = f b -> a = b.
Proof.
  induction l as [|x l IH]; simpl; [tauto|].
  intros ND Ha Hb E. apply NoDup_cons in ND as [Hx ND].
  rewrite list_elem_of_In in Hx.
  destruct Ha as [->|Ha], Hb as [->|Hb]; auto.
  - exfalso. apply Hx. rewrite E. by apply in_map.
  - exfalso. apply Hx. rewrite <- E. by apply in_map.
Qed.

(** Taking one object out of an array that holds it once shortens the
    array by one element at most. *)
Lemma filter_other_length (found : Opt.t) (l : list Opt.t) :
  NoDup (map Opt.ref l) ->
  (length l <= length (List.filter (fun o => negb (same_object o found)) l) + 1)%nat.
Proof.
  induction l as [|a l IH]; simpl; [lia|].
  intros ND. apply NoDup_cons in ND as [Ha ND]. specialize (IH ND).
  unfold same_object at 1. destruct (Nat.eqb_spec (Opt.ref a) (Opt.ref found)) as [E|E];
    simpl; [|lia].
  rewrite filter_all; [lia|].
  apply Forall_forall. intros o Ho. unfold same_object.
  apply negb_true_iff, Nat.eqb_neq. intros E'. apply Ha.
  rewrite E, <- E'. apply list_elem_of_In, in_map, list_elem_of_In, Ho.
Qed.

(** What one find-rename-filter block does to the options and the name. *)
Lemma consume_shrinks pred suffix (processed : order_item) (opts : list Opt.t) :
  Item.options processed = Some opts ->
  exists opts' sfx,
    Item.options (consume pred suffix processed) = Some opts'
    /\ sublist opts' opts
    /\ Item.name (consume pred suffix processed) = Item.name processed +:+ sfx
    /\ (NoDup (map Opt.ref opts) ->
        (length opts <= length opts' + 1)%nat
        /\ forall o, In o opts -> pred o = false -> In o opts').
Proof.
  intros E. unfold consume, elements. rewrite E.
  change (default [] (Some opts)) with opts.
  destruct (List.find pred opts) as [found|] eqn:F.
  - eexists _, _. cbn [Item.options Item.set_options Item.name Item.set_name].
    rewrite E. change (default [] (Some opts)) with opts.
    split; [reflexivity|]. split; [apply List_filter_sublist|]. split; [reflexivity|].
    intros ND. split; [by apply filter_other_length|].
    intros o Ho Hp. apply filter_In. split; [exact Ho|].
    apply find_some in F as [HF HpF].
    unfold same_object. apply negb_true_iff, Nat.eqb_neq. intros Er.
    assert (o = found) by (eapply NoDup_map_inj; eauto). congruence.
  - exists opts, "". rewrite append_empty_r.
    split; [exact E|]. split; [reflexivity|]. split; [reflexivity|].
    intros _. split; [lia | tauto].
Qed.

(** The flags that decide where an item is printed survive preprocessing. *)
Lemma consume_flags pred suffix (processed : order_item) :
  let p := consume pred suffix processed in
  Item.appetizer p = Item.appetizer processed
  /\ Item.togo p = Item.togo processed
  /\ Item.kitchenType p = Item.kitchenType processed.
Proof. unfold consume. destruct (List.find _ _); repeat split. Qed.

Lemma preprocessOrderItem_flags (item : order_item) :
  let p := preprocessOrderItem item in
  Item.appetizer p = Item.appetizer item
  /\ Item.togo p = Item.togo item
  /\ Item.kitchenType p = Item.kitchenType item.
Proof.
  unfold preprocessOrderItem.
  destruct (Item.options item) as [[|o opts]|]; [repeat split| |repeat split].
  set (p1 := if (Item.name item =? CONFIG.SPECIAL_ITEM)%string then _ else _).
  assert (H1 : Item.appetizer p1 = Item.appetizer item
               /\ Item.togo p1 = Item.togo item
               /\ Item.kitchenType p1 = Item.kitchenType item).
  { subst p1. destruct (_ =? _)%string; [apply consume_flags | repeat split]. }
  set (p2 := consume isEggSpringOption eggSpringSuffix p1).
  pose proof (consume_flags isEggSpringOption eggSpringSuffix p1) as H2.
  pose proof (consume_flags isRiceNoodleOption riceNoodleSuffix p2) as H3.
  cbv zeta in *. fold p2 in H2.
  cbn [Item.set_displayName Item.appetizer Item.togo Item.kitchenType].
  intuition congruence.
Qed.



Lemma preprocessOrderItem_with_options (item : order_item) (opts : list Opt.t) :
  Item.options item = Some opts -> opts <> [] ->
  preprocessOrderItem item
  = let processed :=
      if (Item.name item =? CONFIG.SPECIAL_ITEM)%string
      then consume isMainOption mainSuffix item else item in
    let processed := consume isEggSpringOption eggSpringSuffix processed in
    let processed := consume isRiceNoodleOption riceNoodleSuffix processed in
    Item.set_displayName (displayNameOf processed) processed.
Proof.
  intros E Hne. unfold preprocessOrderItem. rewrite E.
  destruct opts; [congruence | reflexivity].
Qed.

(** The three rules, one after the other. *)
Lemma preprocessOrderItem_shrinks (item : order_item) (opts : list Opt.t) :
  Item.options item = Some opts ->
  exists opts' sfx,
    Item.options (preprocessOrderItem item) = Some opts'
    /\ sublist opts' opts
    /\ Item.name (preprocessOrderItem item) = Item.name item +:+ sfx
    /\ (NoDup (map Opt.ref opts) ->
        (length opts <= length opts' + 3)%nat
        /\ forall o, In o opts ->
             (Item.name item = CONFIG.SPECIAL_ITEM -> isMainOption o = false) ->
             isEggSpringOption o = false -> isRiceNoodleOption o = false ->
             In o opts').
Proof.
  intros E. destruct (decide (opts = [])) as [->|Hne].
  { unfold preprocessOrderItem. rewrite E.
    exists [], "". rewrite append_empty_r.
    split; [exact E|]. split; [reflexivity|]. split; [reflexivity|].
    intros _. split; [cbn; lia | intros o []]. }
  rewrite (preprocessOrderItem_with_options item opts E Hne). cbv zeta.
  set (p1 := if (Item.name item =? CONFIG.SPECIAL_ITEM)%string then _ else _).
  assert (H1 : exists opts1 sfx1,
             Item.options p1 = Some opts1 /\ sublist opts1 opts
             /\ Item.name p1 = Item.name item +:+ sfx1
             /\ (NoDup (map Opt.ref opts) ->
                 (length opts <= length opts1 + 1)%nat
                 /\ forall o, In o opts ->
                      (Item.name item = CONFIG.SPECIAL_ITEM -> isMainOption o = false) ->
                      In o opts1)).
  { subst p1. destruct (String.eqb_spec (Item.name item) CONFIG.SPECIAL_ITEM) as [En|En].
    - destruct (consume_shrinks isMainOption mainSuffix item opts E)
        as (opts1 & sfx1 & A & B & C & D).
      exists opts1, sfx1. repeat split; auto; intros; apply D; auto.
    - exists opts, "". rewrite append_empty_r.
      split; [exact E|]. split; [reflexivity|]. split; [reflexivity|].
      intros _. split; [lia | auto]. }
  destruct H1 as (opts1 & sfx1 & E1 & S1 & N1 & D1).
  destruct (consume_shrinks isEggSpringOption eggSpringSuffix p1 opts1 E1)
    as (opts2 & sfx2 & E2 & S2 & N2 & D2).
  set (p2 := consume isEggSpringOption eggSpringSuffix p1) in *.
  destruct (consume_shrinks isRiceNoodleOption riceNoodleSuffix p2 opts2 E2)
    as (opts3 & sfx3 & E3 & S3 & N3 & D3).
  set (p3 := consume isRiceNoodleOption riceNoodleSuffix p2) in *.
  exists opts3, (sfx1 +:+ sfx2 +:+ sfx3).
  cbn [Item.set_displayName Item.options Item.name].
  split; [exact E3|]. split; [by repeat (etransitivity; [eassumption|])|].
  split; [by rewrite N3, N2, N1, !append_assoc|].
  intros ND.
  assert (ND1 : NoDup (map Opt.ref opts1))
    by (eapply sublist_NoDup; [exact ND | by apply sublist_map]).
  assert (ND2 : NoDup (map Opt.ref opts2))
    by (eapply sublist_NoDup; [exact ND1 | by apply sublist_map]).
  destruct (D1 ND) as [L1 K1], (D2 ND1) as [L2 K2], (D3 ND2) as [L3 K3].
  split; [lia|]. intros o Ho Hm He Hr. auto.
Qed.

(** X5. Preprocessing only ever removes options and only ever extends
    the name: the options that come out are a sublist of those that went
    in (same objects, same order), the new name starts with the old one,
    and when no option object is listed twice at most three options are
    gone, one per rule. *)
Theorem preprocessOrderItem_options_sublist (item : order_item) (opts : list Opt.t) :
  Item.options item = Some opts ->
  exists opts' sfx,
    Item.options (preprocessOrderItem item) = Some opts'
    /\ sublist opts' opts
    /\ Item.name (preprocessOrderItem item) = Item.name item +:+ sfx
    /\ (NoDup (map Opt.ref opts) -> (length opts <= length opts' + 3)%nat).
Proof.
  intros E.
  destruct (preprocessOrderItem_shrinks item opts E) as (opts' & sfx & A & B & C & D).
  exists opts', sfx. repeat split; auto. intros ND. by destruct (D ND).
Qed.

Lemma preprocessOrderItem_options_sublist_witness :
  exists opts' sfx,
    Item.options (preprocessOrderItem Sample.number3) = Some opts'
    /\ sublist opts' [ Sample.eggRoll; Sample.friedRice ]
    /\ Item.name (preprocessOrderItem Sample.number3) = "#3" +:+ sfx
    /\ (NoDup (map Opt.ref [ Sample.eggRoll; Sample.friedRice ]) ->
        (length [ Sample.eggRoll; Sample.friedRice ] <= length opts' + 3)%nat).
Proof.
  apply (preprocessOrderItem_options_sublist Sample.number3
           [ Sample.eggRoll; Sample.friedRice ]).
  reflexivity.
Defined.

(** X6. An egg roll or a spring roll ordered more than once is never
    folded into the name: whatever the item and its other options, such an
    option is still among the options after preprocessing. *)
Theorem preprocessOrderItem_keeps_counted_rolls
    (item : order_item) (opts : list Opt.t) (o : Opt.t) (q : Z) :
  Item.options item = Some opts ->
  NoDup (map Opt.ref opts) ->
  In o opts ->
  Opt.name o = "Egg Roll" \/ Opt.name o = "Spring Roll" ->
  Opt.quantity o = Some q -> 1 < q ->
  exists opts',
    Item.options (preprocessOrderItem item) = Some opts' /\ In o opts'.
Proof.
  intros E ND Ho Hn Hq Hlt.
  destruct (preprocessOrderItem_shrinks item opts E) as (opts' & sfx & A & _ & _ & D).
  exists opts'. split; [exact A|]. destruct (D ND) as [_ K]. apply K; auto.
  - intros _. unfold isMainOption.
    cbv [CONFIG.OPTION_NAMES.EGG_ROLL CONFIG.OPTION_NAMES.SPRING_ROLL].
    destruct Hn as [-> | ->]; reflexivity.
  - unfold isEggSpringOption. rewrite Hq.
    replace (q =? 0) with false by (symmetry; apply Z.eqb_neq; lia).
    replace (q <=? 1) with false by (symmetry; apply Z.leb_gt; lia).
    apply andb_false_r.
  - unfold isRiceNoodleOption.
    cbv [CONFIG.OPTION_NAMES.RICE CONFIG.OPTION_NAMES.NOODLES].
    destruct Hn as [-> | ->]; reflexivity.
Qed.

Lemma preprocessOrderItem_keeps_counted_rolls_witness :
  let rolls := Opt.mk 7%nat "Egg Roll" (Some 2) None in
  let item := Item.set_options (Some [ rolls; Sample.friedRice ]) Sample.number3 in
  exists opts',
    Item.options (preprocessOrderItem item) = Some opts' /\ In rolls opts'.
Proof.
  apply (preprocessOrderItem_keeps_counted_rolls
           (Item.set_options
              (Some [ Opt.mk 7%nat "Egg Roll" (Some 2) None; Sample.friedRice ])
              Sample.number3)
           [ Opt.mk 7%nat "Egg Roll" (Some 2) None; Sample.friedRice ]
           (Opt.mk 7%nat "Egg Roll" (Some 2) None) 2).
  - reflexivity.
  - repeat (apply NoDup_cons; split;
            [rewrite ?elem_of_cons, elem_of_nil; intuition discriminate|]).
    apply NoDup_nil_2.
  - left. reflexivity.
  - left. reflexivity.
  - reflexivity.
  - lia.
Defined.

End PreprocessMore.

(** ** More on [groupItemsByKitchen] *)

Section GroupMore.
Import OrderItems Grouping Tactics.

Lemma filter_map_same {A} (f : A -> A) (p : A -> bool) (l : list A) :
  (forall x, p (f x) = p x) ->
  List.filter p (map f l) = map f (List.filter p l).
Proof.
  intros H. induction l as [|a l IH]; simpl; [reflexivity|].
  rewrite H. destruct (p a); simpl; now rewrite IH.
Qed.

Lemma filter_filter_implied {A} (p q : A -> bool) (l : list A) :
  (forall x, p x = true -> q x = true) ->
  List.filter p (List.filter q l) = List.filter p l.
Proof.
  intros H. induction l as [|a l IH]; simpl; [reflexivity|].
  destruct (q a) eqn:Q; simpl; rewrite IH; [reflexivity|].
  destruct (p a) eqn:P; [|reflexivity]. apply H in P. congruence.
Qed.

(** Every section accepts routed items only. *)
Lemma groupItemsByKitchen_routed (items : list order_item) (excludeTogo : bool) :
  groupItemsByKitchen (List.filter routed items) excludeTogo
  = groupItemsByKitchen items excludeTogo.
Proof.
  unfold groupItemsByKitchen. cbv zeta.
  cbv [CONFIG.KITCHEN_TYPES.A CONFIG.KITCHEN_TYPES.B CONFIG.KITCHEN_TYPES.C
       CONFIG.KITCHEN_TYPES.Z].
  rewrite !(filter_filter_implied _ routed);
    first [ reflexivity | intros x; case_kitchen x; congruence ].
Qed.

(** X7. Grouping the preprocessed items gives the sections of the
    items as they came, with the items of each section preprocessed:
    preprocessing moves no item to another section, adds none and drops
    none. *)
Theorem groupItemsByKitchen_preprocessed
    (items : list order_item) (excludeTogo : bool) :
  groupItemsByKitchen (preprocessOrderItems (Some items)) excludeTogo
  = map (fun s => Sect.mk (Sect.label s) (map preprocessOrderItem (Sect.items s)))
      (groupItemsByKitchen items excludeTogo).
Proof.
  unfold preprocessOrderItems, groupItemsByKitchen. cbv zeta.
  rewrite !(filter_map_same preprocessOrderItem)
    by (intros x; destruct (preprocessOrderItem_flags x) as (Ha & Ht & Hk);
        unfold filterByKitchen, isTogoItem, kitchenTypeIs;
        cbv zeta in Ha, Ht, Hk; rewrite ?Ha, ?Ht, ?Hk; reflexivity).
  rewrite <- (filter_map_same
                (fun s => Sect.mk (Sect.label s)
                            (map preprocessOrderItem (Sect.items s))))
    by (intros [l its]; cbn [Sect.items]; now rewrite length_map).
  f_equal. destruct excludeTogo; reflexivity.
Qed.

Lemma candidates_by_destination (items : list order_item) :
  candidates items
  = map (fun label =>
           Sect.mk label
             (List.filter (fun x => bool_decide (destination x = Some label)) items))
      sectionLabels.
Proof.
  unfold candidates, sectionLabels. cbn [map].
  cbv [CONFIG.KITCHEN_TYPES.A CONFIG.KITCHEN_TYPES.B CONFIG.KITCHEN_TYPES.C
       CONFIG.KITCHEN_TYPES.Z].
  repeat (f_equal; [f_equal; apply List.filter_ext; intros x;
                    unfold destination; case_kitchen x; reflexivity|]).
  f_equal. f_equal. apply List.filter_ext. intros x.
  unfold destination. case_kitchen x; reflexivity.
Qed.

(** X8. Each section holds the items whose destination it is, in the
    order of the input, where the destination of an item is decided by the
    first that applies of: appetizer flag, to-go flag, kitchen type A, Z, B,
    C. A label is among the sections exactly when some item has that
    destination. *)
Theorem groupItemsByKitchen_by_destination
    (items : list order_item) (label : string) :
  In label sectionLabels ->
  let its := List.filter (fun x => bool_decide (destination x = Some label)) items in
  match its with
  | [] => ~ In label (map Sect.label (groupItemsByKitchen items false))
  | _ :: _ => In (Sect.mk label its) (groupItemsByKitchen items false)
  end.
Proof.
  intros Hl. cbv zeta. rewrite group_as_candidates, candidates_by_destination.
  match goal with |- context [map ?g sectionLabels] => set (G := g) end.
  destruct (List.filter (fun x => bool_decide (destination x = Some label)) items)
    as [|x its'] eqn:E.
  - intros H. apply in_map_iff in H as (s & Hs & H).
    apply filter_In in H as [H Hne]. apply in_map_iff in H as (l & <- & _).
    cbn [G Sect.label] in Hs. subst l. unfold nonEmpty in Hne.
    cbn [G Sect.items] in Hne. rewrite E in Hne. discriminate Hne.
  - rewrite <- E. change (In (G label) (List.filter nonEmpty (map G sectionLabels))).
    apply filter_In. split; [apply in_map, Hl|].
    unfold nonEmpty. cbn [G Sect.items]. rewrite E. reflexivity.
Qed.

Lemma groupItemsByKitchen_by_destination_witness :
  In (Sect.mk "Kitchen A" [ Sample.spring "A" false ])
    (groupItemsByKitchen
       [ Sample.spring "B" false; Sample.spring "A" true; Sample.spring "A" false ]
       false).
Proof.
  apply (groupItemsByKitchen_by_destination
           [ Sample.spring "B" false; Sample.spring "A" true; Sample.spring "A" false ]
           "Kitchen A").
  right. left. reflexivity.
Defined.

(** X9. The to-go section is the only thing [excludeTogo] changes:
    without it the sections are those with it, followed, when there are
    to-go items, by the section "Togo Items" holding what [getTogoItems]
    selects. *)
Theorem groupItemsByKitchen_togo_last (items : list order_item) :
  groupItemsByKitchen items false
  = groupItemsByKitchen items true
    ++ match Togo.getTogoItems items with
       | [] => []
       | (_ :: _) as togoItems => [ Sect.mk "Togo Items" togoItems ]
       end.
Proof.
  unfold groupItemsByKitchen, Togo.getTogoItems. cbv zeta.
  change (negb false) with true. change (negb true) with false. cbv iota.
  rewrite List.filter_app. f_equal.
  fold isTogoItem. cbn [List.filter Sect.items].
  change (fun item => Item.togo item && negb (Item.appetizer item)) with isTogoItem.
  destruct (List.filter isTogoItem items); reflexivity.
Qed.

End GroupMore.

(** ** More on [getOrderTotals] and [calculateTogoTotal] *)

Section TotalsMore.
Import OrderItems.

(** X10. A breakdown that carries a numeric grand total and a numeric
    total decides the result alone: the order's [total], the fallback
    subtotal and the tax rates do not enter, and the grand total is taken
    as it is, whether or not it is the sum of the other three. The
    breakdown is [taxBreakDown], or [taxbreakdown] when that is absent. *)
Theorem getOrderTotals_breakdown_decides (order : Order.t)
    (fallbackSubtotal : option float) (tb : Js.object) (g t : float) :
  Order.taxBreakDown order = Some tb
  \/ (Order.taxBreakDown order = None /\ Order.taxbreakdown order = Some tb) ->
  tb !! "grandTotal" = Some (Js.Number g) ->
  tb !! "total" = Some (Js.Number t) ->
  getOrderTotals order fallbackSubtotal
  = Totals.mk t (numberOr (tb !! "pst") 0%float) (numberOr (tb !! "gst") 0%float) g.
Proof.
  intros [H | [H1 H2]] Hg Ht; unfold getOrderTotals;
    rewrite ?H, ?H1, ?H2, Hg, Ht; reflexivity.
Qed.

Lemma getOrderTotals_breakdown_decides_witness :
  let tb : Js.object :=
    <["grandTotal" := Js.Number 20%float]> (<["total" := Js.Number 7%float]> ∅) in
  getOrderTotals (Order.set_taxBreakDown tb Sample.tenDollars) (Some 3%float)
  = Totals.mk 7%float (numberOr (tb !! "pst") 0%float)
      (numberOr (tb !! "gst") 0%float) 20%float.
Proof.
  apply (getOrderTotals_breakdown_decides
           (Order.set_taxBreakDown
              (<["grandTotal" := Js.Number 20%float]>
                 (<["total" := Js.Number 7%float]> ∅))
              Sample.tenDollars)
           (Some 3%float)
           (<["grandTotal" := Js.Number 20%float]> (<["total" := Js.Number 7%float]> ∅))
           20%float 7%float).
  - left. reflexivity.
  - vm_compute. reflexivity.
  - vm_compute. reflexivity.
Defined.

(** X11. A [taxBreakDown] without a numeric grand total hides
    [taxbreakdown]: the lower-case breakdown is not consulted, even when it
    is complete, and the totals are computed from the fallback subtotal,
    or the order's [total], or 0, with the configured rates. *)
Theorem getOrderTotals_shadowed_breakdown (order : Order.t)
    (fallbackSubtotal : option float) (tb : Js.object) :
  Order.taxBreakDown order = Some tb ->
  (forall g, tb !! "grandTotal" <> Some (Js.Number g)) ->
  let sub := default (default 0%float (Order.total order)) fallbackSubtotal in
  getOrderTotals order fallbackSubtotal
  = Totals.mk sub (sub * CONFIG.TAX.PST_RATE)%float (sub * CONFIG.TAX.GST_RATE)%float
      (sub + sub * CONFIG.TAX.PST_RATE + sub * CONFIG.TAX.GST_RATE)%float.
Proof.
  intros H Hg sub. unfold getOrderTotals. rewrite H.
  destruct (tb !! "grandTotal") as [[| g |]|] eqn:E; try reflexivity.
  destruct (Hg g eq_refl).
Qed.

Lemma getOrderTotals_shadowed_breakdown_witness :
  let full : Js.object :=
    <["grandTotal" := Js.Number 20%float]> (<["total" := Js.Number 7%float]> ∅) in
  let order :=
    Order.mk "o1" "Dine In" false None None None None None None None None false
      None (Some 10%float) (Some ∅) (Some full) None in
  Totals.subtotal (getOrderTotals order None) = 10%float.
Proof.
  cbv zeta.
  rewrite (getOrderTotals_shadowed_breakdown
             (Order.mk "o1" "Dine In" false None None None None None None None None
                false None (Some 10%float) (Some ∅)
                (Some (<["grandTotal" := Js.Number 20%float]>
                         (<["total" := Js.Number 7%float]> ∅)))
                None)
             None ∅).
  - reflexivity.
  - reflexivity.
  - intros g H. rewrite lookup_empty in H. discriminate H.
Defined.

Context {rt : Runtime}.

(** X12. [calculateTogoTotal] is 0 for a value that is no array and
    for the empty array, and it sums from the left: an item added at the
    end of the array adds its own total to the total of the items before
    it. *)
Theorem calculateTogoTotal_snoc (togoItems : list order_item) (item : order_item) :
  Togo.calculateTogoTotal None = 0%float
  /\ Togo.calculateTogoTotal (Some []) = 0%float
  /\ Togo.calculateTogoTotal (Some (togoItems ++ [ item ]))
     = (Togo.calculateTogoTotal (Some togoItems) + Togo.itemTotal item)%float.
Proof.
  split; [reflexivity|]. split; [reflexivity|].
  destruct togoItems as [|x l]; [reflexivity|].
  unfold Togo.calculateTogoTotal. cbn [app].
  change (x :: l ++ [ item ]) with ((x :: l) ++ [ item ]).
  rewrite fold_left_app. reflexivity.
Qed.

End TotalsMore.

(** ** More on the tickets *)

Lemma Forall_concat_map {A B} (P : B -> Prop) (f : A -> list B) (l : list A) :
  (forall x, Forall P (f x)) -> Forall P (concat (map f l)).
Proof.
  intros H. induction l as [|a l IH]; simpl; [constructor|].
  apply Forall_app. split; [apply H | exact IH].
Qed.

(** Splits a list of commands built with [++], [::], conditionals and
    [concat (map _ _)] into its commands. *)
Ltac each_command :=
  repeat match goal with
         | |- Forall _ (_ ++ _) => apply Forall_app_2
         | |- Forall _ (_ :: _) => apply Forall_cons_2; [reflexivity|]
         | |- Forall _ [] => apply Forall_nil_2
         | |- Forall _ (concat (map _ _)) => apply Forall_concat_map; intros ?
         | |- Forall _ (if ?b then _ else _) => destruct b
         | |- Forall _ (match ?x with _ => _ end) => destruct x
         end.

Section TicketFacts.
Import Printer Tickets.
Context {rt : Runtime}.

Lemma printOrderItem_formatting (item : order_item) :
  Forall (fun c => is_formatting c = true) (printOrderItem item).
Proof. unfold printOrderItem, printOption, printExtra, printChange. each_command. Qed.

Lemma printOrderItems_formatting (groupedSections : list Sect.t) :
  Forall (fun c => is_formatting c = true) (printOrderItems groupedSections).
Proof.
  unfold printOrderItems, printSection, printSectionHeader.
  each_command; apply printOrderItem_formatting.
Qed.

(** X13. With the printer connected, [printOrder] asks once whether
    the printer is connected, then sends the ticket, then cuts, then
    executes. The ticket itself holds formatting and text commands only: no
    cut, no execute and no further query sits inside it. The function
    returns when the execute is fulfilled and throws when it is rejected,
    the whole ticket having been sent by then. *)
Theorem printOrder_ticket_shape (env : surface) (order : Order.t) (kitchen : string) :
  connected env = Js.Fulfilled true ->
  exists body,
    fst (printOrder env order kitchen)
    = isPrinterConnected :: body ++ [ cut; execute ]
    /\ Forall (fun c => is_formatting c = true) body
    /\ snd (printOrder env order kitchen)
       = match executed env with
         | Js.Fulfilled _ => Returned
         | Js.Rejected => ThrewSurfaceError
         end.
Proof.
  intros H. unfold printOrder. rewrite H.
  set (groupedSections := OrderItems.groupItemsByKitchen _ _).
  exists (printRestaurantHeader order ++ printOrderTypeHeader order kitchen
          ++ printPreorderInfo order kitchen ++ printOrderDetails order
          ++ printOrderItems groupedSections ++ printTotals order
          ++ printFooter order kitchen).
  split; [|split].
  - destruct (executed env); cbn [fst]; rewrite <- ?app_assoc; reflexivity.
  - repeat (apply Forall_app_2); try apply printOrderItems_formatting;
      unfold printRestaurantHeader, printOrderTypeHeader, printPreorderInfo,
        printOrderDetails, printTotals, printFooter;
      each_command.
  - destruct (executed env); reflexivity.
Qed.

(** X14. The destination tag shows on take-out and pre-order tickets
    only: for an order that is neither, [printOrder] makes the same calls
    whatever tag it is given. *)
Theorem printOrder_tag_unused (env : surface) (order : Order.t)
    (kitchen kitchen' : string) :
  Order.orderType order <> "Take Out" ->
  Order.isPreorder order = false ->
  printOrder env order kitchen = printOrder env order kitchen'.
Proof.
  intros Ht Hp.
  unfold printOrder, printOrderTypeHeader, printPreorderInfo, printFooter.
  cbv [CONFIG.ORDER_TYPES.TAKE_OUT].
  rewrite (eqb_ne _ _ Ht), Hp. cbn [andb negb]. reflexivity.
Qed.

(** X15. The totals on a to-go ticket are those of the whole order
    whenever the order carries a tax breakdown with a numeric grand total
    and a numeric total: the ticket ends with the very lines [printTotals]
    prints for the order, and the total of the to-go items does not show. *)
Theorem printTogoTicket_order_totals (order : Order.t) (togoItems : list order_item)
    (tb : Js.object) (g t : float) :
  Order.taxBreakDown order = Some tb
  \/ (Order.taxBreakDown order = None /\ Order.taxbreakdown order = Some tb) ->
  tb !! "grandTotal" = Some (Js.Number g) ->
  tb !! "total" = Some (Js.Number t) ->
  exists front,
    Togo.printTogoTicket order togoItems
    = front ++ concat (map printOrderItem togoItems)
        ++ printTotals order ++ [ newLine ].
Proof.
  intros Htb Hg Ht. unfold Togo.printTogoTicket, printTotals. cbv zeta.
  assert (E : forall fb,
             OrderItems.getOrderTotals order fb
             = Totals.mk t (OrderItems.numberOr (tb !! "pst") 0%float)
                 (OrderItems.numberOr (tb !! "gst") 0%float) g).
  { intros fb. unfold OrderItems.getOrderTotals.
    destruct Htb as [H | [H1 H2]]; rewrite ?H, ?H1, ?H2, Hg, Ht; reflexivity. }
  rewrite !E.
  exists ([ alignCenter; setTextQuadArea; bold true;
            println CONFIG.RESTAURANT.name; newLine ]
          ++ match Order.tableNumber order with
             | Some tableNumber =>
                 if Js.truthy (Some tableNumber)
                 then [ setTextSize 2 2; bold false;
                        println ("TO GO: " +:+ tableNumber); newLine ]
                 else []
             | None => []
             end
          ++ [ setTextNormal; println separator; alignLeft ]).
  rewrite <- !app_assoc. reflexivity.
Qed.

(** Only the item lines of a ticket depend on the items of the order. *)
Lemma printRestaurantHeader_withItems x (order : Order.t) :
  printRestaurantHeader (withItems x order) = printRestaurantHeader order.
Proof. reflexivity. Qed.

Lemma printOrderTypeHeader_withItems x (order : Order.t) kitchen :
  printOrderTypeHeader (withItems x order) kitchen = printOrderTypeHeader order kitchen.
Proof. reflexivity. Qed.

Lemma printPreorderInfo_withItems x (order : Order.t) kitchen :
  printPreorderInfo (withItems x order) kitchen = printPreorderInfo order kitchen.
Proof. reflexivity. Qed.

Lemma printOrderDetails_withItems x (order : Order.t) :
  printOrderDetails (withItems x order) = printOrderDetails order.
Proof. reflexivity. Qed.

Lemma printTotals_withItems x (order : Order.t) :
  printTotals (withItems x order) = printTotals order.
Proof. reflexivity. Qed.

Lemma printFooter_withItems x (order : Order.t) kitchen :
  printFooter (withItems x order) kitchen = printFooter order kitchen.
Proof. reflexivity. Qed.

(** X16. Items that no section accepts leave no trace on the ticket:
    [printOrder] makes the same calls for an order as for the order without
    its items that are neither appetizers, nor to go, nor of kitchen type
    A, Z, B or C. *)
Theorem printOrder_skips_unrouted_items (env : surface) (order : Order.t)
    (items : list order_item) (kitchen : string) :
  printOrder env (withItems (Some items) order) kitchen
  = printOrder env (withItems (Some (List.filter Grouping.routed items)) order) kitchen.
Proof.
  assert (E : OrderItems.groupItemsByKitchen
                (OrderItems.preprocessOrderItems (Some (List.filter Grouping.routed items)))
                false
              = OrderItems.groupItemsByKitchen
                  (OrderItems.preprocessOrderItems (Some items)) false).
  { unfold OrderItems.preprocessOrderItems.
    rewrite <- (groupItemsByKitchen_routed (map _ items)).
    rewrite filter_map_same; [reflexivity|].
    intros x. destruct (preprocessOrderItem_flags x) as (Ha & Ht & Hk).
    unfold Grouping.routed, OrderItems.kitchenTypeIs. cbn [existsb].
    cbv zeta in Ha, Ht, Hk. rewrite Ha, Ht, Hk. reflexivity. }
  unfold printOrder.
  change (Order.orderItems (withItems ?x order)) with x.
  rewrite E, !(printRestaurantHeader_withItems _ order),
    !(printOrderTypeHeader_withItems _ order), !(printPreorderInfo_withItems _ order),
    !(printOrderDetails_withItems _ order), !(printTotals_withItems _ order),
    !(printFooter_withItems _ order).
  reflexivity.
Qed.

End TicketFacts.

Lemma printOrder_ticket_shape_witness :
  exists body,
    fst (@Printer.printOrder Sample.silent
           {| Printer.connected := Js.Fulfilled true;
              Printer.executed := Js.Rejected |}
           (Sample.order "o1" "Take Out" (Some "q1")) "B")
    = Printer.isPrinterConnected :: body ++ [ Printer.cut; Printer.execute ]
    /\ Forall (fun c => Tickets.is_formatting c = true) body
    /\ snd (@Printer.printOrder Sample.silent
              {| Printer.connected := Js.Fulfilled true;
                 Printer.executed := Js.Rejected |}
              (Sample.order "o1" "Take Out" (Some "q1")) "B")
       = Printer.ThrewSurfaceError.
Proof.
  apply (@printOrder_ticket_shape Sample.silent
           {| Printer.connected := Js.Fulfilled true;
              Printer.executed := Js.Rejected |}
           (Sample.order "o1" "Take Out" (Some "q1")) "B").
  reflexivity.
Defined.

Lemma printOrder_tag_unused_witness :
  @Printer.printOrder Sample.silent
    {| Printer.connected := Js.Fulfilled true; Printer.executed := Js.Fulfilled true |}
    Sample.tenDollars ""
  = @Printer.printOrder Sample.silent
      {| Printer.connected := Js.Fulfilled true; Printer.executed := Js.Fulfilled true |}
      Sample.tenDollars "B".
Proof.
  apply (@printOrder_tag_unused Sample.silent
           {| Printer.connected := Js.Fulfilled true;
              Printer.executed := Js.Fulfilled true |}
           Sample.tenDollars "" "B").
  - discriminate.
  - reflexivity.
Defined.

Lemma printTogoTicket_order_totals_witness :
  let tb : Js.object :=
    <["grandTotal" := Js.Number 20%float]> (<["total" := Js.Number 7%float]> ∅) in
  let order := Order.set_taxBreakDown tb Sample.tenDollars in
  exists front,
    @Togo.printTogoTicket Sample.silent order [ Sample.spring "A" true ]
    = front
      ++ concat (map (@Printer.printOrderItem Sample.silent) [ Sample.spring "A" true ])
      ++ @Printer.printTotals Sample.silent order ++ [ Printer.newLine ].
Proof.
  apply (@printTogoTicket_order_totals Sample.silent
           (Order.set_taxBreakDown
              (<["grandTotal" := Js.Number 20%float]>
                 (<["total" := Js.Number 7%float]> ∅))
              Sample.tenDollars)
           [ Sample.spring "A" true ]
           (<["grandTotal" := Js.Number 20%float]> (<["total" := Js.Number 7%float]> ∅))
           20%float 7%float).
  - left. reflexivity.
  - vm_compute. reflexivity.
  - vm_compute. reflexivity.
Defined.

Section DetailsFacts.
Import Printer.
Context {rt : Runtime}.

(** X23. The customer's name and phone number are printed for
    take-out orders only: for any other order type no line of the order
    details starts with "Customer: " or with "Phone: ". *)
Theorem printOrderDetails_customer_take_out_only (order : Order.t) :
  Order.orderType order <> "Take Out" ->
  Forall (fun c => match c with
                   | println s =>
                       String.prefix "Customer: " s = false
                       /\ String.prefix "Phone: " s = false
                   | _ => True
                   end)
    (printOrderDetails order).
Proof.
  intros Ht. unfold printOrderDetails. cbv [CONFIG.ORDER_TYPES.TAKE_OUT].
  rewrite (eqb_ne _ _ Ht).
  repeat match goal with
         | |- Forall _ (_ ++ _) => apply Forall_app_2
         | |- Forall _ (_ :: _) => apply Forall_cons_2; [by first [split | exact I]|]
         | |- Forall _ [] => apply Forall_nil_2
         | |- Forall _ (if ?b then _ else _) => destruct b
         | |- Forall _ (match ?x with _ => _ end) => destruct x
         end.
Qed.

End DetailsFacts.

Lemma printOrderDetails_customer_take_out_only_witness :
  Forall (fun c => match c with
                   | Printer.println s =>
                       String.prefix "Customer: " s = false
                       /\ String.prefix "Phone: " s = false
                   | _ => True
                   end)
    (@Printer.printOrderDetails Sample.silent Sample.tenDollars).
Proof.
  apply (@printOrderDetails_customer_take_out_only Sample.silent Sample.tenDollars).
  discriminate.
Defined.

(** ** More on the print queue *)

Section QueueMore.
Import Server QueueInv Tactics Tickets.

Lemma deletions_app (es1 es2 : list event) :
  deletions (es1 ++ es2) = deletions es1 ++ deletions es2.
Proof. apply omap_app. Qed.

Lemma deletions_worker (es : list event) : deletions (worker es) = deletions es.
Proof.
  induction es as [|[| |[]| | |] es IH]; [reflexivity|..]; unfold deletions in *;
    simpl; first [ exact IH | f_equal; exact IH ].
Qed.

(** A finished attempt has called for the deletion of the job's queue
    entry, once, when the job carries one. *)
Lemma deletions_attempt (order : Order.t) (answers : list Js.settled) :
  is_Some (outcome order answers) ->
  deletions (attempt order answers)
  = match queueEntry order with Some printId => [ printId ] | None => [] end.
Proof.
  unfold queueEntry. by_cases order;
    intros [b Hb]; try discriminate Hb; reflexivity.
Qed.

Lemma deletions_attempts (jobs : list (Order.t * list Js.settled)) :
  Forall (fun j => is_Some (outcome (fst j) (snd j))) jobs ->
  deletions (attempts jobs) = omap queueEntry (map fst jobs).
Proof.
  induction 1 as [|[o a] jobs Hj _ IH]; [reflexivity|].
  rewrite attempts_cons, deletions_app, IH, (deletions_attempt _ _ Hj).
  cbn [fst snd map]. unfold omap at 2. cbn [list_omap].
  by destruct (queueEntry o).
Qed.

(** X18. Once the queue is at rest, the worker has called for the
    deletion of the queue entry of every job the listener pushed, once per
    job and in the order of the pushes, whether the job was printed or not.
    Only a job whose queue id is falsy has no deletion. *)
Theorem deletions_at_rest (inputs : list input) :
  isPrinting (run inputs init) = false ->
  deletions (trace (run inputs init)) = omap queueEntry (enqueued inputs).
Proof.
  intros Hidle.
  destruct (reachable_consistent inputs) as (done & cur & HT & HD & HE & HC).
  destruct cur as [j|].
  - destruct HC as (HP & _). congruence.
  - destruct HC as (_ & _ & HQ).
    rewrite <- deletions_worker, HT, app_nil_r, (deletions_attempts _ HD).
    by rewrite HE, HQ, !app_nil_r.
Qed.

Lemma printFailures_app (es1 es2 : list event) :
  printFailures (es1 ++ es2) = printFailures es1 ++ printFailures es2.
Proof. apply omap_app. Qed.

Lemma printCalls_app (es1 es2 : list event) :
  printCalls (es1 ++ es2) = printCalls es1 ++ printCalls es2.
Proof. apply omap_app. Qed.

Lemma printFailures_worker (es : list event) :
  printFailures (worker es) = printFailures es.
Proof.
  induction es as [|[| | |[] []| |] es IH]; [reflexivity|..];
    unfold printFailures in *; simpl; first [ exact IH | f_equal; exact IH ].
Qed.

Lemma printCalls_worker (es : list event) : printCalls (worker es) = printCalls es.
Proof.
  induction es as [|[| |[]| | |] es IH]; [reflexivity|..];
    unfold printCalls in *; simpl; first [ exact IH | f_equal; exact IH ].
Qed.

(** The emission calls of one attempt: made for its job, for an initial
    part of the job's destination tags, each tag once; at most one of them
    is rejected. *)
Lemma printCalls_attempt (order : Order.t) (answers : list Js.settled) :
  exists kitchens,
    printCalls (attempt order answers) = map (pair order) kitchens
    /\ kitchens `prefix_of` kitchensOf order
    /\ (length (printFailures (attempt order answers)) <= 1)%nat.
Proof.
  unfold kitchensOf.
  by_cases order;
    first [ exists [ CONFIG.KITCHEN_TYPES.B; CONFIG.KITCHEN_TYPES.A ];
            split; [reflexivity|]; split; [by exists [] | cbn; lia]
          | exists [ CONFIG.KITCHEN_TYPES.B ];
            split; [reflexivity|];
            split; [by exists [ CONFIG.KITCHEN_TYPES.A ] | cbn; lia]
          | exists [ "" ];
            split; [reflexivity|]; split; [by exists [] | cbn; lia] ].
Qed.

Lemma printCalls_attempts (jobs : list (Order.t * list Js.settled)) :
  exists parts : list (Order.t * list string),
    map fst parts = map fst jobs
    /\ printCalls (attempts jobs)
       = concat (map (fun p => map (pair (fst p)) (snd p)) parts)
    /\ Forall (fun p => snd p `prefix_of` kitchensOf (fst p)) parts
    /\ (length (printFailures (attempts jobs)) <= length jobs)%nat.
Proof.
  induction jobs as [|[o a] jobs (parts & Hf & Hc & Hp & Hn)].
  - exists []. repeat split; [constructor | cbn; lia].
  - destruct (printCalls_attempt o a) as (ks & Hk & Hpre & H1).
    exists ((o, ks) :: parts).
    rewrite attempts_cons, printCalls_app, printFailures_app, length_app.
    cbn [fst snd map concat length]. rewrite Hf, Hk, Hc.
    repeat split; [by constructor | lia].
Qed.

(** X19. A failed emission is not tried again. In any run the
    emission calls are, job by job in the order the jobs were taken, made
    for that job and for an initial part of its destination tags (B then A
    for a take-out order, the empty tag for any other): no job is sent
    twice for the same tag. And in every run no more emissions were
    rejected than jobs were taken. *)
Theorem emissions_per_job (inputs : list input) :
  let es := trace (run inputs init) in
  exists parts : list (Order.t * list string),
    map fst parts = shifted es
    /\ printCalls es = concat (map (fun p => map (pair (fst p)) (snd p)) parts)
    /\ Forall (fun p => snd p `prefix_of` kitchensOf (fst p)) parts
    /\ (length (printFailures es) <= length (shifted es))%nat.
Proof.
  intros es. subst es.
  destruct (reachable_consistent inputs) as (done & cur & HT & _ & _ & _).
  set (jobs := done ++ match cur with Some j => [ j ] | None => [] end).
  assert (HW : worker (trace (run inputs init)) = attempts jobs).
  { subst jobs. rewrite HT. destruct cur as [[o a]|].
    - by rewrite attempts_snoc.
    - by rewrite !app_nil_r. }
  destruct (printCalls_attempts jobs) as (parts & Hf & Hc & Hp & Hn).
  exists parts.
  rewrite <- printCalls_worker, <- printFailures_worker, <- shifted_worker, HW.
  rewrite shifted_attempts, length_map. tauto.
Qed.

End QueueMore.

Lemma deletions_at_rest_witness :
  Server.deletions
    (Server.trace
       (Server.run [ Server.Snapshot false [ Sample.dineInChange; Sample.takeOutChange ];
                     Server.Settle 0 Js.Rejected; Server.Settle 0 Js.Rejected;
                     Server.Settle 0 Js.Rejected; Server.Settle 0 Js.Rejected ]
          Server.init))
  = [ "q1"; "q2" ].
Proof.
  apply (deletions_at_rest
           [ Server.Snapshot false [ Sample.dineInChange; Sample.takeOutChange ];
             Server.Settle 0 Js.Rejected; Server.Settle 0 Js.Rejected;
             Server.Settle 0 Js.Rejected; Server.Settle 0 Js.Rejected ]).
  reflexivity.
Defined.

Lemma disconnected_printer_fails_job_witness :
  Server.outcome (Sample.order "o1" "Take Out" (Some "q1"))
    (Server.awaitPrint
       (snd (@Printer.printOrder Sample.silent
               {| Printer.connected := Js.Fulfilled false;
                  Printer.executed := Js.Rejected |}
               (Sample.order "o1" "Take Out" (Some "q1")) "B"))
     :: [ Js.Fulfilled true ])
  = Some false.
Proof.
  apply (@disconnected_printer_fails_job Sample.silent
           {| Printer.connected := Js.Fulfilled false;
              Printer.executed := Js.Rejected |}
           (Sample.order "o1" "Take Out" (Some "q1")) "B" (Js.Fulfilled true) []).
  reflexivity.
Defined.

(** ** The USB printer lookup *)

Section UsbFacts.
Import Usb.

Lemma or_else_truthy (a b : option Z) (x : Z) :
  or_else a b = Some x -> b = Some x \/ x <> 0.
Proof.
  unfold or_else. destruct a as [y|]; [|tauto].
  destruct (Z.eqb_spec y 0); [tauto|]. intros [= <-]. tauto.
Qed.

Lemma printerInfoOf_nonzero (printer : Device.t) (ids : Ids.t) :
  printerInfoOf printer = Some ids -> Ids.vid ids <> 0 /\ Ids.pid ids <> 0.
Proof.
  unfold printerInfoOf.
  destruct (or_else _ _) as [v|]; [|discriminate].
  destruct (or_else _ _) as [p|]; [|discriminate].
  destruct (Z.eqb_spec v 0); [discriminate|].
  destruct (Z.eqb_spec p 0); [discriminate|].
  intros [= <-]. tauto.
Qed.

(** X21. On Windows [detectUSBPrinter] always returns a pair of ids,
    whatever [findPrinter] does, and neither id is ever 0; off Windows it
    throws. *)
Theorem detectUSBPrinter_ids (IS_WINDOWS : bool) (found : findPrinter) :
  match detectUSBPrinter IS_WINDOWS found with
  | Some ids => IS_WINDOWS = true /\ Ids.vid ids <> 0 /\ Ids.pid ids <> 0
  | None => IS_WINDOWS = false
  end.
Proof.
  unfold detectUSBPrinter. destruct IS_WINDOWS; [|reflexivity]. cbn [negb].
  assert (F : Ids.vid (Ids.mk FALLBACK_VID FALLBACK_PID) <> 0
              /\ Ids.pid (Ids.mk FALLBACK_VID FALLBACK_PID) <> 0)
    by (split; discriminate).
  destruct found as [| |[|d printers]]; try (split; [reflexivity | exact F]).
  destruct (omap printerInfoOf (d :: printers)) as [|selected rest] eqn:E;
    [split; [reflexivity | exact F]|].
  split; [reflexivity|].
  assert (Hin : selected ∈ omap printerInfoOf (d :: printers))
    by (rewrite E; left).
  apply list_elem_of_omap in Hin as (printer & _ & Hp).
  by apply (printerInfoOf_nonzero printer).
Qed.

(** X22. The first device that shows both a vendor id and a product
    id that are truthy is the one selected: devices listed before it that
    lack one of the two are passed over, and devices listed after it are
    not looked at. *)
Theorem detectUSBPrinter_first_usable
    (before after : list Device.t) (printer : Device.t) (ids : Ids.t) :
  Forall (fun d => printerInfoOf d = None) before ->
  printerInfoOf printer = Some ids ->
  detectUSBPrinter true (Returns (before ++ printer :: after)) = Some ids.
Proof.
  intros Hb Hp. unfold detectUSBPrinter. cbn [negb].
  assert (E : omap printerInfoOf (before ++ printer :: after)
              = ids :: omap printerInfoOf after).
  { rewrite omap_app. replace (omap printerInfoOf before) with (@nil Ids.t).
    - unfold omap at 1. cbn [list_omap app]. rewrite Hp. reflexivity.
    - symmetry. clear -Hb. induction Hb as [|d l Hd _ IH]; [reflexivity|].
      unfold omap. cbn [list_omap]. rewrite Hd. exact IH. }
  destruct (before ++ printer :: after) eqn:El.
  - destruct before; discriminate El.
  - rewrite E. reflexivity.
Qed.

Lemma detectUSBPrinter_first_usable_witness :
  let bare := Device.mk None None None None None None None None in
  let epson := Device.mk None (Some 0) (Some 1208) None (Some 514) None None None in
  let other := Device.mk (Some 1) None None None (Some 2) None None None in
  detectUSBPrinter true (Returns ([ bare ] ++ epson :: [ other ]))
  = Some (Ids.mk 1208 514).
Proof.
  apply (detectUSBPrinter_first_usable
           [ Device.mk None None None None None None None None ]
           [ Device.mk (Some 1) None None None (Some 2) None None None ]
           (Device.mk None (Some 0) (Some 1208) None (Some 514) None None None)
           (Ids.mk 1208 514)).
  - repeat constructor.
  - reflexivity.
Defined.

End UsbFacts.

(** ** The platform-specific printer module *)

Section PlatformFacts.
Import Printer Tickets PlatformPrinter.
Context {rt : Runtime}.

Lemma platform_printOrderItems_formatting (groupedSections : list Sect.t) :
  Forall (fun c => is_formatting c = true)
    (PlatformPrinter.printOrderItems groupedSections).
Proof.
  unfold PlatformPrinter.printOrderItems, PlatformPrinter.printSection,
    printSectionHeader.
  each_command;
    unfold PlatformPrinter.printOrderItem, PlatformPrinter.printOption,
      printExtra, printChange;
    each_command.
Qed.

Lemma platform_ticket_formatting (order : Order.t) (kitchen : string)
    (groupedSections : list Sect.t) :
  Forall (fun c => is_formatting c = true)
    (printRestaurantHeader order
     ++ PlatformPrinter.printOrderTypeHeader order kitchen
     ++ PlatformPrinter.printPreorderInfo order kitchen
     ++ PlatformPrinter.printOrderDetails order
     ++ PlatformPrinter.printOrderItems groupedSections
     ++ printTotals order ++ printFooter order kitchen).
Proof.
  repeat (apply Forall_app_2); try apply platform_printOrderItems_formatting;
    unfold printRestaurantHeader, PlatformPrinter.printOrderTypeHeader,
      PlatformPrinter.printPreorderInfo, PlatformPrinter.printOrderDetails,
      printTotals, printFooter;
    each_command.
Qed.

Lemma printViaUSB_no_printer_call (env : environment) (c : command) :
  ~ In (onPrinter c) (fst (printViaUSB env)).
Proof.
  unfold printViaUSB.
  destruct (buffer env); [|cbn; intuition discriminate].
  destruct (Usb.detectUSBPrinter _ _); [|cbn; intuition discriminate].
  destruct (constructs env), (opens env), (writes env); cbn; intuition discriminate.
Qed.

(** X24. In the platform-specific module, off Windows, [printOrder]
    formats the whole ticket and cuts before it asks whether the printer
    is connected: the calls are the ticket (formatting and text commands
    only), the cut, the query and, only when the answer is that the printer
    is connected, the execute. It returns exactly when the printer is
    connected and the execute is fulfilled; no USB device is touched. *)
Theorem platform_printOrder_direct (env : environment) (order : Order.t)
    (kitchen : string) :
  IS_WINDOWS env = false ->
  exists ticket,
    Forall (fun c => is_formatting c = true) ticket
    /\ fst (PlatformPrinter.printOrder env order kitchen)
       = map onPrinter (ticket ++ [ cut; isPrinterConnected ])
         ++ match probe env with
            | Js.Fulfilled true => [ onPrinter execute ]
            | _ => []
            end
    /\ snd (PlatformPrinter.printOrder env order kitchen)
       = match probe env, flush env with
         | Js.Fulfilled true, Js.Fulfilled _ => true
         | _, _ => false
         end.
Proof.
  intros Hw. unfold PlatformPrinter.printOrder. rewrite Hw. cbv zeta.
  set (groupedSections := OrderItems.groupItemsByKitchen _ _).
  eexists. split; [apply (platform_ticket_formatting order kitchen groupedSections)|].
  unfold printViaDirectInterface. split.
  - destruct (probe env) as [[]|]; [destruct (flush env)| |];
      cbn [fst]; rewrite <- !app_assoc, !map_app, <- !app_assoc; reflexivity.
  - destruct (probe env) as [[]|]; [destruct (flush env)| |]; reflexivity.
Qed.

(** X25. [printViaUSB] closes the device exactly when it opened it:
    the close is called once, as the last call, when the buffer was
    obtained, the device was constructed and [open] reported no error, and
    it is not called otherwise. The device is constructed with the ids
    [detectUSBPrinter] returned, and the promise is fulfilled exactly when
    the write reported no error either. *)
Theorem printViaUSB_closes_what_it_opened (env : environment) :
  let calls := fst (printViaUSB env) in
  let opened :=
    match buffer env with
    | Js.Fulfilled _ => IS_WINDOWS env && constructs env && opens env
    | Js.Rejected => false
    end in
  List.filter is_usbClose calls = (if opened then [ usbClose ] else [])
  /\ (opened = true -> last calls = Some usbClose)
  /\ (forall vid pid, In (newUSB vid pid) calls ->
        Usb.detectUSBPrinter (IS_WINDOWS env) (found env)
        = Some (Usb.Ids.mk vid pid))
  /\ snd (printViaUSB env) = opened && writes env.
Proof.
  cbv zeta. unfold printViaUSB.
  pose proof (detectUSBPrinter_ids (IS_WINDOWS env) (found env)) as Hd.
  destruct (buffer env) as [v|].
  2:{ repeat split; try discriminate. intros vid pid [H|[]]. discriminate H. }
  destruct (Usb.detectUSBPrinter (IS_WINDOWS env) (found env)) as [[vid0 pid0]|].
  2:{ rewrite Hd. repeat split; try discriminate.
      intros vid pid [H|[]]. discriminate H. }
  destruct Hd as (-> & _). cbn [Usb.Ids.vid Usb.Ids.pid andb].
  destruct (constructs env), (opens env), (writes env); cbn [negb andb fst snd];
    (split; [reflexivity|]); (split; [first [discriminate | reflexivity]|]);
    (split; [|reflexivity]);
    intros vid pid Hin; cbn [In] in Hin;
    repeat (destruct Hin as [Hin|Hin]; try discriminate Hin);
    try contradiction; by injection Hin as -> ->.
Qed.

(** X26. On Windows the platform-specific [printOrder] never asks the
    printer whether it is connected and never calls its [execute]: after
    the ticket and the cut, all it does is what [printViaUSB] does, and it
    returns exactly when the promise of [printViaUSB] is fulfilled. *)
Theorem platform_printOrder_usb (env : environment) (order : Order.t)
    (kitchen : string) :
  IS_WINDOWS env = true ->
  let calls := fst (PlatformPrinter.printOrder env order kitchen) in
  ~ In (onPrinter isPrinterConnected) calls
  /\ ~ In (onPrinter execute) calls
  /\ (exists ticket,
        Forall (fun c => is_formatting c = true) ticket
        /\ calls = map onPrinter (ticket ++ [ cut ]) ++ fst (printViaUSB env))
  /\ snd (PlatformPrinter.printOrder env order kitchen) = snd (printViaUSB env).
Proof.
  intros Hw. cbv zeta. unfold PlatformPrinter.printOrder. rewrite Hw. cbv zeta.
  set (groupedSections := OrderItems.groupItemsByKitchen _ _).
  pose proof (platform_ticket_formatting order kitchen groupedSections) as Hf.
  pose proof (printViaUSB_no_printer_call env) as Hu.
  destruct (printViaUSB env) as [calls returned]. cbn [fst snd] in *.
  set (ticket := printRestaurantHeader order ++ _) in Hf.
  assert (E : printRestaurantHeader order
              ++ PlatformPrinter.printOrderTypeHeader order kitchen
              ++ PlatformPrinter.printPreorderInfo order kitchen
              ++ PlatformPrinter.printOrderDetails order
              ++ PlatformPrinter.printOrderItems groupedSections
              ++ printTotals order ++ printFooter order kitchen ++ [ cut ]
              = ticket ++ [ cut ])
    by (subst ticket; rewrite <- !app_assoc; reflexivity).
  rewrite E.
  assert (N : forall c, is_formatting c = false -> c <> cut ->
                        ~ In (onPrinter c) (map onPrinter (ticket ++ [ cut ]) ++ calls)).
  { intros c Hc Hcut Hin. apply in_app_or in Hin as [Hin|Hin]; [|by apply (Hu c)].
    apply in_map_iff in Hin as (c' & [= ->] & Hin).
    apply in_app_or in Hin as [Hin|[Hin|[]]]; [|congruence].
    rewrite Forall_forall in Hf. apply list_elem_of_In, Hf in Hin. congruence. }
  split; [by apply N|]. split; [by apply N|]. split; [|reflexivity].
  exists ticket. split; [exact Hf | reflexivity].
Qed.

End PlatformFacts.

Lemma platform_printOrder_direct_witness :
  exists ticket,
    Forall (fun c => Tickets.is_formatting c = true) ticket
    /\ fst (@PlatformPrinter.printOrder Sample.silent SampleMore.offline
              (Sample.order "o1" "Take Out" (Some "q1")) "B")
       = map PlatformPrinter.onPrinter
           (ticket ++ [ Printer.cut; Printer.isPrinterConnected ])
    /\ snd (@PlatformPrinter.printOrder Sample.silent SampleMore.offline
              (Sample.order "o1" "Take Out" (Some "q1")) "B")
       = false.
Proof.
  destruct (@platform_printOrder_direct Sample.silent SampleMore.offline
              (Sample.order "o1" "Take Out" (Some "q1")) "B" eq_refl)
    as (ticket & Hf & Hc & Hr).
  exists ticket. split; [exact Hf|]. split; [|exact Hr].
  rewrite Hc. apply app_nil_r.
Defined.

Lemma platform_printOrder_usb_witness :
  ~ In (PlatformPrinter.onPrinter Printer.execute)
      (fst (@PlatformPrinter.printOrder Sample.silent SampleMore.windows
              (Sample.order "o1" "Take Out" (Some "q1")) "B"))
  /\ snd (@PlatformPrinter.printOrder Sample.silent SampleMore.windows
            (Sample.order "o1" "Take Out" (Some "q1")) "B")
     = true.
Proof.
  destruct (@platform_printOrder_usb Sample.silent SampleMore.windows
              (Sample.order "o1" "Take Out" (Some "q1")) "B" eq_refl)
    as (_ & He & _ & Hr).
  split; [exact He|]. rewrite Hr. reflexivity.
Defined.
